(** * ProspectSearchAgent: a shallow embedding of the prospect-resolution
  pipeline (scorer, deduplicator, attribute estimator, contact resolver,
  agent driver) and the properties its specification states about it.

  Modelling conventions.
  - A Python [dict] with a fixed set of keys is a [Record] whose fields are
    [option]s where the code reads the key with [.get]: [None] stands for
    an absent key (or a [None] value where the code only tests truthiness).
  - Python [str] is [string]; the text is ASCII: [lower], [strip],
    [split], [isalnum], [in] and [endswith] are written out for the
    characters below 128, where they agree with Python's.  On other
    characters Python's case mapping and character classes follow the
    Unicode tables, which are not modelled; a property that depends on
    them is stated for ASCII text.
  - Python [int] is [Z].  A Python [float] that only carries a value is
    modelled by exact rational arithmetic on [Q]: the scorer multiplies
    and adds a handful of decimal constants and rounds the result to two
    decimals, and module [Binary64] replays that computation on IEEE
    binary64 and checks that the idealisation loses nothing on the values
    the scorer can produce.  Where a float decides a branch (the products
    [employee_min * 0.8] and [employee_min * 0.5] of the scorer) it is a
    binary64 number: the conversion of the int, which raises
    [OverflowError] on an int too large, the rounded product and the exact
    comparison with an int are those of the machine.
  - A [set] of strings is a [gset string]; the dictionary
    [unique_companies], whose insertion order is the order of the output,
    is an association list.
  - Exceptions are an explicit [result] type; the random number generator
    and the two HTTP collaborators are parameters threaded as state. *)

From Stdlib Require Import ZArith QArith Qround String Ascii List Permutation.
From Stdlib Require Import Sorting.Sorted Lia Lqa.
From Stdlib Require Import Floats.PrimFloat Floats.FloatOps Floats.SpecFloat.
From Stdlib Require Uint63.
From stdpp Require Import gmap strings list.

Set Warnings "-inexact-float".

Local Open Scope string_scope.
Local Open Scope list_scope.

(* ===================================================================== *)
(** * Python values: strings, truthiness, numbers *)
(* ===================================================================== *)

Module Py.

(** [str.lower()] on ASCII. *)
Definition is_upper (a : ascii) : bool :=
  let n := nat_of_ascii a in Nat.leb 65 n && Nat.leb n 90.

Definition lower_ascii (a : ascii) : ascii :=
  if is_upper a then ascii_of_nat (nat_of_ascii a + 32) else a.

Fixpoint lower (s : string) : string :=
  match s with
  | EmptyString => EmptyString
  | String a s' => String (lower_ascii a) (lower s')
  end.

(** [str.isspace()] on a single ASCII character: TAB, LF, VT, FF, CR,
    the four separators 0x1c-0x1f, and SPACE. *)
Definition is_space (a : ascii) : bool :=
  let n := nat_of_ascii a in
  (Nat.leb 9 n && Nat.leb n 13) || (Nat.leb 28 n && Nat.leb n 32).

Fixpoint lstrip (s : string) : string :=
  match s with
  | EmptyString => EmptyString
  | String a s' => if is_space a then lstrip s' else s
  end.

Fixpoint rstrip (s : string) : string :=
  match s with
  | EmptyString => EmptyString
  | String a s' =>
      let r := rstrip s' in
      if is_space a && String.eqb r EmptyString then EmptyString
      else String a r
  end.

(** [s.strip()] *)
Definition strip (s : string) : string := rstrip (lstrip s).

(** [needle in hay] *)
Fixpoint contains (needle hay : string) : bool :=
  String.prefix needle hay ||
  match hay with
  | EmptyString => false
  | String _ hay' => contains needle hay'
  end.

(** [s.endswith(suffix)] *)
Fixpoint endswith (s suffix : string) : bool :=
  String.eqb s suffix ||
  match s with
  | EmptyString => false
  | String _ s' => endswith s' suffix
  end.

(** [s.split()]: maximal runs of non-whitespace characters. *)
Definition push_word (w : string) (ws : list string) : list string :=
  if String.eqb w EmptyString then ws else w :: ws.

Fixpoint split_go (s : string) : string * list string :=
  match s with
  | EmptyString => (EmptyString, [])
  | String a s' =>
      let (w, ws) := split_go s' in
      if is_space a then (EmptyString, push_word w ws)
      else (String a w, ws)
  end.

Definition split (s : string) : list string :=
  let (w, ws) := split_go s in push_word w ws.

(** [any(p(x) for x in xs)] *)
Definition any {A} (p : A -> bool) (xs : list A) : bool := existsb p xs.

(** Truthiness of the optional values the code tests with [if x] /
    [if not x]. *)
Definition truthy_str (o : option string) : bool :=
  match o with Some s => negb (String.eqb s EmptyString) | None => false end.

Definition truthy_int (o : option Z) : bool :=
  match o with Some n => negb (Z.eqb n 0) | None => false end.

Definition truthy_num (o : option Q) : bool :=
  match o with Some q => negb (Qeq_bool q 0) | None => false end.

Definition truthy_bool (o : option bool) : bool :=
  match o with Some b => b | None => false end.

Definition truthy_list {A} (o : option (list A)) : bool :=
  match o with Some (_ :: _) => true | _ => false end.

(** [a > b] and [a >= b] on numbers. *)
Definition gt (a b : Q) : bool := negb (Qle_bool a b).
Definition ge (a b : Q) : bool := Qle_bool b a.

(** [round(x)] to an integer, ties to even, on the exact value. *)
Definition round_half_even (x : Q) : Z :=
  let f := Qfloor x in
  match Qcompare (x - inject_Z f) (1 # 2) with
  | Lt => f
  | Gt => (f + 1)%Z
  | Eq => if Z.even f then f else (f + 1)%Z
  end.

(** [round(x, ndigits)] for [ndigits >= 0]. *)
Definition round (x : Q) (ndigits : nat) : Q :=
  let p := Pos.pow 10 (Pos.of_nat ndigits) in
  let p := match ndigits with O => 1%positive | _ => p end in
  Qmake (round_half_even (x * inject_Z (Z.pos p))) p.

(** Exceptions the modelled code can raise. *)
Inductive exn :=
  IndexError | AttributeError | KeyError | TypeError | OverflowError.

Inductive result (A : Type) :=
| Ok (a : A)
| Raise (e : exn).
Arguments Ok {A} a.
Arguments Raise {A} e.

Definition bind {A B} (m : result A) (k : A -> result B) : result B :=
  match m with
  | Ok a => k a
  | Raise e => Raise e
  end.

(** The exact value of a finite double, [(-1)^s * m * 2^e]. *)
Definition float_exact (x : float) : option Q :=
  match Prim2SF x with
  | S754_zero _ => Some 0%Q
  | S754_finite s m e =>
      let n := if s then Z.neg m else Z.pos m in
      Some (match e with
            | Z0 => inject_Z n
            | Zpos p => inject_Z (n * Z.pos (Pos.pow 2 p))
            | Zneg p => Qmake n (Pos.pow 2 p)
            end)
  | _ => None
  end.

(** The conversion of an [int] in mixed arithmetic: the nearest double,
    ties to even; an int that rounds beyond the largest double raises. *)
Definition float_of_int (n : Z) : result float :=
  let x := SF2Prim (binary_normalize prec emax n 0 false) in
  if PrimFloat.is_infinity x then Raise OverflowError else Ok x.

(** [n * x] for an [int] and a [float]: the int is converted and the
    product is rounded. *)
Definition int_times_float (n : Z) (x : float) : result float :=
  bind (float_of_int n) (fun y => Ok (PrimFloat.mul y x)).

(** [n >= t] for an [int] and a [float]: Python compares the two exact
    values; no int reaches [inf] or compares with [nan]. *)
Definition int_ge_float (n : Z) (t : float) : bool :=
  match float_exact t with
  | Some q => Qle_bool q (inject_Z n)
  | None => PrimFloat.eqb t neg_infinity
  end.

(** A value whose dynamic type the code inspects ([isinstance]). *)
Inductive value :=
| VNone
| VStr (s : string)
| VInt (n : Z).


(** [sorted(l, key=key, reverse=True)].  Python's sort is stable, and with
    [reverse=True] elements with equal keys still keep their original
    relative order.  For a total order on keys the output of a stable sort
    is unique, so an insertion sort that moves an element only past
    strictly greater keys is the same function as the library's. *)
Fixpoint insert_desc {A} (key : A -> Q) (x : A) (l : list A) : list A :=
  match l with
  | [] => [x]
  | y :: l' =>
      if gt (key y) (key x) then y :: insert_desc key x l' else x :: l
  end.

Definition sorted_reverse {A} (key : A -> Q) (l : list A) : list A :=
  foldr (insert_desc key) [] l.

(** A [dict] whose insertion order matters, as an association list.
    [dict_get] is [d.get(k)]; [dict_set] is [d[k] = v]: an existing key
    keeps its position, a new key goes to the end. *)
Fixpoint dict_get {V} (k : string) (d : list (string * V)) : option V :=
  match d with
  | [] => None
  | (k', v) :: d' => if String.eqb k k' then Some v else dict_get k d'
  end.

Fixpoint dict_set {V} (k : string) (v : V) (d : list (string * V))
  : list (string * V) :=
  match d with
  | [] => [(k, v)]
  | (k', v') :: d' =>
      if String.eqb k k' then (k, v) :: d' else (k', v') :: dict_set k v d'
  end.

(** [list(d.values())] *)
Definition dict_values {V} (d : list (string * V)) : list V := map snd d.

(** A [for] loop whose body may raise. *)
Fixpoint for_each {S A} (body : S -> A -> result S) (s : S) (l : list A)
  : result S :=
  match l with
  | [] => Ok s
  | x :: l' => bind (body s x) (fun s' => for_each body s' l')
  end.

(** [str.upper()] and [str.isalpha()] on one ASCII character. *)
Definition is_lower (a : ascii) : bool :=
  let n := nat_of_ascii a in Nat.leb 97 n && Nat.leb n 122.

Definition upper_ascii (a : ascii) : ascii :=
  if is_lower a then ascii_of_nat (nat_of_ascii a - 32) else a.

Definition is_alpha (a : ascii) : bool := is_upper a || is_lower a.

(** [s.replace(old, new)] for one-character [old] and [new]. *)
Fixpoint replace_char (old new : ascii) (s : string) : string :=
  match s with
  | EmptyString => EmptyString
  | String a s' =>
      String (if Ascii.eqb a old then new else a) (replace_char old new s')
  end.

(** [s.title()]: a letter that follows a non-letter is upper-cased, every
    other letter is lower-cased. *)
Fixpoint title_go (after_letter : bool) (s : string) : string :=
  match s with
  | EmptyString => EmptyString
  | String a s' =>
      String (if is_alpha a
              then if after_letter then lower_ascii a else upper_ascii a
              else a)
             (title_go (is_alpha a) s')
  end.

Definition title (s : string) : string := title_go false s.

(** Truthiness and [isinstance(v, str)] of a dynamically typed value. *)
Definition truthy_value (v : value) : bool :=
  match v with
  | VNone => false
  | VStr s => negb (String.eqb s EmptyString)
  | VInt n => negb (Z.eqb n 0)
  end.

Definition isinstance_str (v : value) : bool :=
  match v with VStr _ => true | _ => false end.

(** One key of [a.update(b)]: the value of [b] wins when [b] has the key. *)
Definition overlay {A} (a b : option A) : option A :=
  match b with Some _ => b | None => a end.

(** [if cond: l.append(x)] *)
Definition append_if {A} (cond : bool) (x : A) (l : list A) : list A :=
  if cond then l ++ [x] else l.

End Py.

#[global] Instance result_ret : MRet Py.result := @Py.Ok.
#[global] Instance result_bind : MBind Py.result :=
  fun A B k m => Py.bind m k.


(* ===================================================================== *)
(** * Data model (src/models.py and the dictionaries the stages build) *)
(* ===================================================================== *)

Module Contact.
Record t := mk {
  name : string;
  title : string;
  email : option string;
  linkedin : option string;
  confidence : option Q;
  hunter_verified : option bool
}.
End Contact.

Module Signals.
Record t := mk {
  recent_hiring : option bool;
  new_funding : option bool;
  funding_amount : option Q;
  funding_round : option string;
  job_title : option string;
  job_posted : option string;
  work_from_home : option bool
}.

(** The empty dictionary. *)
Definition empty : t := mk None None None None None None None.

(** [a.update(b)]: a key of [b] wins. *)
Definition update (a b : t) : t :=
  mk (Py.overlay (recent_hiring a) (recent_hiring b))
     (Py.overlay (new_funding a) (new_funding b))
     (Py.overlay (funding_amount a) (funding_amount b))
     (Py.overlay (funding_round a) (funding_round b))
     (Py.overlay (job_title a) (job_title b))
     (Py.overlay (job_posted a) (job_posted b))
     (Py.overlay (work_from_home a) (work_from_home b)).
End Signals.

Module Company.
Record t := mk {
  company_name : string;
  domain : option Py.value;
  revenue : option Q;
  industry : option string;
  employee_count : option Z;
  location : option string;
  funding_stage : option string;
  tech_stack : option (list string);
  contacts : list Contact.t;
  signals : option Signals.t;
  source : list string;
  confidence : Q;
  smart_enriched : option bool
}.

(** [company["confidence"] = q] *)
Definition set_confidence (c : t) (q : Q) : t :=
  mk (company_name c) (domain c) (revenue c) (industry c) (employee_count c)
     (location c) (funding_stage c) (tech_stack c) (contacts c) (signals c)
     (source c) q (smart_enriched c).

(** [company["contacts"] = cs] *)
Definition set_contacts (c : t) (cs : list Contact.t) : t :=
  mk (company_name c) (domain c) (revenue c) (industry c) (employee_count c)
     (location c) (funding_stage c) (tech_stack c) cs (signals c)
     (source c) (confidence c) (smart_enriched c).
End Company.

Module IcpSignals.
Record t := mk {
  funding : option bool;
  hiring_data_roles : option bool;
  tech_stack : option (list string)
}.
End IcpSignals.

Module ICP.
Record t := mk {
  revenue_min : option Q;
  revenue_max : option Q;
  industry : option (list string);
  geography : option (list string);
  employee_count_min : option Z;
  employee_count_max : option Z;
  keywords : option (list string);
  signals : option IcpSignals.t
}.
End ICP.

(* ===================================================================== *)
(** * Confidence Scorer (src/data_processing/scoring.py) *)
(* ===================================================================== *)

Module ConfidenceScorer.
Local Open Scope Q_scope.

(** [set(a).intersection(set(b))] is non-empty. *)
Definition words_intersect (a b : list string) : bool :=
  bool_decide ((list_to_set a : gset string) ∩ list_to_set b ≠ ∅).

Definition _calculate_industry_match
    (company : Company.t) (icp_config : ICP.t) : Q :=
  let icp_industries := default [] (ICP.industry icp_config) in
  match icp_industries with
  | [] => 0.0
  | _ =>
      let company_industry :=
        Py.lower (default "" (Company.industry company)) in
      if String.eqb company_industry "" then 0.0
      else if Py.any (fun target_industry =>
                Py.contains (Py.lower target_industry) company_industry)
              icp_industries
      then 1.0
      else if Py.any (fun target_industry =>
                words_intersect (Py.split (Py.lower target_industry))
                                (Py.split company_industry))
              icp_industries
      then 0.5
      else 0.0
  end.

Definition _calculate_funding_score
    (company : Company.t) (icp_config : ICP.t) : Q :=
  let icp_signals := ICP.signals icp_config in
  if negb (Py.truthy_bool (icp_signals ≫= IcpSignals.funding)) then 0.0
  else
    let signals := Company.signals company in
    if Py.truthy_bool (signals ≫= Signals.new_funding) then
      let funding_amount := default 0 (signals ≫= Signals.funding_amount) in
      if Py.gt funding_amount 50000000 then 1.0
      else if Py.gt funding_amount 10000000 then 0.8
      else 0.6
    else if Py.truthy_str (signals ≫= Signals.funding_round) then 0.3
    else 0.0.

Definition _calculate_hiring_score
    (company : Company.t) (icp_config : ICP.t) : Q :=
  let icp_signals := ICP.signals icp_config in
  if negb (Py.truthy_bool (icp_signals ≫= IcpSignals.hiring_data_roles))
  then 0.0
  else
    let signals := Company.signals company in
    if Py.truthy_bool (signals ≫= Signals.recent_hiring) then 1.0 else 0.0.

(** [employee_min * 0.8] and [employee_min * 0.5] are binary64 products,
    evaluated only when the comparison before them has failed. *)
Definition _calculate_employee_score
    (company : Company.t) (icp_config : ICP.t) : Py.result Q :=
  match ICP.employee_count_min icp_config, Company.employee_count company with
  | Some employee_min, Some employee_count =>
      if negb (Py.truthy_int (Some employee_min))
         || negb (Py.truthy_int (Some employee_count))
      then Py.Ok 0.0
      else if Py.ge (inject_Z employee_count) (inject_Z employee_min)
      then Py.Ok 1.0
      else
        close ← Py.int_times_float employee_min 0.8%float;
        if Py.int_ge_float employee_count close then Py.Ok 0.5
        else
          partial ← Py.int_times_float employee_min 0.5%float;
          if Py.int_ge_float employee_count partial then Py.Ok 0.2
          else Py.Ok 0.0
  | _, _ => Py.Ok 0.0
  end.

(** The body of the [for company in companies] loop, up to the value stored
    in [company["confidence"]]. *)
Definition score (company : Company.t) (icp_config : ICP.t) : Py.result Q :=
  let score := 0.0 in
  let industry_score := _calculate_industry_match company icp_config in
  let score := score + industry_score * 0.4 in
  let funding_score := _calculate_funding_score company icp_config in
  let score := score + funding_score * 0.3 in
  let hiring_score := _calculate_hiring_score company icp_config in
  let score := score + hiring_score * 0.2 in
  employee_score ← _calculate_employee_score company icp_config;
  let score := score + employee_score * 0.1 in
  Py.Ok (Py.round score 2).

(** The loop: an exception ends it. *)
Fixpoint score_each (companies : list Company.t) (icp_config : ICP.t)
  : Py.result (list Company.t) :=
  match companies with
  | [] => Py.Ok []
  | company :: rest =>
      confidence ← score company icp_config;
      rest ← score_each rest icp_config;
      Py.Ok (Company.set_confidence company confidence :: rest)
  end.

Definition calculate_confidence
    (companies : list Company.t) (icp_config : ICP.t)
  : Py.result (list Company.t) :=
  companies ← score_each companies icp_config;
  Py.Ok (Py.sorted_reverse Company.confidence companies).

End ConfidenceScorer.

(* ===================================================================== *)
(** * Deduplicator (src/data_processing/deduplicator.py) *)
(* ===================================================================== *)

(** [thefuzz.fuzz.ratio], a third-party similarity score on a 0-100 scale.
    The deduplicator is verified against any such function. *)
Class FuzzyMatcher := { fuzz_ratio : string -> string -> Z }.

Module Deduplicator.

(** [self.similarity_threshold] *)
Definition similarity_threshold : Z := 85.

(** [company["domain"].lower().strip()] needs a string: a truthy domain of
    another type raises. *)
Definition _get_company_key (company : Company.t) : Py.result string :=
  let by_name :=
    Py.Ok (Py.strip (Py.lower (Company.company_name company))) in
  match Company.domain company with
  | Some domain =>
      if Py.truthy_value domain then
        match domain with
        | Py.VStr d => Py.Ok (Py.strip (Py.lower d))
        | _ => Py.Raise Py.AttributeError
        end
      else by_name
  | None => by_name
  end.

(** The first kept record, in insertion order, whose name is similar
    enough; [None] when the loop falls through. *)
Fixpoint _find_similar_company `{FuzzyMatcher}
    (company : Company.t) (existing_companies : list (string * Company.t))
  : option string :=
  let company_name := Py.lower (Company.company_name company) in
  match existing_companies with
  | [] => None
  | (key, existing_company) :: rest =>
      let existing_name := Py.lower (Company.company_name existing_company) in
      let similarity := fuzz_ratio company_name existing_name in
      if (similarity_threshold <=? similarity)%Z then Some key
      else _find_similar_company company rest
  end.

(** [{contact["email"] for contact in contacts if contact.get("email")}] *)
Definition existing_emails (contacts : list Contact.t) : gset string :=
  list_to_set
    (omap (fun contact =>
             if Py.truthy_str (Contact.email contact)
             then Contact.email contact else None)
          contacts).

(** [contact.get("email") not in existing_emails]; a missing email is
    [None], which is in no set of strings. *)
Definition email_not_in (e : option string) (emails : gset string) : bool :=
  match e with
  | Some s => bool_decide (s ∉ emails)
  | None => true
  end.

(** [if not merged.get(field) and company2.get(field):
       merged[field] = company2[field]] *)
Definition prefer_non_null {A} (truthy : option A -> bool)
    (mine theirs : option A) : option A :=
  if negb (truthy mine) && truthy theirs then theirs else mine.

(** [merged] starts as a copy of [company1]; the name, domain, industry,
    location, tech stack, confidence and enrichment mark are never
    assigned. *)
Definition _merge_companies (company1 company2 : Company.t) : Company.t :=
  let merged := company1 in
  let source : list string :=
    elements (list_to_set (Company.source company1 ++ Company.source company2)
              : gset string) in
  let signals :=
    match Company.signals company2 with
    | Some signals2 =>
        Some (Signals.update
                (default Signals.empty (Company.signals merged)) signals2)
    | None => Company.signals merged
    end in
  let emails := existing_emails (Company.contacts merged) in
  let contacts :=
    fold_left
      (fun contacts contact =>
         if email_not_in (Contact.email contact) emails
         then contacts ++ [contact] else contacts)
      (Company.contacts company2) (Company.contacts merged) in
  Company.mk
    (Company.company_name merged)
    (Company.domain merged)
    (prefer_non_null Py.truthy_num
       (Company.revenue merged) (Company.revenue company2))
    (Company.industry merged)
    (prefer_non_null Py.truthy_int
       (Company.employee_count merged) (Company.employee_count company2))
    (Company.location merged)
    (prefer_non_null Py.truthy_str
       (Company.funding_stage merged) (Company.funding_stage company2))
    (Company.tech_stack merged)
    contacts signals source
    (Company.confidence merged)
    (Company.smart_enriched merged).

(** One iteration of the loop over [companies]. *)
Definition dedup_step `{FuzzyMatcher}
    (unique_companies : list (string * Company.t)) (company : Company.t)
  : Py.result (list (string * Company.t)) :=
  key ← _get_company_key company;
  match Py.dict_get key unique_companies with
  | None =>
      let similar_key := _find_similar_company company unique_companies in
      if Py.truthy_str similar_key then
        match similar_key ≫= (fun k => Py.dict_get k unique_companies) with
        | Some existing =>
            Py.Ok (Py.dict_set (default "" similar_key)
                     (_merge_companies existing company) unique_companies)
        | None => Py.Raise Py.KeyError
        end
      else Py.Ok (Py.dict_set key company unique_companies)
  | Some existing =>
      Py.Ok (Py.dict_set key (_merge_companies existing company)
               unique_companies)
  end.

Definition deduplicate_companies `{FuzzyMatcher}
    (companies : list Company.t) : Py.result (list Company.t) :=
  unique_companies ← Py.for_each dedup_step [] companies;
  Py.Ok (Py.dict_values unique_companies).

End Deduplicator.

(* ===================================================================== *)
(** * Attribute Estimator (src/api_clients/smart_enricher.py) *)
(* ===================================================================== *)

(** Python's [random] module.  The estimator's guesses are pseudo-random;
    the generator is an explicit state, and every property below holds for
    every generator. *)
Class RandomSource (G : Type) := {
  randint : Z -> Z -> G -> Z * G;
  random : G -> Q * G;
  randbelow : nat -> G -> nat * G
}.

(** The dictionary [enriched_data]. *)
Module Enriched.
Record t := mk {
  employee_count : option Z;
  revenue : option Q;
  industry : option string;
  funding_stage : option string;
  tech_stack : option (list string);
  smart_enriched : option bool
}.

Definition empty : t := mk None None None None None None.

Definition set_employee_count (e : t) (v : Z) : t :=
  mk (Some v) (revenue e) (industry e) (funding_stage e) (tech_stack e)
     (smart_enriched e).
Definition set_revenue (e : t) (v : Q) : t :=
  mk (employee_count e) (Some v) (industry e) (funding_stage e) (tech_stack e)
     (smart_enriched e).
Definition set_industry (e : t) (v : string) : t :=
  mk (employee_count e) (revenue e) (Some v) (funding_stage e) (tech_stack e)
     (smart_enriched e).
Definition set_funding_stage (e : t) (v : string) : t :=
  mk (employee_count e) (revenue e) (industry e) (Some v) (tech_stack e)
     (smart_enriched e).
Definition set_tech_stack (e : t) (v : list string) : t :=
  mk (employee_count e) (revenue e) (industry e) (funding_stage e) (Some v)
     (smart_enriched e).
Definition set_smart_enriched (e : t) (v : bool) : t :=
  mk (employee_count e) (revenue e) (industry e) (funding_stage e)
     (tech_stack e) (Some v).
End Enriched.

Module SmartCompanyEnricher.
Section WithRandom.
Context {G : Type} `{RandomSource G}.

(** [random.choice(seq)] *)
Definition choice (seq : list string) (g : G) : string * G :=
  let (i, g) := randbelow (length seq) g in (nth i seq "", g).

(** [any(pattern in text for pattern in patterns)] *)
Definition any_in (patterns : list string) (text : string) : bool :=
  Py.any (fun pattern => Py.contains pattern text) patterns.

Definition _estimate_employee_count
    (company_name job_title : string) (g : G) : Z * G :=
  if any_in ["corp"; "corporation"; "inc"; "global"; "international"]
            company_name
  then randint 1000 50000 g
  else if any_in ["labs"; "tech"; "io"; "startup"; "ventures"] company_name
  then randint 10 200 g
  else if any_in ["data scientist"; "data engineer"; "machine learning"]
                 job_title
  then randint 50 1000 g
  else randint 50 2000 g.

Definition _estimate_revenue
    (employee_count : Z) (company_name : string) (g : G) : Q * G :=
  let (revenue_per_employee, g) :=
    if any_in ["tech"; "software"; "saas"] company_name
    then randint 200000 500000 g
    else if any_in ["consulting"; "services"] company_name
    then randint 150000 300000 g
    else randint 100000 250000 g in
  (inject_Z (employee_count * revenue_per_employee), g).

Definition job_industry_map : list (string * list string) :=
  [ ("data", ["data scientist"; "data engineer"; "data analyst"; "analytics"]);
    ("ai_ml", ["ai"; "machine learning"; "deep learning"; "llm";
               "generative ai"]);
    ("software", ["software engineer"; "developer"; "full stack"; "frontend";
                  "backend"]);
    ("cloud", ["aws"; "azure"; "gcp"; "cloud"; "devops"]);
    ("fintech", ["fintech"; "banking"; "payments"; "financial"; "trading"]);
    ("healthcare", ["health"; "medical"; "pharma"; "biotech"; "clinical"]) ].

Fixpoint industry_of_job (items : list (string * list string))
    (job_title : string) : option string :=
  match items with
  | [] => None
  | (industry, keywords) :: rest =>
      if any_in keywords job_title
      then Some (Py.title (Py.replace_char "_" " " industry))
      else industry_of_job rest job_title
  end.

Definition _refine_industry
    (company_name job_title current_industry : string) : string :=
  match industry_of_job job_industry_map job_title with
  | Some industry => industry
  | None =>
      if any_in ["bank"; "finance"; "capital"; "payments"] company_name
      then "FinTech"
      else if any_in ["health"; "medical"; "care"; "pharma"] company_name
      then "Healthcare"
      else if any_in ["media"; "entertainment"; "streaming"] company_name
      then "Media & Entertainment"
      else if any_in ["retail"; "ecommerce"; "shop"; "store"] company_name
      then "E-commerce"
      else if String.eqb current_industry "" then "Technology"
      else current_industry
  end.

Definition _estimate_funding_stage
    (company_name : string) (employee_count : Z) (g : G) : string * G :=
  if (1000 <? employee_count)%Z then
    let (r, g) := random g in
    (if Py.gt r 0.3 then "Public" else "Series E+", g)
  else if (500 <? employee_count)%Z then
    choice ["Series D"; "Series E"; "Private Equity"] g
  else if (100 <? employee_count)%Z then choice ["Series B"; "Series C"] g
  else if (50 <? employee_count)%Z then choice ["Series A"; "Series B"] g
  else choice ["Seed"; "Series A"; "Bootstrapped"] g.

Definition _infer_tech_stack (job_title : string) : list string :=
  let job_lower := Py.lower job_title in
  let tech_stack := [] in
  let tech_stack :=
    Py.append_if (any_in ["python"; "py"] job_lower) "Python" tech_stack in
  let tech_stack := Py.append_if (any_in ["java"] job_lower) "Java" tech_stack in
  let tech_stack :=
    Py.append_if (any_in ["javascript"; "js"; "node"] job_lower)
                 "JavaScript" tech_stack in
  let tech_stack := Py.append_if (any_in ["sql"] job_lower) "SQL" tech_stack in
  let tech_stack := Py.append_if (any_in ["r"] job_lower) "R" tech_stack in
  let tech_stack :=
    Py.append_if (any_in ["aws"; "amazon web services"] job_lower)
                 "AWS" tech_stack in
  let tech_stack :=
    Py.append_if (any_in ["azure"] job_lower) "Azure" tech_stack in
  let tech_stack :=
    Py.append_if (any_in ["gcp"; "google cloud"] job_lower) "GCP" tech_stack in
  let tech_stack :=
    Py.append_if (any_in ["snowflake"] job_lower) "Snowflake" tech_stack in
  let tech_stack :=
    Py.append_if (any_in ["databricks"] job_lower) "Databricks" tech_stack in
  let tech_stack :=
    Py.append_if (any_in ["spark"] job_lower) "Apache Spark" tech_stack in
  let tech_stack :=
    Py.append_if (any_in ["docker"; "kubernetes"; "k8s"] job_lower)
                 "Containers" tech_stack in
  firstn 5 tech_stack.

(** [a or b or 100] on optional integers. *)
Definition first_truthy_or (a b : option Z) (last : Z) : Z :=
  if Py.truthy_int a then default last a
  else if Py.truthy_int b then default last b
  else last.

Definition _estimate_from_job_data (company : Company.t) (g : G)
  : Enriched.t * G :=
  let enriched_data := Enriched.empty in
  let company_name := Py.lower (Company.company_name company) in
  let signals := default Signals.empty (Company.signals company) in
  let job_title := Py.lower (default "" (Signals.job_title signals)) in
  (* 1. employee count *)
  let '(enriched_data, g) :=
    if negb (Py.truthy_int (Company.employee_count company)) then
      let (n, g) := _estimate_employee_count company_name job_title g in
      (Enriched.set_employee_count enriched_data n, g)
    else (enriched_data, g) in
  (* 2. revenue *)
  let '(enriched_data, g) :=
    if negb (Py.truthy_num (Company.revenue company)) then
      let employee_count :=
        first_truthy_or (Enriched.employee_count enriched_data)
                        (Company.employee_count company) 100 in
      let (r, g) := _estimate_revenue employee_count company_name g in
      (Enriched.set_revenue enriched_data r, g)
    else (enriched_data, g) in
  (* 3. industry *)
  let current_industry := default "" (Company.industry company) in
  let enriched_data :=
    if String.eqb current_industry ""
       || String.eqb current_industry "Technology"
    then Enriched.set_industry enriched_data
           (_refine_industry company_name job_title current_industry)
    else enriched_data in
  (* 4. funding stage *)
  let '(enriched_data, g) :=
    if negb (Py.truthy_str (Company.funding_stage company)) then
      let (stage, g) :=
        _estimate_funding_stage company_name
          (default 100%Z (Enriched.employee_count enriched_data)) g in
      (Enriched.set_funding_stage enriched_data stage, g)
    else (enriched_data, g) in
  (* 5. tech stack *)
  let enriched_data :=
    if negb (String.eqb job_title "")
    then Enriched.set_tech_stack enriched_data (_infer_tech_stack job_title)
    else enriched_data in
  (Enriched.set_smart_enriched enriched_data true, g).

(** [company.update(enriched_data)] *)
Definition update (company : Company.t) (e : Enriched.t) : Company.t :=
  Company.mk
    (Company.company_name company)
    (Company.domain company)
    (Py.overlay (Company.revenue company) (Enriched.revenue e))
    (Py.overlay (Company.industry company) (Enriched.industry e))
    (Py.overlay (Company.employee_count company) (Enriched.employee_count e))
    (Company.location company)
    (Py.overlay (Company.funding_stage company) (Enriched.funding_stage e))
    (Py.overlay (Company.tech_stack company) (Enriched.tech_stack e))
    (Company.contacts company)
    (Company.signals company)
    (Company.source company)
    (Company.confidence company)
    (Py.overlay (Company.smart_enriched company) (Enriched.smart_enriched e)).

(** The body of the loop of [enrich_companies_batch] on one record. *)
Definition enrich_company (company : Company.t) (g : G) : Company.t * G :=
  let (enriched_data, g) := _estimate_from_job_data company g in
  (update company enriched_data, g).

Fixpoint enrich_companies_batch (companies : list Company.t) (g : G)
  : list Company.t * G :=
  match companies with
  | [] => ([], g)
  | company :: rest =>
      let (company, g) := enrich_company company g in
      let (rest, g) := enrich_companies_batch rest g in
      (company :: rest, g)
  end.

End WithRandom.
End SmartCompanyEnricher.

(* ===================================================================== *)
(** * Contact Resolver (src/api_clients/hunter_client.py) *)
(* ===================================================================== *)

(** The JSON document the contact directory answers with. *)
Module Hunter.

(** A key of the reply: missing, present with the JSON value [null], or
    present with a value of the documented type. *)
Inductive field (A : Type) :=
| Missing
| Null
| Val (a : A).
Arguments Missing {A}.
Arguments Null {A}.
Arguments Val {A} a.

Record email_data := mk_email_data {
  position : field string;
  first_name : field string;
  last_name : field string;
  value : field string;
  linkedin : field string;
  confidence : field Z
}.

(** [data["data"]] and the whole reply. *)
Record payload := mk_payload { emails : field (list email_data) }.
Record response := mk_response { data : field payload }.

(** What [session.get] can do: answer with a status code and a JSON body,
    or fail with an exception. *)
Inductive http_result :=
| Answered (status : Z) (body : response)
| Failed.
End Hunter.

(** The contact directory behind the HTTP call, and the API key read from
    the environment.  The outside world is an explicit state. *)
Class ContactDirectory (W : Type) := {
  api_key : option string;
  domain_search : string -> W -> Hunter.http_result * W
}.

Module HunterClient.

(** [d.get(key, default)]: the default stands in for a missing key only;
    a [null] comes back as [None]. *)
Definition get {A} (f : Hunter.field A) (default : A) : option A :=
  match f with
  | Hunter.Missing => Some default
  | Hunter.Null => None
  | Hunter.Val a => Some a
  end.

(** How an f-string renders [d.get(key, '')]: [None] is written "None". *)
Definition render (f : Hunter.field string) : string :=
  match get f "" with
  | Some s => s
  | None => "None"
  end.

(** [any(title.lower() in position for title in target_titles)] *)
Definition matches (target_titles : list string) (position : string) : bool :=
  Py.any (fun title => Py.contains (Py.lower title) position) target_titles.

(** [email_data.get("confidence", 0) / 100.0]: [None] cannot be divided,
    and an int too large for a double cannot be converted. *)
Definition rescale (f : Hunter.field Z) : Py.result Q :=
  match get f 0%Z with
  | None => Py.Raise Py.TypeError
  | Some n => _ ← Py.float_of_int n; Py.Ok (inject_Z n / 100)%Q
  end.

(** The dictionary built for one entry; [title] is
    [email_data.get("position", "")], a string once [.lower()] has been
    called on it. *)
Definition contact_of (email_data : Hunter.email_data) (title : string)
  : Py.result Contact.t :=
  let name :=
    Py.strip (render (Hunter.first_name email_data) +:+ " "
              +:+ render (Hunter.last_name email_data)) in
  let email := get (Hunter.value email_data) "" in
  let linkedin := get (Hunter.linkedin email_data) "" in
  confidence ← rescale (Hunter.confidence email_data);
  Py.Ok (Contact.mk name title email linkedin (Some confidence) (Some true)).

(** One iteration of [for email_data in emails]: [.lower()] on a [null]
    position raises. *)
Definition parse_step (target_titles : option (list string))
    (contacts : list Contact.t) (email_data : Hunter.email_data)
  : Py.result (list Contact.t) :=
  match get (Hunter.position email_data) "" with
  | None => Py.Raise Py.AttributeError
  | Some title =>
      let position := Py.lower title in
      if Py.truthy_list target_titles
         && negb (matches (default [] target_titles) position)
      then Py.Ok contacts
      else
        contact ← contact_of email_data title;
        if Py.truthy_str (Contact.email contact)
        then Py.Ok (contacts ++ [contact])
        else Py.Ok contacts
  end.

(** [data.get("data", {}).get("emails", [])]: [.get] on a [null] raises,
    and so does the loop over a [null]. *)
Definition _parse_hunter_contacts
    (data : Hunter.response) (target_titles : option (list string))
  : Py.result (list Contact.t) :=
  let contacts := [] in
  match get (Hunter.data data) (Hunter.mk_payload Hunter.Missing) with
  | None => Py.Raise Py.AttributeError
  | Some payload =>
      match get (Hunter.emails payload) [] with
      | None => Py.Raise Py.TypeError
      | Some emails =>
          contacts ← Py.for_each (parse_step target_titles) contacts emails;
          Py.Ok (firstn 5 contacts)
      end
  end.

Section WithDirectory.
Context {W : Type} `{ContactDirectory W}.

Definition find_emails (domain : string) (job_titles : option (list string))
    (w : W) : list Contact.t * W :=
  if negb (Py.truthy_str api_key) then ([], w)
  else
    match domain_search domain w with
    | (Hunter.Answered status body, w) =>
        if (status =? 200)%Z then
          match _parse_hunter_contacts body job_titles with
          | Py.Ok contacts => (contacts, w)
          | Py.Raise _ => ([], w)
          end
        else ([], w)
    | (Hunter.Failed, w) => ([], w)
    end.

(** The body of the loop of [enrich_companies_with_contacts] on one record;
    the pause between calls is not modelled. *)
Definition resolve_contacts (company : Company.t) (w : W) : Company.t * W :=
  let domain := default (Py.VStr "") (Company.domain company) in
  if negb (Py.truthy_value domain)
     || negb (Py.isinstance_str domain)
     || negb (match domain with
              | Py.VStr d => Py.endswith d ".com"
              | _ => false
              end)
  then (company, w)
  else
    let job_titles :=
      ["CTO"; "VP Engineering"; "Chief Data Officer"; "Head of Data"] in
    let (contacts, w) :=
      find_emails (match domain with Py.VStr d => d | _ => "" end)
                  (Some job_titles) w in
    match contacts with
    | _ :: _ => (Company.set_contacts company contacts, w)
    | [] => (company, w)
    end.

Fixpoint enrich_companies_with_contacts (companies : list Company.t) (w : W)
  : list Company.t * W :=
  match companies with
  | [] => ([], w)
  | company :: rest =>
      let (company, w) := resolve_contacts company w in
      let (rest, w) := enrich_companies_with_contacts rest w in
      (company :: rest, w)
  end.

End WithDirectory.
End HunterClient.

(* ===================================================================== *)
(** * Agent driver (src/agent.py) *)
(* ===================================================================== *)

(** The job-listing search ([SerpApiClient.search_companies]): it answers
    with a list of candidate records and never raises. *)
Class CompanyFinder (W : Type) := {
  search_companies : string -> option IcpSignals.t -> W -> list Company.t * W
}.

Module ProspectSearchAgent.

(** [icp_config.get("geography", ["USA"])[0]]: indexing an empty list
    raises. *)
Definition _generate_serpapi_filters (icp_config : ICP.t)
  : Py.result (string * option IcpSignals.t) :=
  match default ["USA"] (ICP.geography icp_config) with
  | [] => Py.Raise Py.IndexError
  | geography :: _ => Py.Ok (geography, ICP.signals icp_config)
  end.

Section WithWorld.
Context {W G : Type} `{CompanyFinder W} `{ContactDirectory W}
        `{RandomSource G} `{FuzzyMatcher}.

(** The [try] block; an exception leaves it with [Raise]. *)
Definition pipeline (icp_config : ICP.t) (w : W) (g : G)
  : Py.result (list Company.t) * W * G :=
  match _generate_serpapi_filters icp_config with
  | Py.Raise e => (Py.Raise e, w, g)
  | Py.Ok (location, signals) =>
      let (companies, w) := search_companies location signals w in
      match companies with
      | [] => (Py.Ok [], w, g)
      | _ =>
          let (companies, g) :=
            SmartCompanyEnricher.enrich_companies_batch companies g in
          let (companies, w) :=
            HunterClient.enrich_companies_with_contacts companies w in
          match Deduplicator.deduplicate_companies companies with
          | Py.Raise e => (Py.Raise e, w, g)
          | Py.Ok companies =>
              match ConfidenceScorer.calculate_confidence companies
                                                          icp_config with
              | Py.Raise e => (Py.Raise e, w, g)
              | Py.Ok companies =>
                  let companies :=
                    Py.sorted_reverse Company.confidence companies in
                  (Py.Ok companies, w, g)
              end
          end
      end
  end.

(** [except Exception: return []] *)
Definition search_prospects (icp_config : ICP.t) (w : W) (g : G)
  : list Company.t * W * G :=
  match pipeline icp_config w g with
  | (Py.Ok companies, w, g) => (companies, w, g)
  | (Py.Raise _, w, g) => ([], w, g)
  end.

End WithWorld.
End ProspectSearchAgent.

(* ===================================================================== *)
(** * Specification vocabulary *)
(* ===================================================================== *)

(** The properties below are stated with the following notions, written
    after the specification's wording and compared with the code. *)

Module Spec.

(** Descending order of a key. *)
Definition desc {A} (key : A -> Q) (a b : A) : Prop := (key b <= key a)%Q.

(** The elements of [l] whose key equals [q], in the order of [l]. *)
Definition key_class {A} (key : A -> Q) (q : Q) (l : list A) : list A :=
  List.filter (fun a => Qeq_bool (key a) q) l.

(** The documented weighted sum of the four sub-scores, the employee
    score being [employee_score]. *)
Definition weighted_sum (company : Company.t) (icp : ICP.t)
    (employee_score : Q) : Q :=
  (0.4 * ConfidenceScorer._calculate_industry_match company icp
   + 0.3 * ConfidenceScorer._calculate_funding_score company icp
   + 0.2 * ConfidenceScorer._calculate_hiring_score company icp
   + 0.1 * employee_score)%Q.

(** The record [company] with its confidence set to its score. *)
Definition scored (icp : ICP.t) (company s : Company.t) : Prop :=
  exists q, ConfidenceScorer.score company icp = Py.Ok q /\
            s = Company.set_confidence company q.

(** The contact [c] of the incoming record survives a merge into a record
    whose contacts are [kept]: its email is missing or empty, or no contact
    of [kept] carries that email. *)
Definition email_is_new (kept : list Contact.t) (c : Contact.t) : bool :=
  match Contact.email c with
  | None => true
  | Some e =>
      String.eqb e "" ||
      negb (existsb (fun a =>
                       match Contact.email a with
                       | Some e' => String.eqb e' e
                       | None => false
                       end) kept)
  end.

(** First-seen scalar wins unless it is falsy and the incoming one is not. *)
Definition first_non_falsy {A} (truthy : option A -> bool)
    (mine theirs : option A) : option A :=
  if truthy mine then mine else if truthy theirs then theirs else mine.

(** What the matching steps of the deduplicator read of a kept entry: its
    key and its name. *)
Definition skeleton (d : list (string * Company.t)) : list (string * string) :=
  map (fun kv => (fst kv, Company.company_name (snd kv))) d.

(** [_find_similar_company] on a skeleton. *)
Fixpoint find_similar_name `{FuzzyMatcher}
    (name : string) (sk : list (string * string)) : option string :=
  match sk with
  | [] => None
  | (key, existing) :: rest =>
      if (Deduplicator.similarity_threshold
            <=? fuzz_ratio (Py.lower name) (Py.lower existing))%Z
      then Some key else find_similar_name name rest
  end.

(** Every entry was inserted as new: when it arrived, the fuzzy search over
    the entries before it sent it to the insertion branch. *)
Fixpoint inserted_fresh `{FuzzyMatcher}
    (before rest : list (string * string)) : Prop :=
  match rest with
  | [] => True
  | (key, name) :: rest' =>
      Py.truthy_str (find_similar_name name before) = false /\
      inserted_fresh (before ++ [(key, name)]) rest'
  end.

(** The invariant of [unique_companies]: distinct keys, every record stored
    under its own key, every record inserted as new. *)
Record kept `{FuzzyMatcher} (d : list (string * Company.t)) : Prop := {
  kept_nodup : NoDup (map fst d);
  kept_keys :
    Forall (fun kv => Deduplicator._get_company_key (snd kv) = Py.Ok (fst kv)) d;
  kept_fresh : inserted_fresh [] (skeleton d)
}.

(** The job title the estimator reads. *)
Definition job_title_of (company : Company.t) : string :=
  Py.lower
    (default ""
       (Signals.job_title (default Signals.empty (Company.signals company)))).

(** What the estimator leaves alone on a record [c] that leaves as [c']:
    the identity, contact, signal and provenance fields always; a populated
    employee count, revenue or funding stage; an industry other than the
    generic default.  The tech stack is re-derived from the job title
    whenever there is one, and the record is marked. *)
Record estimated (c c' : Company.t) : Prop := {
  est_company_name : Company.company_name c' = Company.company_name c;
  est_domain : Company.domain c' = Company.domain c;
  est_location : Company.location c' = Company.location c;
  est_contacts : Company.contacts c' = Company.contacts c;
  est_signals : Company.signals c' = Company.signals c;
  est_source : Company.source c' = Company.source c;
  est_confidence : Company.confidence c' = Company.confidence c;
  est_employee_count :
    Py.truthy_int (Company.employee_count c) = true ->
    Company.employee_count c' = Company.employee_count c;
  est_revenue :
    Py.truthy_num (Company.revenue c) = true ->
    Company.revenue c' = Company.revenue c;
  est_funding_stage :
    Py.truthy_str (Company.funding_stage c) = true ->
    Company.funding_stage c' = Company.funding_stage c;
  est_industry :
    Py.truthy_str (Company.industry c) = true ->
    Company.industry c <> Some "Technology" ->
    Company.industry c' = Company.industry c;
  est_tech_stack :
    Company.tech_stack c' =
      if String.eqb (job_title_of c) ""
      then Company.tech_stack c
      else Some (SmartCompanyEnricher._infer_tech_stack (job_title_of c));
  est_smart_enriched : Company.smart_enriched c' = Some true
}.

(** The fixed list of titles the resolver asks for. *)
Definition target_titles : list string :=
  ["CTO"; "VP Engineering"; "Chief Data Officer"; "Head of Data"].

(** The position text of an entry, empty when the key is missing. *)
Definition position_text (e : Hunter.email_data) : string :=
  default "" (HunterClient.get (Hunter.position e) "").

(** The entry's position contains one of the titles, ignoring case. *)
Definition position_matches (titles : list string) (e : Hunter.email_data)
  : bool :=
  existsb (fun title =>
             Py.contains (Py.lower title) (Py.lower (position_text e)))
          titles.

(** The entry carries a non-empty email. *)
Definition has_email (e : Hunter.email_data) : bool :=
  Py.truthy_str (HunterClient.get (Hunter.value e) "").

(** The transform: the name is the trimmed "first last", the confidence
    the raw integer divided by 100, and the contact is marked verified. *)
Definition transform (e : Hunter.email_data) : Contact.t :=
  Contact.mk
    (Py.strip (HunterClient.render (Hunter.first_name e) +:+ " "
               +:+ HunterClient.render (Hunter.last_name e)))
    (position_text e)
    (HunterClient.get (Hunter.value e) "")
    (HunterClient.get (Hunter.linkedin e) "")
    (Some (inject_Z (default 0%Z (HunterClient.get (Hunter.confidence e) 0%Z))
           / 100)%Q)
    (Some true).

(** Filter, transform, truncate. *)
Definition resolved (titles : list string) (entries : list Hunter.email_data)
  : list Contact.t :=
  firstn 5
    (map transform
       (List.filter (fun e => position_matches titles e && has_email e)
                    entries)).

(** An entry the parser can read: its position is not [null], and its
    confidence is not [null] and fits a double. *)
Definition well_formed (e : Hunter.email_data) : bool :=
  match Hunter.position e with
  | Hunter.Null => false
  | _ => true
  end
  && match HunterClient.rescale (Hunter.confidence e) with
     | Py.Ok _ => true
     | Py.Raise _ => false
     end.

(** The entries of a reply in which neither [data] nor [emails] is
    [null]. *)
Definition entries_of (response : Hunter.response)
  : option (list Hunter.email_data) :=
  match HunterClient.get (Hunter.data response)
                         (Hunter.mk_payload Hunter.Missing) with
  | None => None
  | Some payload => HunterClient.get (Hunter.emails payload) []
  end.

(** What the resolver may do to a record: nothing, or replace its contacts
    by a non-empty list. *)
Definition resolved_record (c c' : Company.t) : Prop :=
  c' = c \/
  exists contacts, contacts <> [] /\ c' = Company.set_contacts c contacts.

End Spec.

(* ===================================================================== *)
(** * Sample records and a closed world for the examples *)
(* ===================================================================== *)

Module Sample.

Definition contact (name email : string) : Contact.t :=
  Contact.mk name "CTO" (Some email) (Some "linkedin.com/in/x")
             (Some 0.0%Q) None.

(** The signals of a freshly extracted record. *)
Definition hiring (job_title : string) : Signals.t :=
  Signals.mk (Some true) (Some false) (Some 0.0%Q) None (Some job_title)
             (Some "Recently") (Some false).

(** A record as the job-listing search builds it: revenue [0.0] and an
    empty funding stage stand for "unknown". *)
Definition company (name domain industry job_title : string)
    (employee_count : Z) (contacts : list Contact.t) : Company.t :=
  Company.mk name (Some (Py.VStr domain)) (Some 0.0%Q) (Some industry)
             (Some employee_count) (Some "United States") (Some "") None
             contacts (Some (hiring job_title)) ["Google Search Jobs"]
             0.0%Q None.

Definition with_tech_stack (c : Company.t) (stack : list string) : Company.t :=
  Company.mk (Company.company_name c) (Company.domain c) (Company.revenue c)
             (Company.industry c) (Company.employee_count c)
             (Company.location c) (Company.funding_stage c) (Some stack)
             (Company.contacts c) (Company.signals c) (Company.source c)
             (Company.confidence c) (Company.smart_enriched c).

Definition with_signals (c : Company.t) (s : option Signals.t) : Company.t :=
  Company.mk (Company.company_name c) (Company.domain c) (Company.revenue c)
             (Company.industry c) (Company.employee_count c)
             (Company.location c) (Company.funding_stage c)
             (Company.tech_stack c) (Company.contacts c) s (Company.source c)
             (Company.confidence c) (Company.smart_enriched c).

Definition with_domain (c : Company.t) (d : option Py.value) : Company.t :=
  Company.mk (Company.company_name c) d (Company.revenue c)
             (Company.industry c) (Company.employee_count c)
             (Company.location c) (Company.funding_stage c)
             (Company.tech_stack c) (Company.contacts c) (Company.signals c)
             (Company.source c) (Company.confidence c)
             (Company.smart_enriched c).

Definition acme : Company.t :=
  company "Acme Corp" "acmecorp.com" "Technology" "Data Engineer" 1200
          [contact "Alex Smith" "alex.smith@acmecorp.com"].

Definition acme_again : Company.t :=
  company "Acme" "acme.com" "Software & Technology" "Data Scientist" 1200
          [contact "Taylor Brown" "taylor.brown@acme.com"].

Definition globex : Company.t :=
  company "Globex" "globex.io" "FinTech" "Software Engineer" 90
          [contact "Jordan Davis" "jordan.davis@globex.com"].

(** Two records with five contacts each, all emails distinct. *)
Definition five (tag : string) : list Contact.t :=
  map (fun n => contact n (n +:+ "@" +:+ tag))
      ["a"; "b"; "c"; "d"; "e"].

Definition crowded_left : Company.t :=
  company "Initech" "initech.com" "Software" "Developer" 300
          (five "initech.com").

Definition crowded_right : Company.t :=
  company "Initech" "initech.com" "Software" "Developer" 300
          (five "initech.org").

(** Three records that score 0.5, 0.8 and 0.5 against [icp]. *)
Definition funded (amount : Q) (recent_hiring : bool) : Signals.t :=
  Signals.mk (Some recent_hiring) (Some true) (Some amount) None
             (Some "Analyst") None None.

Definition icp : ICP.t :=
  ICP.mk None None (Some ["fintech"]) (Some ["USA"]) (Some 100%Z) None None
         (Some (IcpSignals.mk (Some true) (Some true) None)).

Definition first_half : Company.t :=
  with_signals (company "Hooli" "hooli.com" "FinTech" "" 500 []) None.

Definition four_fifths : Company.t :=
  with_signals (company "Pied Piper" "piedpiper.com" "FinTech" "" 500 [])
               (Some (funded 60000000%Q false)).

Definition second_half : Company.t :=
  Company.mk "Aviato" (Some (Py.VStr "aviato.com")) None (Some "Retail") None
             None None None [] (Some (funded 60000000%Q true)) [] 0.0%Q None.

(** A toy similarity: equal names score 100, a name that extends the other
    scores 90, anything else 0. *)
Definition prefix_matcher : FuzzyMatcher :=
  {| fuzz_ratio a b :=
       if String.eqb a b then 100%Z
       else if String.prefix a b || String.prefix b a then 90%Z
       else 0%Z |}.

(** A generator that counts its draws. *)
Definition counting_random : RandomSource Z :=
  {| randint a b g := ((a + g mod (b - a + 1))%Z, (g + 1)%Z);
     random g := (Qmake (g mod 10) 10, (g + 1)%Z);
     randbelow n g := (Z.to_nat (g mod Z.of_nat n), (g + 1)%Z) |}.

(** A directory that answers every lookup with the same nine entries. *)
Definition entry (first last position email : string) (confidence : Z)
  : Hunter.email_data :=
  Hunter.mk_email_data (Hunter.Val position) (Hunter.Val first)
                       (Hunter.Val last) (Hunter.Val email)
                       Hunter.Missing (Hunter.Val confidence).

Definition entries : list Hunter.email_data :=
  [ entry "Ada" "Lovelace" "CTO" "ada@acme.com" 97;
    entry "Bob" "Stone" "Office Manager" "bob@acme.com" 90;
    entry " Cy" "" "Deputy cto, EMEA" "cy@acme.com" 80;
    entry "Di" "Ng" "VP Engineering" "" 75;
    entry "Ed" "Poe" "Head of Data Platform" "ed@acme.com" 70;
    entry "Flo" "Rida" "vp engineering" "flo@acme.com" 65;
    entry "Gus" "Hall" "Chief Data Officer" "gus@acme.com" 60;
    entry "Hal" "Nine" "Interim CTO" "hal@acme.com" 55;
    entry "Ivy" "Lee" "Head of Data" "ivy@acme.com" 50 ].

Definition reply_with (entries : list Hunter.email_data) : Hunter.response :=
  Hunter.mk_response (Hunter.Val (Hunter.mk_payload (Hunter.Val entries))).

Definition reply : Hunter.response := reply_with entries.

(** A reply whose second entry has a [null] position, as the directory
    sends for a person whose position it does not know. *)
Definition unknown_position : Hunter.email_data :=
  Hunter.mk_email_data Hunter.Null (Hunter.Val "Bob") (Hunter.Val "Stone")
                       (Hunter.Val "bob@acme.com") Hunter.Missing
                       (Hunter.Val 90%Z).

Definition reply_with_null : Hunter.response :=
  reply_with [ entry "Ada" "Lovelace" "CTO" "ada@acme.com" 97;
               unknown_position ].

Definition canned_directory : ContactDirectory unit :=
  {| api_key := Some "key";
     domain_search _ w := (Hunter.Answered 200 reply, w) |}.

(** A directory that finds nobody. *)
Definition silent_directory : ContactDirectory unit :=
  {| api_key := Some "key";
     domain_search _ w :=
       (Hunter.Answered 200 (Hunter.mk_response Hunter.Missing), w) |}.

(** A directory whose reply holds a [null] position. *)
Definition null_directory : ContactDirectory unit :=
  {| api_key := Some "key";
     domain_search _ w := (Hunter.Answered 200 reply_with_null, w) |}.

Definition canned_finder : CompanyFinder unit :=
  {| search_companies _ _ w := ([acme; acme_again; globex], w) |}.

End Sample.

(* ===================================================================== *)
(** * The scorer on IEEE binary64 *)
(* ===================================================================== *)

(** The scorer's arithmetic replayed on doubles, to compare with the
    rational model on every combination of values the four sub-scores can
    take. *)
Module Binary64.

(** The exact value of a finite double. *)
Definition exact (x : float) : option Q := Py.float_exact x.

(** A small integer as a double (exact below 2^53). *)
Definition of_Z (n : Z) : float :=
  if (n <? 0)%Z then PrimFloat.opp (PrimFloat.of_uint63 (Uint63.of_Z (- n)))
  else PrimFloat.of_uint63 (Uint63.of_Z n).

(** [round(x, 2)] on doubles: the exact value is rounded to two decimals,
    ties to even, and the decimal is read back as the nearest double, which
    is the correctly rounded quotient of two exactly representable
    integers. *)
Definition round2 (x : float) : float :=
  match exact x with
  | Some q => PrimFloat.div (of_Z (Py.round_half_even (q * 100)%Q)) (of_Z 100)
  | None => x
  end.

(** The loop body of [calculate_confidence] on doubles. *)
Definition score
    (industry_score funding_score hiring_score employee_score : float)
  : float :=
  let score := 0.0%float in
  let score := (score + industry_score * 0.4)%float in
  let score := (score + funding_score * 0.3)%float in
  let score := (score + hiring_score * 0.2)%float in
  let score := (score + employee_score * 0.1)%float in
  round2 score.

(** The double nearest to a decimal fraction. *)
Definition nearest (q : Q) : float :=
  PrimFloat.div (of_Z (Qnum q)) (of_Z (Z.pos (Qden q))).

(** The values each sub-score can take: the rational of the model beside
    the double of the source literal. *)
Definition industry_values : list (Q * float) :=
  [(0.0%Q, 0.0%float); (0.5%Q, 0.5%float); (1.0%Q, 1.0%float)].
Definition funding_values : list (Q * float) :=
  [(0.0%Q, 0.0%float); (0.3%Q, 0.3%float); (0.6%Q, 0.6%float);
   (0.8%Q, 0.8%float); (1.0%Q, 1.0%float)].
Definition hiring_values : list (Q * float) :=
  [(0.0%Q, 0.0%float); (1.0%Q, 1.0%float)].
Definition employee_values : list (Q * float) :=
  [(0.0%Q, 0.0%float); (0.2%Q, 0.2%float); (0.5%Q, 0.5%float);
   (1.0%Q, 1.0%float)].

(** The rational model of the same loop body. *)
Definition model (i f h e : Q) : Q :=
  Py.round (0.0 + i * 0.4 + f * 0.3 + h * 0.2 + e * 0.1)%Q 2.

(** On one combination: the double the code stores is the double nearest
    to the model's value, and it lies between 0 and 1. *)
Definition agree (i f h e : Q * float) : bool :=
  let stored := score (snd i) (snd f) (snd h) (snd e) in
  PrimFloat.eqb stored (nearest (model (fst i) (fst f) (fst h) (fst e)))
  && PrimFloat.leb 0 stored && PrimFloat.leb stored 1.

Definition all_agree : bool :=
  forallb (fun i => forallb (fun f => forallb (fun h => forallb (fun e =>
    agree i f h e) employee_values) hiring_values) funding_values)
    industry_values.

(** The least integer [n] with [int_ge n t]. *)
Definition least_passing (t : float) : option Z :=
  match exact t with
  | Some q => Some (Qceiling q)
  | None => None
  end.

(** For the minimum [m], the two rounded products of the code and the two
    exact products [0.8 * m] and [0.5 * m] let the same integers pass. *)
Definition thresholds_agree (m : Z) : bool :=
  match Py.int_times_float m 0.8, Py.int_times_float m 0.5 with
  | Py.Ok close, Py.Ok partial =>
      match least_passing close, least_passing partial with
      | Some a, Some b =>
          (a =? Qceiling (inject_Z m * 0.8)%Q)%Z
          && (b =? Qceiling (inject_Z m * 0.5)%Q)%Z
      | _, _ => false
      end
  | _, _ => false
  end.

(** [p] holds on the [2^depth] integers from [lo] on. *)
Fixpoint all_from (p : Z -> bool) (lo : Z) (depth : nat) : bool :=
  match depth with
  | O => p lo
  | S d => all_from p lo d && all_from p (lo + 2 ^ Z.of_nat d) d
  end.

End Binary64.

(* ===================================================================== *)
(** * More Python strings *)
(* ===================================================================== *)

Module PyText.

(** [c.isdigit()] and [c.isalnum()] on one ASCII character. *)
Definition is_digit (a : ascii) : bool :=
  let n := nat_of_ascii a in Nat.leb 48 n && Nat.leb n 57.

Definition isalnum (a : ascii) : bool := Py.is_alpha a || is_digit a.

(** [''.join(e for e in s if p(e))] *)
Fixpoint keep (p : ascii -> bool) (s : string) : string :=
  match s with
  | EmptyString => EmptyString
  | String a s' => if p a then String a (keep p s') else keep p s'
  end.

(** [s.replace(old, new)]: the occurrences of [old] are replaced from left
    to right without overlap.  [skip] counts the characters of a replaced
    occurrence still to drop. *)
Fixpoint replace_go (old new : string) (skip : nat) (s : string) : string :=
  match s with
  | EmptyString => EmptyString
  | String a s' =>
      match skip with
      | S k => replace_go old new k s'
      | O =>
          if String.prefix old s
          then new +:+ replace_go old new (String.length old - 1) s'
          else String a (replace_go old new 0 s')
      end
  end.

(** With an empty [old], [new] goes before every character and at the
    end. *)
Fixpoint intersperse (new s : string) : string :=
  match s with
  | EmptyString => new
  | String a s' => new +:+ String a (intersperse new s')
  end.

Definition replace (old new s : string) : string :=
  if String.eqb old EmptyString then intersperse new s
  else replace_go old new 0 s.

End PyText.

(* ===================================================================== *)
(** * Entity Extractor (src/api_clients/serpapi_client.py) *)
(* ===================================================================== *)

(** One organic result of the search, and the JSON document around them. *)
Module SearchResult.
Record t := mk {
  title : option string;
  link : option string;
  snippet : option string
}.
Record response := mk_response { organic_results : option (list t) }.
End SearchResult.

(** The three extractors written with regular expressions
    ([_extract_company_name], [_extract_job_title], [_extract_location])
    are not modelled; the record builder is verified for whatever they
    return. *)
Class ResultPatterns := {
  _extract_company_name : string -> string -> string -> string;
  _extract_job_title : string -> string;
  _extract_location : string -> string
}.

Module SerpApiClient.

Definition any_in (patterns : list string) (text : string) : bool :=
  Py.any (fun word => Py.contains word text) patterns.

Definition _infer_industry (company_name job_title : string) : string :=
  let company_lower := Py.lower company_name in
  let job_lower := Py.lower job_title in
  if any_in ["bank"; "finance"; "capital"; "payments"; "credit"] company_lower
  then "FinTech"
  else if any_in ["health"; "medical"; "care"; "pharma"; "bio"] company_lower
  then "Healthcare"
  else if any_in ["soft"; "tech"; "cloud"; "data"; "ai"; "io"] company_lower
  then "Software & Technology"
  else if any_in ["media"; "entertainment"; "streaming"; "content"]
                 company_lower
  then "Media & Entertainment"
  else if any_in ["data"; "scientist"; "analyst"; "analytics"] job_lower
  then "Data & Analytics"
  else if any_in ["ai"; "machine learning"; "ml"] job_lower
  then "Artificial Intelligence"
  else "Technology".

Definition known_companies : list (string * Z) :=
  [ ("google", 150000); ("microsoft", 220000); ("amazon", 1500000);
    ("netflix", 12000); ("salesforce", 70000); ("ibm", 350000);
    ("oracle", 140000); ("intel", 120000); ("hubspot", 7000);
    ("slack", 2000); ("zoom", 7000); ("stripe", 8000);
    ("airbnb", 6000); ("uber", 32000); ("lyft", 4500) ]%Z.

(** The first entry, in declaration order, whose name occurs in the
    company name. *)
Fixpoint known_employees (table : list (string * Z)) (company_lower : string)
  : option Z :=
  match table with
  | [] => None
  | (company, employees) :: rest =>
      if Py.contains company company_lower then Some employees
      else known_employees rest company_lower
  end.

(** The domain made up from a company name.  [lower] and [isalnum] are
    those of ASCII text: a letter or digit above 127, which Python would
    lower-case and keep, is outside what this definition describes. *)
Definition _get_domain_from_company_name (company_name : string) : string :=
  let clean_name := Py.lower company_name in
  let suffixes :=
    [" inc"; " corp"; " corporation"; " llc"; " ltd"; " limited";
     " company"; " co"] in
  let clean_name :=
    fold_left (fun clean_name suffix => PyText.replace suffix "" clean_name)
              suffixes clean_name in
  let clean_name := Py.strip clean_name in
  let clean_name :=
    PyText.replace "&" "and"
      (PyText.replace "," "" (PyText.replace " " "" clean_name)) in
  let clean_name := PyText.keep PyText.isalnum clean_name in
  clean_name +:+ ".com".

Definition title_mapping : list (string * list string) :=
  [ ("data", ["Chief Data Officer"; "Head of Data"; "VP of Data"]);
    ("engineer", ["CTO"; "VP Engineering"; "Technical Director"]);
    ("analyst", ["Head of Analytics"; "Chief Data Officer"]);
    ("scientist", ["Head of Data Science"; "Chief AI Officer"]);
    ("machine learning", ["Head of ML"; "Chief AI Officer"]) ].

Definition default_titles : list string :=
  ["CTO"; "VP Engineering"; "Head of Technology"].

(** The loop with [break] over [title_mapping.items()]. *)
Fixpoint relevant_titles (items : list (string * list string))
    (job_lower : string) : list string :=
  match items with
  | [] => default_titles
  | (keyword, titles) :: rest =>
      if Py.contains keyword job_lower then titles
      else relevant_titles rest job_lower
  end.

Section WithRandom.
Context {G : Type} `{RandomSource G}.

Definition _estimate_employee_count (company_name : string) (g : G) : Z * G :=
  let company_lower := Py.lower company_name in
  match known_employees known_companies company_lower with
  | Some employees => (employees, g)
  | None =>
      if any_in ["corp"; "corporation"; "inc"; "global"] company_lower
      then randint 1000 50000 g
      else if any_in ["llc"; "ltd"; "limited"] company_lower
      then randint 50 500 g
      else randint 10 1000 g
  end.

(** One iteration of [for title in relevant_titles[:1]]. *)
Definition contact_step (company_name : string)
    (acc : list Contact.t * G) (title : string) : list Contact.t * G :=
  let (contacts, g) := acc in
  let first_names := ["Alex"; "Taylor"; "Jordan"; "Morgan"; "Casey"] in
  let last_names := ["Smith"; "Johnson"; "Brown"; "Davis"; "Wilson"] in
  let (first, g) := SmartCompanyEnricher.choice first_names g in
  let (last, g) := SmartCompanyEnricher.choice last_names g in
  let domain := _get_domain_from_company_name company_name in
  (contacts ++
     [Contact.mk (first +:+ " " +:+ last) title
        (Some (Py.lower first +:+ "." +:+ Py.lower last +:+ "@" +:+ domain))
        (Some ("linkedin.com/in/" +:+ Py.lower first +:+ Py.lower last))
        (Some 0.0%Q) None],
   g).

Definition _generate_contacts (company_name job_title : string) (g : G)
  : list Contact.t * G :=
  let titles := relevant_titles title_mapping (Py.lower job_title) in
  fold_left (contact_step company_name) (firstn 1 titles) ([], g).

Context `{ResultPatterns}.

(** [None] stands for the empty dictionary returned when no company name
    is found.  The dictionary literal evaluates its values in order: the
    employee count draws before the contacts do. *)
Definition _extract_company_from_result (result : SearchResult.t) (g : G)
  : option Company.t * G :=
  let title := default "" (SearchResult.title result) in
  let link := default "" (SearchResult.link result) in
  let snippet := default "" (SearchResult.snippet result) in
  let company_name := _extract_company_name title snippet link in
  if String.eqb company_name "" then (None, g)
  else
    let job_title := _extract_job_title title in
    let location := _extract_location snippet in
    let (employee_count, g) := _estimate_employee_count company_name g in
    let (contacts, g) := _generate_contacts company_name job_title g in
    (Some
       (Company.mk
          company_name
          (Some (Py.VStr (_get_domain_from_company_name company_name)))
          (Some 0.0%Q)
          (Some (_infer_industry company_name job_title))
          (Some employee_count)
          (Some (if String.eqb location "" then "United States" else location))
          (Some "")
          None
          contacts
          (Some (Signals.mk (Some true) (Some false) (Some 0.0%Q) None
                            (Some job_title) (Some "Recently")
                            (Some (Py.contains "remote" (Py.lower title)
                                   || Py.contains "remote" (Py.lower snippet)))))
          ["Google Search Jobs"]
          0.0%Q
          None),
     g).

(** The first loop of [_parse_google_results]. *)
Fixpoint extract_all (organic_results : list SearchResult.t) (g : G)
  : list Company.t * G :=
  match organic_results with
  | [] => ([], g)
  | result :: rest =>
      let (company, g) := _extract_company_from_result result g in
      let (companies, g) := extract_all rest g in
      (match company with
       | Some company =>
           if negb (String.eqb (Company.company_name company) "")
           then company :: companies else companies
       | None => companies
       end, g)
  end.

(** One iteration of the second loop: [seen] and [unique_companies]. *)
Definition unique_step (acc : gset string * list Company.t)
    (company : Company.t) : gset string * list Company.t :=
  let (seen, unique_companies) := acc in
  let name := Company.company_name company in
  if bool_decide (name ∉ seen)
  then ({[name]} ∪ seen, unique_companies ++ [company])
  else (seen, unique_companies).

Definition _parse_google_results (data : SearchResult.response) (g : G)
  : list Company.t * G :=
  match SearchResult.organic_results data with
  | None => ([], g)
  | Some organic_results =>
      let (companies, g) := extract_all organic_results g in
      (snd (fold_left unique_step companies (∅, [])), g)
  end.

End WithRandom.
End SerpApiClient.

(* ===================================================================== *)
(** * Agent driver: the summary (src/agent.py) *)
(* ===================================================================== *)

Module AgentReport.

(** The lists under the ['source'] keys live in a store, addressed by
    numbers: the summary appends to the list a record holds, and two
    records may hold the same list. *)
Abbreviation store := (gmap nat (list string)).

(** A prospect as the summary reads it: its fields, and the address of
    the list under its ['source'] key ([None] when the key is missing,
    where [prospect.get('source', [])] is a fresh list).  The [source]
    field of [fields] is not read here. *)
Record prospect := mk_prospect {
  fields : Company.t;
  source_at : option nat
}.

(** The numbers [display_summary] prints. *)
Record counts := mk_counts {
  total : nat;
  high_confidence : nat;
  medium_confidence : nat;
  low_confidence : nat;
  smart_enriched : nat;
  hunter_contacts : nat;
  hiring_companies : nat
}.

Definition is_high (p : Company.t) : bool := Py.ge (Company.confidence p) 0.7.
Definition is_medium (p : Company.t) : bool :=
  Py.ge (Company.confidence p) 0.4 && Py.gt 0.7 (Company.confidence p).
Definition is_low (p : Company.t) : bool := Py.gt 0.4 (Company.confidence p).

Definition is_smart_enriched (p : Company.t) : bool :=
  Py.truthy_bool (Company.smart_enriched p).

Definition has_hunter_contact (p : Company.t) : bool :=
  Py.any (fun c => Py.truthy_bool (Contact.hunter_verified c))
         (Company.contacts p).

Definition is_hiring (p : Company.t) : bool :=
  Py.truthy_bool (Company.signals p ≫= Signals.recent_hiring).

Definition count (p : Company.t -> bool) (prospects : list prospect) : nat :=
  length (List.filter (fun x => p (fields x)) prospects).

(** One iteration of the loop over [prospects[:5]].  [prospect['industry']]
    and [prospect['location']] raise when the key is missing, before the
    sources are touched; [sources.append] changes the stored list. *)
Definition show_prospect (prospect : prospect) (sigma : store)
  : Py.result store :=
  match Company.industry (fields prospect),
        Company.location (fields prospect) with
  | Some _, Some _ =>
      Py.Ok
        (if Py.truthy_bool (Company.smart_enriched (fields prospect)) then
           match source_at prospect with
           | Some l =>
               alter (fun sources => sources ++ ["Smart Analysis"]) l sigma
           | None => sigma
           end
         else sigma)
  | _, _ => Py.Raise Py.KeyError
  end.

(** The loop: an exception ends it and leaves the store as it is then. *)
Fixpoint show_top (prospects : list prospect) (sigma : store)
  : option Py.exn * store :=
  match prospects with
  | [] => (None, sigma)
  | prospect :: rest =>
      match show_prospect prospect sigma with
      | Py.Ok sigma => show_top rest sigma
      | Py.Raise e => (Some e, sigma)
      end
  end.

(** The printed numbers ([None] for "No prospects found"), the exception
    that ended the call, if any, and the store as the call leaves it. *)
Definition display_summary (prospects : list prospect) (sigma : store)
  : option counts * option Py.exn * store :=
  match prospects with
  | [] => (None, None, sigma)
  | _ =>
      let printed :=
        mk_counts
          (length prospects)
          (count is_high prospects)
          (count is_medium prospects)
          (count is_low prospects)
          (count is_smart_enriched prospects)
          (count has_hunter_contact prospects)
          (count is_hiring prospects) in
      let (raised, sigma) := show_top (firstn 5 prospects) sigma in
      (Some printed, raised, sigma)
  end.

End AgentReport.

(* ===================================================================== *)
(** * Vocabulary of the further properties *)
(* ===================================================================== *)

Module Laws.

(** The contract of Python's [random]: [randint(a, b)] lies in [a..b] and
    the index drawn by [choice] lies in the sequence. *)
Definition lawful {G : Type} `{RandomSource G} : Prop :=
  (forall a b g, (a <= b)%Z -> (a <= fst (randint a b g) <= b)%Z) /\
  (forall n g, 0 < n -> fst (randbelow n g) < n).

(** The technologies [_infer_tech_stack] looks for, in the order of its
    checks. *)
Definition known_technologies : list string :=
  ["Python"; "Java"; "JavaScript"; "SQL"; "R"; "AWS"; "Azure"; "GCP";
   "Snowflake"; "Databricks"; "Apache Spark"; "Containers"].

(** The non-empty emails of the contacts of a list of records. *)
Definition emails_of (companies : list Company.t) : list string :=
  concat
    (map (fun c =>
            omap (fun contact =>
                    if Py.truthy_str (Contact.email contact)
                    then Contact.email contact else None)
                 (Company.contacts c))
         companies).

(** The provenance tags of a list of records. *)
Definition sources_of (companies : list Company.t) : list string :=
  concat (map Company.source companies).

(** The deduplication key of a record whose key computation returns. *)
Definition key_of (c : Company.t) : string :=
  match Deduplicator._get_company_key c with
  | Py.Ok k => k
  | Py.Raise _ => ""
  end.

(** [s.isascii()]: every character is below 128.  On such text
    [str.lower], [str.strip], [str.replace] and [str.isalnum] are the
    operations of [Py] and [PyText]. *)
Definition ascii_text (s : string) : Prop :=
  Forall (fun a => nat_of_ascii a < 128) (list_ascii_of_string s).

(** Every character is one of a-z and 0-9. *)
Definition lower_alnum (s : string) : Prop :=
  Forall (fun a => PyText.isalnum a = true /\ Py.is_upper a = false)
         (list_ascii_of_string s).

(** A record as [_extract_company_from_result] builds it, seen from the
    later stages. *)
Record extracted (c : Company.t) : Prop := {
  ex_name : Company.company_name c <> "";
  ex_domain :
    exists d, Company.domain c = Some (Py.VStr d) /\
              Py.endswith d ".com" = true;
  ex_revenue : Company.revenue c = Some 0.0%Q;
  ex_employee_count : Py.truthy_int (Company.employee_count c) = true;
  ex_funding_stage : Company.funding_stage c = Some "";
  ex_contacts : length (Company.contacts c) = 1;
  ex_hiring :
    Company.signals c ≫= Signals.recent_hiring = Some true;
  ex_source : Company.source c = ["Google Search Jobs"]
}.

(** What every contact built from a directory entry and kept has. *)
Definition real_contact (c : Contact.t) : Prop :=
  Py.truthy_str (Contact.email c) = true /\
  Contact.hunter_verified c = Some true.

(** What the resolver stage may do to one record: every field but
    [contacts] stays, and the contacts stay or become one to five real
    contacts. *)
Definition resolved_by_stage (c c' : Company.t) : Prop :=
  Company.set_contacts c' (Company.contacts c) = c /\
  (Company.contacts c' = Company.contacts c \/
   (1 <= length (Company.contacts c') <= 5 /\
    Forall real_contact (Company.contacts c'))).

(** A prospect that carries the enrichment mark and the name, domain and
    location of one of the records found. *)
Definition traced (found : list Company.t) (p : Company.t) : Prop :=
  Company.smart_enriched p = Some true /\
  exists c, In c found /\
    Company.company_name p = Company.company_name c /\
    Company.domain p = Company.domain c /\
    Company.location p = Company.location c.

(** The words [_infer_industry] looks for in the company name. *)
Definition company_keywords : list string :=
  ["bank"; "finance"; "capital"; "payments"; "credit";
   "health"; "medical"; "care"; "pharma"; "bio";
   "soft"; "tech"; "cloud"; "data"; "ai"; "io";
   "media"; "entertainment"; "streaming"; "content"].

(** The prospects the summary's loop gets through: those before the first
    one that lacks an industry or a location. *)
Fixpoint shown (prospects : list AgentReport.prospect)
  : list AgentReport.prospect :=
  match prospects with
  | [] => []
  | p :: rest =>
      match Company.industry (AgentReport.fields p),
            Company.location (AgentReport.fields p) with
      | Some _, Some _ => p :: shown rest
      | _, _ => []
      end
  end.

(** How many of the prospects are marked as enriched and hold the source
    list at address [l]. *)
Definition appends (l : nat) (prospects : list AgentReport.prospect) : nat :=
  length
    (List.filter
       (fun p =>
          Py.truthy_bool (Company.smart_enriched (AgentReport.fields p))
          && bool_decide (AgentReport.source_at p = Some l))
       prospects).

End Laws.

(* ===================================================================== *)
(** * A sample search response *)
(* ===================================================================== *)

Module Listing.

(** A stand-in for the pattern matching: the snippet is the company name
    and the title the job title. *)
Definition patterns : ResultPatterns :=
  {| _extract_company_name title snippet link := snippet;
     _extract_job_title title := title;
     _extract_location snippet := "" |}.

Definition result (title company : string) : SearchResult.t :=
  SearchResult.mk (Some title) None (Some company).

(** Four results: two for the same company, one without a company. *)
Definition page : SearchResult.response :=
  SearchResult.mk_response
    (Some [ result "Data Engineer" "Initech";
            result "Analyst (remote)" "Hooli Bank";
            SearchResult.mk (Some "Careers") None None;
            result "ML Engineer" "Initech" ]).

(** Three prospects for the summary; the first two hold the same source
    list. *)
Definition enriched (c : Company.t) : Company.t :=
  Company.mk (Company.company_name c) (Company.domain c) (Company.revenue c)
             (Company.industry c) (Company.employee_count c)
             (Company.location c) (Company.funding_stage c)
             (Company.tech_stack c) (Company.contacts c) (Company.signals c)
             (Company.source c) (Company.confidence c) (Some true).

Definition prospects : list AgentReport.prospect :=
  [ AgentReport.mk_prospect (enriched Sample.acme) (Some 0);
    AgentReport.mk_prospect (enriched Sample.acme_again) (Some 0);
    AgentReport.mk_prospect Sample.globex (Some 1) ].

Definition sources : AgentReport.store :=
  {[ 0 := ["Google Search Jobs"]; 1 := ["Google Search Jobs"] ]}.

End Listing.

(* ===================================================================== *)
(** * Properties *)
(* ===================================================================== *)

(** ** Python values *)

Example lower_ex : Py.lower "VP Engineering" = "vp engineering".
Proof. reflexivity. Qed.

Example strip_ex : Py.strip "  Acme Corp " = "Acme Corp".
Proof. reflexivity. Qed.

Example split_ex :
  Py.split " data  and analytics " = ["data"; "and"; "analytics"].
Proof. reflexivity. Qed.

Example contains_ex : Py.contains "cto" "deputy cto, emea" = true.
Proof. reflexivity. Qed.

Example endswith_ex :
  Py.endswith "acme.com" ".com" = true /\ Py.endswith "acme.io" ".com" = false.
Proof. split; reflexivity. Qed.

Example title_ex : Py.title (Py.replace_char "_" " " "ai_ml") = "Ai Ml".
Proof. reflexivity. Qed.

Example round_ex :
  Py.round 0.125 2 = (12 # 100) /\ Py.round 0.135 2 = (14 # 100) /\
  Py.round 0.7 2 = (70 # 100).
Proof. repeat split; reflexivity. Qed.

Section PyRound.
Local Open Scope Q_scope.

Lemma round_half_even_proper (x y : Q) :
  x == y -> Py.round_half_even x = Py.round_half_even y.
Proof.
  intros E. unfold Py.round_half_even.
  rewrite (Qfloor_comp _ _ E).
  assert (C : (x - inject_Z (Qfloor y) ?= 1 # 2)
              = (y - inject_Z (Qfloor y) ?= 1 # 2)).
  { apply Qcompare_comp; [rewrite E|]; reflexivity. }
  rewrite C. reflexivity.
Qed.

Lemma round_proper (x y : Q) (n : nat) : x == y -> Py.round x n = Py.round y n.
Proof.
  intros E. unfold Py.round. f_equal.
  apply round_half_even_proper. rewrite E. reflexivity.
Qed.

Lemma round_half_even_bounds (a b : Z) (x : Q) :
  inject_Z a <= x -> x <= inject_Z b ->
  (a <= Py.round_half_even x <= b)%Z.
Proof.
  intros Ha Hb.
  assert (Fa : (a <= Qfloor x)%Z).
  { rewrite <- (Qfloor_Z a). apply Qfloor_resp_le, Ha. }
  assert (Fb : (Qfloor x <= b)%Z).
  { rewrite <- (Qfloor_Z b). apply Qfloor_resp_le, Hb. }
  assert (Fx : inject_Z (Qfloor x) <= x) by apply Qfloor_le.
  unfold Py.round_half_even.
  destruct (Z.eq_dec (Qfloor x) b) as [E | Hne].
  - assert (L : (x - inject_Z (Qfloor x) ?= 1 # 2) = Lt).
    { apply (proj1 (Qlt_alt _ _)). rewrite E.
      generalize dependent (inject_Z b). intros q **. lra. }
    rewrite L. lia.
  - destruct (x - inject_Z (Qfloor x) ?= 1 # 2); [destruct (Z.even _)| |]; lia.
Qed.

Lemma round2_unit_interval (x : Q) :
  0 <= x -> x <= 1 -> 0 <= Py.round x 2 /\ Py.round x 2 <= 1.
Proof.
  intros H0 H1. unfold Py.round.
  change (Pos.pow 10 (Pos.of_nat 2)) with 100%positive.
  destruct (round_half_even_bounds 0 100 (x * inject_Z 100)) as [L U].
  - change (inject_Z 0) with 0. change (inject_Z 100) with (100 # 1). lra.
  - change (inject_Z 100) with (100 # 1). lra.
  - unfold Qle. cbn. lia.
Qed.

Lemma gt_true (a b : Q) : Py.gt a b = true <-> b < a.
Proof.
  unfold Py.gt. rewrite negb_true_iff, <- not_true_iff_false, Qle_bool_iff.
  split; [apply Qnot_le_lt | apply Qlt_not_le].
Qed.

Lemma gt_false (a b : Q) : Py.gt a b = false <-> a <= b.
Proof. unfold Py.gt. rewrite negb_false_iff. apply Qle_bool_iff. Qed.

Lemma ge_true (a b : Q) : Py.ge a b = true <-> b <= a.
Proof. apply Qle_bool_iff. Qed.

Lemma ge_false (a b : Q) : Py.ge a b = false <-> a < b.
Proof.
  unfold Py.ge. rewrite <- not_true_iff_false, Qle_bool_iff.
  split; [apply Qnot_le_lt | apply Qlt_not_le].
Qed.
End PyRound.

(** ** [sorted(..., reverse=True)] *)

Section Sorting.
Context {A : Type} (key : A -> Q).

Local Abbreviation desc := (Spec.desc key).
Local Abbreviation key_class := (Spec.key_class key).

Lemma insert_desc_perm (x : A) (l : list A) :
  Permutation (x :: l) (Py.insert_desc key x l).
Proof.
  induction l as [|y l IH]; cbn; [reflexivity|].
  destruct (Py.gt (key y) (key x)); [|reflexivity].
  rewrite perm_swap. apply perm_skip, IH.
Qed.

Lemma sorted_reverse_perm (l : list A) :
  Permutation l (Py.sorted_reverse key l).
Proof.
  induction l as [|x l IH]; cbn; [reflexivity|].
  rewrite <- insert_desc_perm. apply perm_skip, IH.
Qed.

Lemma insert_desc_sorted (x : A) (l : list A) :
  StronglySorted desc l -> StronglySorted desc (Py.insert_desc key x l).
Proof.
  induction 1 as [|y l Hl IH Hy]; cbn.
  - repeat constructor.
  - destruct (Py.gt (key y) (key x)) eqn:G.
    + constructor; [exact IH|].
      apply (Permutation_Forall (insert_desc_perm x l)).
      constructor; [|exact Hy].
      apply gt_true in G. apply Qlt_le_weak, G.
    + apply gt_false in G.
      constructor; [constructor; assumption|].
      constructor; [exact G|].
      eapply Forall_impl; [exact Hy|].
      intros z Hz. unfold Spec.desc in *. eapply Qle_trans; eassumption.
Qed.

Lemma sorted_reverse_sorted (l : list A) :
  StronglySorted desc (Py.sorted_reverse key l).
Proof.
  induction l as [|x l IH]; cbn; [constructor|].
  apply insert_desc_sorted, IH.
Qed.

(** Insertion never moves an element past one with an equal key. *)
Lemma insert_desc_class (q : Q) (x : A) (l : list A) :
  key_class q (Py.insert_desc key x l) = key_class q (x :: l).
Proof.
  induction l as [|y l IH]; [reflexivity|].
  cbn [Py.insert_desc].
  destruct (Py.gt (key y) (key x)) eqn:G; [|reflexivity].
  unfold Spec.key_class in *. cbn [List.filter] in *. rewrite IH.
  destruct (Qeq_bool (key y) q) eqn:Ey, (Qeq_bool (key x) q) eqn:Ex;
    try reflexivity.
  apply Qeq_bool_iff in Ey, Ex. apply gt_true in G.
  rewrite Ey, Ex in G. exfalso. exact (Qlt_irrefl _ G).
Qed.

Lemma sorted_reverse_class (q : Q) (l : list A) :
  key_class q (Py.sorted_reverse key l) = key_class q l.
Proof.
  induction l as [|x l IH]; [reflexivity|].
  cbn [Py.sorted_reverse foldr].
  change (foldr (Py.insert_desc key) [] l) with (Py.sorted_reverse key l).
  rewrite insert_desc_class. unfold Spec.key_class in *. cbn [List.filter].
  rewrite IH. reflexivity.
Qed.

(** Sorting a descending list changes nothing. *)
Lemma sorted_reverse_fixpoint (l : list A) :
  StronglySorted desc l -> Py.sorted_reverse key l = l.
Proof.
  induction 1 as [|x l Hl IH Hx]; [reflexivity|].
  cbn [Py.sorted_reverse foldr].
  change (foldr (Py.insert_desc key) [] l) with (Py.sorted_reverse key l).
  rewrite IH. destruct l as [|y l]; [reflexivity|].
  cbn [Py.insert_desc]. inversion Hx as [|? ? Hy _]; subst.
  apply gt_false in Hy. rewrite Hy. reflexivity.
Qed.

Lemma key_class_head (x : A) (l : list A) :
  key_class (key x) (x :: l) = x :: key_class (key x) l.
Proof.
  unfold Spec.key_class. cbn [List.filter].
  rewrite (proj2 (Qeq_bool_iff _ _) (Qeq_refl _)). reflexivity.
Qed.

Lemma key_class_In (q : Q) (x : A) (l : list A) :
  In x (key_class q l) -> In x l.
Proof. unfold Spec.key_class. intros I. apply filter_In in I. tauto. Qed.

(** A stable descending sort has one possible output: two descending
    lists with the same classes of equal keys are equal.  So the insertion
    sort of the model and the library's sort are the same function. *)
Lemma stable_sort_unique (l1 l2 : list A) :
  StronglySorted desc l1 -> StronglySorted desc l2 ->
  (forall q, key_class q l1 = key_class q l2) ->
  l1 = l2.
Proof.
  intros S1. revert l2.
  induction S1 as [|x l1 S1 IH Hx]; intros l2 S2 C.
  - destruct l2 as [|y l2]; [reflexivity|].
    specialize (C (key y)). rewrite key_class_head in C. discriminate.
  - destruct S2 as [|y l2 S2 Hy].
    + specialize (C (key x)). rewrite key_class_head in C. discriminate.
    + assert (E : x = y).
      { pose proof (C (key x)) as Cx. pose proof (C (key y)) as Cy.
        rewrite key_class_head in Cx, Cy.
        unfold Spec.key_class in Cx at 2. unfold Spec.key_class in Cy at 1.
        cbn [List.filter] in Cx, Cy.
        destruct (Qeq_bool (key y) (key x)) eqn:Eyx.
        - injection Cx as Cx _. exact Cx.
        - destruct (Qeq_bool (key x) (key y)) eqn:Exy.
          + injection Cy as Cy _. exact Cy.
          + exfalso.
            assert (Ix : In x l2).
            { eapply key_class_In. fold (key_class (key x) l2) in Cx.
              rewrite <- Cx. left. reflexivity. }
            assert (Iy : In y l1).
            { eapply key_class_In. fold (key_class (key y) l1) in Cy.
              rewrite Cy. left. reflexivity. }
            rewrite List.Forall_forall in Hx, Hy.
            specialize (Hx y Iy). specialize (Hy x Ix). unfold Spec.desc in *.
            apply not_true_iff_false in Exy. apply Exy, Qeq_bool_iff.
            apply Qle_antisym; assumption. }
      subst y. f_equal. apply IH; [exact S2|].
      intros q. specialize (C q). unfold Spec.key_class in *.
      cbn [List.filter] in C. destruct (Qeq_bool (key x) q); congruence.
Qed.
End Sorting.

(** ** Confidence Scorer *)

Section Scorer.
Import ConfidenceScorer.
Local Open Scope Q_scope.

Ltac split_ifs :=
  repeat match goal with
  | |- context [if ?b then _ else _] => destruct b
  end.

Lemma industry_match_values company icp :
  let s := _calculate_industry_match company icp in
  s = 0.0 \/ s = 0.5 \/ s = 1.0.
Proof.
  cbv zeta. unfold _calculate_industry_match.
  destruct (default [] (ICP.industry icp)); [auto|].
  split_ifs; auto.
Qed.

Lemma funding_score_values company icp :
  let s := _calculate_funding_score company icp in
  s = 0.0 \/ s = 0.3 \/ s = 0.6 \/ s = 0.8 \/ s = 1.0.
Proof. cbv zeta. unfold _calculate_funding_score. split_ifs; auto 6. Qed.

Lemma hiring_score_values company icp :
  let s := _calculate_hiring_score company icp in
  s = 0.0 \/ s = 1.0.
Proof. cbv zeta. unfold _calculate_hiring_score. split_ifs; auto. Qed.

(** The conversion of an int raises nothing but [OverflowError]. *)
Lemma float_of_int_raises (n : Z) (e : Py.exn) :
  Py.float_of_int n = Py.Raise e -> e = Py.OverflowError.
Proof.
  unfold Py.float_of_int. destruct (is_infinity _); [|discriminate].
  intros [= <-]. reflexivity.
Qed.

Lemma int_times_float_raises (n : Z) (x : float) (e : Py.exn) :
  Py.int_times_float n x = Py.Raise e ->
  Py.float_of_int n = Py.Raise Py.OverflowError /\ e = Py.OverflowError.
Proof.
  unfold Py.int_times_float.
  destruct (Py.float_of_int n) as [y|e'] eqn:F; cbn; [discriminate|].
  intros [= <-]. pose proof (float_of_int_raises n e' F) as ->. auto.
Qed.

Lemma int_times_float_overflow (n : Z) (x : float) :
  Py.float_of_int n = Py.Raise Py.OverflowError ->
  Py.int_times_float n x = Py.Raise Py.OverflowError.
Proof. unfold Py.int_times_float. intros ->. reflexivity. Qed.

(** An int that passes a threshold lets every larger int pass. *)
Lemma int_ge_float_mono (n n' : Z) (t : float) :
  (n <= n')%Z -> Py.int_ge_float n t = true -> Py.int_ge_float n' t = true.
Proof.
  intros Hle. unfold Py.int_ge_float.
  destruct (Py.float_exact t) as [q|]; [|auto].
  rewrite !Qle_bool_iff. intros Hq. rewrite Zle_Qle in Hle.
  eapply Qle_trans; eassumption.
Qed.

Ltac bind_step := cbn [mbind result_bind Py.bind].

Lemma employee_score_values company icp q :
  _calculate_employee_score company icp = Py.Ok q ->
  q = 0.0 \/ q = 0.2 \/ q = 0.5 \/ q = 1.0.
Proof.
  unfold _calculate_employee_score.
  destruct (ICP.employee_count_min icp) as [m|],
           (Company.employee_count company) as [n|];
    try (intros [= <-]; auto).
  destruct (_ || _); [intros [= <-]; auto|].
  destruct (Py.ge _ _); [intros [= <-]; auto 6|].
  destruct (Py.int_times_float m 0.8) as [close|e]; bind_step; [|discriminate].
  destruct (Py.int_ge_float n close); [intros [= <-]; auto 6|].
  destruct (Py.int_times_float m 0.5) as [partial|e]; bind_step;
    [|discriminate].
  destruct (Py.int_ge_float n partial); intros [= <-]; auto 6.
Qed.

(** The employee score raises only when the minimum of the ICP is too
    large for a double. *)
Lemma employee_score_raises company icp e :
  _calculate_employee_score company icp = Py.Raise e ->
  e = Py.OverflowError /\
  exists m, ICP.employee_count_min icp = Some m /\
            Py.float_of_int m = Py.Raise Py.OverflowError.
Proof.
  unfold _calculate_employee_score.
  destruct (ICP.employee_count_min icp) as [m|],
           (Company.employee_count company) as [n|]; try discriminate.
  destruct (_ || _); [discriminate|].
  destruct (Py.ge _ _); [discriminate|].
  destruct (Py.int_times_float m 0.8) as [close|e8] eqn:E8; bind_step.
  - destruct (Py.int_ge_float n close); [discriminate|].
    destruct (Py.int_times_float m 0.5) as [partial|e5] eqn:E5; bind_step.
    + destruct (Py.int_ge_float n partial); discriminate.
    + intros [= <-]. apply int_times_float_raises in E5 as [F ->]. eauto.
  - intros [= <-]. apply int_times_float_raises in E8 as [F ->]. eauto.
Qed.

Ltac unit_interval H :=
  cbv zeta in H; decompose [or] H; clear H;
  match goal with E : _ = _ |- _ => rewrite E end;
  split; unfold Qle; cbn; lia.

Lemma industry_match_unit company icp :
  0 <= _calculate_industry_match company icp <= 1.
Proof. pose proof (industry_match_values company icp) as H. unit_interval H. Qed.

Lemma funding_score_unit company icp :
  0 <= _calculate_funding_score company icp <= 1.
Proof. pose proof (funding_score_values company icp) as H. unit_interval H. Qed.

Lemma hiring_score_unit company icp :
  0 <= _calculate_hiring_score company icp <= 1.
Proof. pose proof (hiring_score_values company icp) as H. unit_interval H. Qed.

Lemma employee_score_unit company icp q :
  _calculate_employee_score company icp = Py.Ok q -> 0 <= q <= 1.
Proof.
  intros E. pose proof (employee_score_values company icp q E) as H.
  decompose [or] H; subst q; split; unfold Qle; cbn; lia.
Qed.

(** The accumulation in the loop is the documented weighted sum. *)
Lemma score_weighted_sum company icp :
  score company icp =
    employee_score ← _calculate_employee_score company icp;
    Py.Ok (Py.round (Spec.weighted_sum company icp employee_score) 2).
Proof.
  unfold score, Spec.weighted_sum.
  destruct (_calculate_employee_score company icp) as [e|x]; bind_step;
    [|reflexivity].
  f_equal. apply round_proper. ring.
Qed.

Lemma weighted_sum_unit company icp employee_score :
  0 <= employee_score <= 1 ->
  0 <= Spec.weighted_sum company icp employee_score <= 1.
Proof.
  intros He. unfold Spec.weighted_sum.
  pose proof (industry_match_unit company icp).
  pose proof (funding_score_unit company icp).
  pose proof (hiring_score_unit company icp).
  split; lra.
Qed.

Lemma score_Ok company icp q :
  score company icp = Py.Ok q ->
  exists employee_score,
    _calculate_employee_score company icp = Py.Ok employee_score /\
    q = Py.round (Spec.weighted_sum company icp employee_score) 2.
Proof.
  rewrite score_weighted_sum.
  destruct (_calculate_employee_score company icp) as [e|x]; bind_step;
    [|discriminate].
  intros [= <-]. eauto.
Qed.

Lemma score_Raise company icp e :
  score company icp = Py.Raise e ->
  _calculate_employee_score company icp = Py.Raise e.
Proof.
  rewrite score_weighted_sum.
  destruct (_calculate_employee_score company icp) as [q|x]; bind_step;
    [discriminate|].
  intros [= <-]. reflexivity.
Qed.

Lemma score_unit company icp q :
  score company icp = Py.Ok q -> 0 <= q <= 1.
Proof.
  intros E. apply score_Ok in E as (e & Ee & ->).
  destruct (weighted_sum_unit company icp e (employee_score_unit _ _ _ Ee)).
  apply round2_unit_interval; assumption.
Qed.

(** The loop scores every record, in order, or raises what the first
    failing record raises. *)
Lemma score_each_scored companies icp out :
  score_each companies icp = Py.Ok out ->
  Forall2 (Spec.scored icp) companies out.
Proof.
  revert out. induction companies as [|c cs IH]; intros out; cbn [score_each].
  - intros [= <-]. constructor.
  - destruct (score c icp) as [q|e] eqn:S; bind_step; [|discriminate].
    destruct (score_each cs icp) as [rest|e]; bind_step; [|discriminate].
    intros [= <-]. constructor; [exists q; auto | apply IH; reflexivity].
Qed.

Lemma score_each_Raise companies icp e :
  score_each companies icp = Py.Raise e ->
  Exists (fun company => score company icp = Py.Raise e) companies.
Proof.
  induction companies as [|c cs IH]; cbn [score_each]; [discriminate|].
  destruct (score c icp) as [q|x] eqn:S; bind_step.
  - destruct (score_each cs icp) as [rest|x]; bind_step; [discriminate|].
    intros [= <-]. right. apply IH. reflexivity.
  - intros [= <-]. left. exact S.
Qed.

Lemma calculate_confidence_Ok companies icp ranked :
  calculate_confidence companies icp = Py.Ok ranked ->
  exists scored,
    Forall2 (Spec.scored icp) companies scored /\
    ranked = Py.sorted_reverse Company.confidence scored.
Proof.
  unfold calculate_confidence.
  destruct (score_each companies icp) as [scored|e] eqn:S; bind_step;
    [|discriminate].
  intros [= <-]. exists scored. split; [apply score_each_scored, S | reflexivity].
Qed.

Lemma calculate_confidence_Raise companies icp e :
  calculate_confidence companies icp = Py.Raise e ->
  Exists (fun company => score company icp = Py.Raise e) companies.
Proof.
  unfold calculate_confidence.
  destruct (score_each companies icp) as [scored|x] eqn:S; bind_step;
    [discriminate|].
  intros [= <-]. apply score_each_Raise, S.
Qed.


Example confidence_ex :
  (ranked ← calculate_confidence [Sample.acme; Sample.globex] Sample.icp;
   Py.Ok (map (fun c => (Company.company_name c, Company.confidence c))
              ranked))
  = Py.Ok [("Globex", 65 # 100); ("Acme Corp", 30 # 100)].
Proof. vm_compute. reflexivity. Qed.


(** The scenario of the specification: confidences 0.5, 0.8, 0.5 in input
    order come out as 0.8, then the first 0.5, then the second. *)
Example scorer_stability_scenario :
  map (fun c => score c Sample.icp)
      [Sample.first_half; Sample.four_fifths; Sample.second_half]
  = [Py.Ok (50 # 100); Py.Ok (80 # 100); Py.Ok (50 # 100)] /\
  (ranked ← calculate_confidence
              [Sample.first_half; Sample.four_fifths; Sample.second_half]
              Sample.icp;
   Py.Ok (map Company.company_name ranked))
  = Py.Ok ["Pied Piper"; "Hooli"; "Aviato"].
Proof. split; vm_compute; reflexivity. Qed.

(** *** The thresholds of the employee score *)

Lemma all_from_spec (p : Z -> bool) (depth : nat) :
  forall lo, Binary64.all_from p lo depth = true ->
  forall m, (lo <= m < lo + 2 ^ Z.of_nat depth)%Z -> p m = true.
Proof.
  induction depth as [|d IH]; cbn [Binary64.all_from]; intros lo Hk m Hm.
  - replace m with lo by (cbn in Hm; lia). exact Hk.
  - apply andb_true_iff in Hk as [Hl Hr].
    rewrite Nat2Z.inj_succ, Z.pow_succ_r in Hm by lia.
    destruct (Z_lt_le_dec m (lo + 2 ^ Z.of_nat d)) as [Lt|Ge].
    + apply (IH lo Hl). lia.
    + apply (IH _ Hr). lia.
Qed.

Lemma Qle_bool_ceiling (q : Q) (n : Z) :
  Qle_bool q (inject_Z n) = (Qceiling q <=? n)%Z.
Proof.
  apply eq_true_iff_eq. rewrite Qle_bool_iff, Z.leb_le. split.
  - intros Hq. rewrite <- (Qceiling_Z n). apply Qceiling_resp_le, Hq.
  - intros Hc. eapply Qle_trans; [apply Qle_ceiling|].
    rewrite <- Zle_Qle. exact Hc.
Qed.

Lemma thresholds_checked :
  Binary64.all_from Binary64.thresholds_agree 1 14 = true.
Proof. vm_compute. reflexivity. Qed.

(** For every minimum from 1 to 16384 the two products of
    [_calculate_employee_score] are computed, and for every integer count
    the comparisons against the rounded doubles decide as the comparisons
    against the exact products do. *)
Lemma binary64_thresholds (m : Z) :
  (1 <= m <= 16384)%Z ->
  exists close partial,
    Py.int_times_float m 0.8 = Py.Ok close /\
    Py.int_times_float m 0.5 = Py.Ok partial /\
    forall n : Z,
      Py.int_ge_float n close = Py.ge (inject_Z n) (inject_Z m * 0.8) /\
      Py.int_ge_float n partial = Py.ge (inject_Z n) (inject_Z m * 0.5).
Proof.
  intros Hm.
  pose proof (all_from_spec _ _ _ thresholds_checked m) as C.
  change (2 ^ Z.of_nat 14)%Z with 16384%Z in C.
  specialize (C ltac:(lia)).
  unfold Binary64.thresholds_agree, Binary64.least_passing, Binary64.exact in C.
  destruct (Py.int_times_float m 0.8) as [close|]; [|discriminate].
  destruct (Py.int_times_float m 0.5) as [partial|]; [|discriminate].
  exists close, partial. split; [reflexivity|]. split; [reflexivity|].
  intros n. unfold Py.int_ge_float, Py.ge.
  destruct (Py.float_exact close) as [q8|]; [|discriminate].
  destruct (Py.float_exact partial) as [q5|]; [|discriminate].
  apply andb_true_iff in C as [C8 C5]. apply Z.eqb_eq in C8, C5.
  rewrite !Qle_bool_ceiling, C8, C5. split; reflexivity.
Qed.

Ltac ge_cases :=
  repeat match goal with
  | |- context [Py.ge ?a ?b] =>
      let G := fresh "G" in
      destruct (Py.ge a b) eqn:G;
      [apply ge_true in G | apply ge_false in G]
  end.

(** With a non-zero minimum and a non-zero count the guard is passed, and
    the score is decided by the three comparisons. *)
Lemma employee_score_cases company icp (m n : Z) (close partial : float) :
  ICP.employee_count_min icp = Some m ->
  Company.employee_count company = Some n ->
  m <> 0%Z -> n <> 0%Z ->
  Py.int_times_float m 0.8 = Py.Ok close ->
  Py.int_times_float m 0.5 = Py.Ok partial ->
  _calculate_employee_score company icp =
    Py.Ok (if Py.ge (inject_Z n) (inject_Z m) then 1.0
           else if Py.int_ge_float n close then 0.5
           else if Py.int_ge_float n partial then 0.2
           else 0.0).
Proof.
  intros Hm Hn Mz Nz E8 E5. unfold _calculate_employee_score.
  rewrite Hm, Hn. unfold Py.truthy_int.
  apply Z.eqb_neq in Mz, Nz. rewrite Mz, Nz. cbn [negb orb].
  destruct (Py.ge (inject_Z n) (inject_Z m)); [reflexivity|].
  rewrite E8. bind_step. destruct (Py.int_ge_float n close); [reflexivity|].
  rewrite E5. bind_step. destruct (Py.int_ge_float n partial); reflexivity.
Qed.

(** A zero count scores nothing. *)
Lemma employee_score_zero_count company icp :
  Company.employee_count company = Some 0%Z ->
  _calculate_employee_score company icp = Py.Ok 0.0.
Proof.
  intros Hn. unfold _calculate_employee_score. rewrite Hn.
  destruct (ICP.employee_count_min icp) as [m|]; [|reflexivity].
  cbn. rewrite orb_true_r. reflexivity.
Qed.

(** For a minimum from 1 to 16384 the score is decided by the exact
    products. *)
Lemma employee_score_small_min company icp (m n : Z) :
  ICP.employee_count_min icp = Some m ->
  Company.employee_count company = Some n ->
  (1 <= m <= 16384)%Z ->
  _calculate_employee_score company icp =
    Py.Ok (if Py.ge (inject_Z n) (inject_Z m) then 1.0
           else if Py.ge (inject_Z n) (inject_Z m * 0.8) then 0.5
           else if Py.ge (inject_Z n) (inject_Z m * 0.5) then 0.2
           else 0.0).
Proof.
  intros Hm Hn Bm.
  destruct (binary64_thresholds m Bm) as (close & partial & E8 & E5 & Same).
  destruct (Same n) as [S8 S5].
  destruct (Z.eq_dec n 0%Z) as [->|Nz].
  - rewrite (employee_score_zero_count company icp Hn).
    assert (P : inject_Z 0 < inject_Z m) by (rewrite <- Zlt_Qlt; lia).
    change (inject_Z 0) with 0 in *.
    generalize dependent (inject_Z m). intros q _ _ P.
    ge_cases; try reflexivity; lra.
  - rewrite (employee_score_cases company icp m n close partial Hm Hn
               ltac:(lia) Nz E8 E5).
    rewrite S8, S5. reflexivity.
Qed.

(** C9, as the code has it.  The employee score is 0 when the ICP has no
    (or a zero) minimum or the company has no (or a zero) head count.  For
    a positive minimum [m] whose products [m * 0.8] and [m * 0.5] are the
    doubles [close] and [partial], and a non-zero count [n], it is 1.0 when
    [n >= m], 0.5 when [close <= n < m], 0.2 when [partial <= n] and [n] is
    below [m] and [close], and 0 below; it does not decrease when a
    non-negative count grows.  For a minimum up to 16384 the doubles
    decide as the exact products do: the score is 0.5 when
    [0.8*m <= n < m], 0.2 when [0.5*m <= n < 0.8*m], 0 below, and it does
    not decrease when the count grows.  A minimum too large for a double
    makes the score of a non-zero count below it raise. *)
Theorem employee_score_buckets
    (company company' : Company.t) (icp : ICP.t) :
  let s := fun c => _calculate_employee_score c icp in
  (Py.truthy_int (ICP.employee_count_min icp) = false \/
   Py.truthy_int (Company.employee_count company) = false ->
   s company = Py.Ok 0.0) /\
  (forall (m n : Z) (close partial : float),
     ICP.employee_count_min icp = Some m -> (0 < m)%Z ->
     Company.employee_count company = Some n ->
     Py.int_times_float m 0.8 = Py.Ok close ->
     Py.int_times_float m 0.5 = Py.Ok partial ->
     ((m <= n)%Z -> s company = Py.Ok 1.0) /\
     (n <> 0%Z -> (n < m)%Z -> Py.int_ge_float n close = true ->
      s company = Py.Ok 0.5) /\
     (n <> 0%Z -> (n < m)%Z -> Py.int_ge_float n close = false ->
      Py.int_ge_float n partial = true -> s company = Py.Ok 0.2) /\
     (n <> 0%Z -> (n < m)%Z -> Py.int_ge_float n close = false ->
      Py.int_ge_float n partial = false -> s company = Py.Ok 0.0) /\
     (forall n' : Z,
        Company.employee_count company' = Some n' -> (0 <= n <= n')%Z ->
        exists q q', s company = Py.Ok q /\ s company' = Py.Ok q' /\
                     q <= q')) /\
  (forall m n : Z,
     ICP.employee_count_min icp = Some m -> (1 <= m <= 16384)%Z ->
     Company.employee_count company = Some n ->
     (inject_Z m <= inject_Z n -> s company = Py.Ok 1.0) /\
     (0.8 * inject_Z m <= inject_Z n < inject_Z m ->
      s company = Py.Ok 0.5) /\
     (0.5 * inject_Z m <= inject_Z n < 0.8 * inject_Z m ->
      s company = Py.Ok 0.2) /\
     (inject_Z n < 0.5 * inject_Z m -> s company = Py.Ok 0.0) /\
     (forall n' : Z,
        Company.employee_count company' = Some n' -> (n <= n')%Z ->
        exists q q', s company = Py.Ok q /\ s company' = Py.Ok q' /\
                     q <= q')) /\
  (forall m n : Z,
     ICP.employee_count_min icp = Some m ->
     Company.employee_count company = Some n ->
     Py.float_of_int m = Py.Raise Py.OverflowError ->
     n <> 0%Z -> (n < m)%Z ->
     s company = Py.Raise Py.OverflowError).
Proof.
  cbv zeta. split; [|split; [|split]].
  - unfold _calculate_employee_score, Py.truthy_int.
    destruct (ICP.employee_count_min icp) as [m|],
             (Company.employee_count company) as [n|]; try reflexivity.
    intros [E | E]; rewrite E; cbn [negb orb]; try reflexivity.
    destruct (negb (m =? 0)%Z); reflexivity.
  - intros m n close partial Hm Hpos Hn E8 E5.
    assert (Cases : forall c k, Company.employee_count c = Some k ->
              k <> 0%Z ->
              _calculate_employee_score c icp =
                Py.Ok (if Py.ge (inject_Z k) (inject_Z m) then 1.0
                       else if Py.int_ge_float k close then 0.5
                       else if Py.int_ge_float k partial then 0.2
                       else 0.0)).
    { intros c k Hk Kz.
      apply (employee_score_cases c icp m k close partial Hm Hk ltac:(lia) Kz
               E8 E5). }
    assert (Ge : forall k, (m <= k)%Z ->
                   Py.ge (inject_Z k) (inject_Z m) = true).
    { intros k Hk. apply Qle_bool_iff. rewrite <- Zle_Qle. exact Hk. }
    assert (Lt : forall k, (k < m)%Z ->
                   Py.ge (inject_Z k) (inject_Z m) = false).
    { intros k Hk. destruct (Py.ge _ _) eqn:G; [|reflexivity].
      apply Qle_bool_iff in G. rewrite <- Zle_Qle in G. lia. }
    split; [|split; [|split; [|split]]].
    + intros Hle. rewrite (Cases company n Hn ltac:(lia)), (Ge n Hle).
      reflexivity.
    + intros Nz Hlt C8. rewrite (Cases company n Hn Nz), (Lt n Hlt), C8.
      reflexivity.
    + intros Nz Hlt C8 C5.
      rewrite (Cases company n Hn Nz), (Lt n Hlt), C8, C5. reflexivity.
    + intros Nz Hlt C8 C5.
      rewrite (Cases company n Hn Nz), (Lt n Hlt), C8, C5. reflexivity.
    + intros n' Hn' [Hn0 Hle].
      destruct (Z.eq_dec n 0%Z) as [->|Nz].
      * rewrite (employee_score_zero_count company icp Hn).
        destruct (_calculate_employee_score company' icp) as [q'|e] eqn:S'.
        -- exists 0.0, q'. split; [reflexivity|]. split; [reflexivity|].
           pose proof (proj1 (employee_score_unit _ _ _ S')) as L.
           unfold Qle in *. cbn in *. lia.
        -- exfalso. destruct (Z.eq_dec n' 0%Z) as [->|Nz'].
           ++ rewrite (employee_score_zero_count company' icp Hn') in S'.
              discriminate.
           ++ rewrite (Cases company' n' Hn' Nz') in S'. discriminate.
      * rewrite (Cases company n Hn Nz), (Cases company' n' Hn' ltac:(lia)).
        eexists _, _. split; [reflexivity|]. split; [reflexivity|].
        destruct (Py.ge (inject_Z n) (inject_Z m)) eqn:G.
        { apply Qle_bool_iff in G. rewrite <- Zle_Qle in G.
          rewrite (Ge n' ltac:(lia)). apply Qle_refl. }
        destruct (Py.int_ge_float n close) eqn:C8.
        { rewrite (int_ge_float_mono n n' close Hle C8).
          destruct (Py.ge (inject_Z n') (inject_Z m));
            unfold Qle; cbn; lia. }
        destruct (Py.int_ge_float n partial) eqn:C5.
        { rewrite (int_ge_float_mono n n' partial Hle C5).
          destruct (Py.ge (inject_Z n') (inject_Z m)),
                   (Py.int_ge_float n' close); unfold Qle; cbn; lia. }
        destruct (Py.ge (inject_Z n') (inject_Z m)),
                 (Py.int_ge_float n' close), (Py.int_ge_float n' partial);
          unfold Qle; cbn; lia.
  - intros m n Hm Bm Hn.
    rewrite (employee_score_small_min company icp m n Hm Hn Bm).
    assert (P : 0 < inject_Z m).
    { change 0 with (inject_Z 0). rewrite <- Zlt_Qlt. lia. }
    split; [|split; [|split; [|split]]].
    1-4: revert P; generalize (inject_Z n) (inject_Z m); intros a b P E;
         ge_cases; try reflexivity; lra.
    intros n' Hn' Hle.
    rewrite (employee_score_small_min company' icp m n' Hm Hn' Bm).
    eexists _, _. split; [reflexivity|]. split; [reflexivity|].
    rewrite Zle_Qle in Hle. revert P Hle.
    generalize (inject_Z n) (inject_Z n') (inject_Z m). intros a a' b P Hle.
    ge_cases; try (unfold Qle; cbn; lia); lra.
  - intros m n Hm Hn Ov Nz Hlt. unfold _calculate_employee_score.
    rewrite Hm, Hn. unfold Py.truthy_int.
    assert (Mz : m <> 0%Z).
    { intros ->. vm_compute in Ov. discriminate. }
    apply Z.eqb_neq in Mz, Nz. rewrite Mz, Nz. cbn [negb orb].
    destruct (Py.ge (inject_Z n) (inject_Z m)) eqn:G.
    { apply Qle_bool_iff in G. rewrite <- Zle_Qle in G. lia. }
    rewrite (int_times_float_overflow m 0.8%float Ov). reflexivity.
Qed.

(** A minimum of 100 and a count of 90: the close-match bucket, and no
    larger than the score of a count of 1200. *)
Lemma employee_score_buckets_witness :
  _calculate_employee_score Sample.globex Sample.icp = Py.Ok 0.5 /\
  exists q q',
    _calculate_employee_score Sample.globex Sample.icp = Py.Ok q /\
    _calculate_employee_score Sample.acme Sample.icp = Py.Ok q' /\
    q <= q'.
Proof.
  pose proof (proj1 (proj2 (proj2
                (employee_score_buckets Sample.globex Sample.acme Sample.icp)))
                100%Z 90%Z eq_refl ltac:(lia) eq_refl)
    as (_ & Close & _ & _ & Mono).
  split.
  - apply Close. split; [unfold Qle | unfold Qlt]; cbn; lia.
  - apply (Mono 1200%Z eq_refl). lia.
Defined.

(** C9 as stated fails: with a minimum of 5629499534213124 the product
    [employee_min * 0.8] is rounded down to 4503599627370499, so that
    count, which is below 0.8 times the minimum, scores 0.5 and not 0.2;
    and with a minimum of [2^1024] the count 1 makes the scorer raise
    where the claim says 0. *)
Lemma employee_score_rounds_threshold :
  let icp m :=
    ICP.mk None None None None (Some m) None None None in
  let company n := Sample.company "Hooli" "hooli.com" "FinTech" "" n [] in
  (0 < 5629499534213124)%Z /\
  0.5 * inject_Z 5629499534213124 <= inject_Z 4503599627370499 /\
  inject_Z 4503599627370499 < 0.8 * inject_Z 5629499534213124 /\
  _calculate_employee_score (company 4503599627370499%Z)
                            (icp 5629499534213124%Z) = Py.Ok 0.5 /\
  _calculate_employee_score (company 4503599627370499%Z)
                            (icp 5629499534213124%Z) <> Py.Ok 0.2 /\
  _calculate_employee_score (company 1%Z) (icp (2 ^ 1024)%Z)
  = Py.Raise Py.OverflowError.
Proof.
  cbv beta zeta.
  assert (E : _calculate_employee_score
                (Sample.company "Hooli" "hooli.com" "FinTech" ""
                                4503599627370499 [])
                (ICP.mk None None None None (Some 5629499534213124%Z)
                        None None None) = Py.Ok 0.5)
    by (vm_compute; reflexivity).
  rewrite E.
  split; [lia|]. split; [unfold Qle; cbn; lia|].
  split; [unfold Qlt; cbn; lia|]. split; [reflexivity|].
  split; [discriminate|]. vm_compute. reflexivity.
Qed.
End Scorer.

(** ** Dictionaries in insertion order *)

Section Dict.
Context {V : Type}.
Implicit Types (d : list (string * V)) (k : string) (v : V).

Lemma dict_get_None k d : Py.dict_get k d = None <-> ~ In k (map fst d).
Proof.
  induction d as [|[k' v'] d IH]; cbn; [tauto|].
  destruct (String.eqb_spec k k') as [->|Hne].
  - split; [discriminate | intros N; exfalso; apply N; auto].
  - rewrite IH. split; [intros N [E|I]; congruence | tauto].
Qed.

(** A new key goes to the end. *)
Lemma dict_set_new k v d :
  Py.dict_get k d = None -> Py.dict_set k v d = d ++ [(k, v)].
Proof.
  induction d as [|[k' v'] d IH]; cbn; [reflexivity|].
  destruct (String.eqb k k'); [discriminate|].
  intros N. rewrite IH by exact N. reflexivity.
Qed.

(** An existing key keeps its position. *)
Lemma dict_set_split k v v0 d :
  Py.dict_get k d = Some v0 ->
  exists d1 d2,
    d = d1 ++ (k, v0) :: d2 /\ Py.dict_set k v d = d1 ++ (k, v) :: d2.
Proof.
  induction d as [|[k' v'] d IH]; cbn; [discriminate|].
  destruct (String.eqb_spec k k') as [->|Hne].
  - intros [= ->]. exists [], d. auto.
  - intros E. destruct (IH E) as (d1 & d2 & -> & ->).
    exists ((k', v') :: d1), d2. auto.
Qed.
End Dict.

(** ** Deduplicator: merging two records *)

Section Merge.
Import Deduplicator.

Lemma append_loop {A} (p : A -> bool) (l acc : list A) :
  fold_left (fun acc x => if p x then acc ++ [x] else acc) l acc
  = acc ++ List.filter p l.
Proof.
  revert acc. induction l as [|x l IH]; intros acc; cbn.
  - rewrite app_nil_r. reflexivity.
  - rewrite IH. destruct (p x); [|reflexivity].
    rewrite <- app_assoc. reflexivity.
Qed.

Lemma elem_of_existing_emails (e : string) (cs : list Contact.t) :
  e ∈ existing_emails cs <->
  e <> "" /\ exists a, In a cs /\ Contact.email a = Some e.
Proof.
  unfold existing_emails. rewrite elem_of_list_to_set, list_elem_of_omap.
  split.
  - intros (a & Ha & E). apply list_elem_of_In in Ha.
    destruct (Contact.email a) as [e'|] eqn:Ea; cbn in E; [|discriminate].
    destruct (String.eqb_spec e' ""); cbn in E; [discriminate|].
    injection E as <-. eauto.
  - intros (Hne & a & Ha & Ea). exists a. split; [apply list_elem_of_In, Ha|].
    rewrite Ea. cbn.
    destruct (String.eqb_spec e ""); [contradiction|reflexivity].
Qed.

(** The membership test of the code is the test of the specification. *)
Lemma email_not_in_is_new (kept : list Contact.t) (c : Contact.t) :
  email_not_in (Contact.email c) (existing_emails kept)
  = Spec.email_is_new kept c.
Proof.
  unfold email_not_in, Spec.email_is_new.
  destruct (Contact.email c) as [e|]; [|reflexivity].
  destruct (String.eqb_spec e "") as [->|Hne]; cbn.
  - apply bool_decide_eq_true. rewrite elem_of_existing_emails. tauto.
  - destruct (existsb _ kept) eqn:X; cbn.
    + apply bool_decide_eq_false. intros N. apply N.
      apply elem_of_existing_emails. split; [exact Hne|].
      apply existsb_exists in X as (a & Ha & E). exists a. split; [exact Ha|].
      destruct (Contact.email a) as [e'|]; [|discriminate].
      apply String.eqb_eq in E. congruence.
    + apply bool_decide_eq_true. rewrite elem_of_existing_emails.
      intros (_ & a & Ha & Ea).
      apply not_true_iff_false in X. apply X.
      apply existsb_exists. exists a. split; [exact Ha|].
      rewrite Ea. apply String.eqb_refl.
Qed.

Lemma merge_contacts (A B : Company.t) :
  Company.contacts (_merge_companies A B)
  = Company.contacts A
    ++ List.filter (Spec.email_is_new (Company.contacts A)) (Company.contacts B).
Proof.
  cbn. rewrite append_loop. f_equal.
  apply filter_ext. intros c. apply email_not_in_is_new.
Qed.

Lemma prefer_first_non_falsy {A} (truthy : option A -> bool) (a b : option A) :
  prefer_non_null truthy a b = Spec.first_non_falsy truthy a b.
Proof.
  unfold prefer_non_null, Spec.first_non_falsy.
  destruct (truthy a), (truthy b); reflexivity.
Qed.

(** C2.  Merging [B] into the kept record [A] gives a record whose
    [source] is the union, as sets, of the two sources; whose [contacts]
    are those of [A] followed by every contact of [B] whose email is
    missing, empty, or not the email of a contact of [A]; and whose
    revenue, employee count and funding stage are those of [A] when
    non-falsy, else those of [B] when [B] has a non-falsy one. *)
Theorem merge_keeps_information (A B : Company.t) :
  let M := _merge_companies A B in
  (list_to_set (Company.source M) : gset string)
    = list_to_set (Company.source A) ∪ list_to_set (Company.source B) /\
  Company.contacts M
    = Company.contacts A
      ++ List.filter (Spec.email_is_new (Company.contacts A))
                     (Company.contacts B) /\
  Company.revenue M
    = Spec.first_non_falsy Py.truthy_num
        (Company.revenue A) (Company.revenue B) /\
  Company.employee_count M
    = Spec.first_non_falsy Py.truthy_int
        (Company.employee_count A) (Company.employee_count B) /\
  Company.funding_stage M
    = Spec.first_non_falsy Py.truthy_str
        (Company.funding_stage A) (Company.funding_stage B).
Proof.
  cbv zeta. split; [|split; [apply merge_contacts|]].
  - cbn. rewrite list_to_set_elements_L, list_to_set_app_L. reflexivity.
  - cbn. rewrite !prefer_first_non_falsy. auto.
Qed.

Example merge_ex :
  let M := _merge_companies Sample.acme Sample.acme_again in
  map Contact.name (Company.contacts M) = ["Alex Smith"; "Taylor Brown"] /\
  Company.company_name M = "Acme Corp" /\
  Company.source M = ["Google Search Jobs"].
Proof. repeat split; reflexivity. Qed.

Lemma merge_contacts_length (A B : Company.t) :
  length (Company.contacts A)
    <= length (Company.contacts (_merge_companies A B))
  /\ length (Company.contacts (_merge_companies A B))
     <= length (Company.contacts A) + length (Company.contacts B).
Proof.
  rewrite merge_contacts, length_app.
  pose proof (filter_length_le (Spec.email_is_new (Company.contacts A))
                               (Company.contacts B)).
  lia.
Qed.
End Merge.

(** ** Deduplicator: the loop *)

(** Records are values here.  The code mutates the contact list and the
    signal dictionary of a kept record in place when it merges into it; the
    value semantics agrees with that as long as the input records do not
    share those objects, which holds for the records the pipeline builds,
    each from its own search result. *)

Section Dedup.
Import Deduplicator.
Context `{FuzzyMatcher}.
Implicit Types (d : list (string * Company.t)) (c : Company.t).

(** The fuzzy search reads keys and names only. *)
Lemma find_similar_skeleton c d :
  _find_similar_company c d
  = Spec.find_similar_name (Company.company_name c) (Spec.skeleton d).
Proof.
  induction d as [|[k e] d IH]; cbn; [reflexivity|].
  destruct (_ <=? _)%Z; [reflexivity | exact IH].
Qed.

Lemma find_similar_name_key name sk k :
  Spec.find_similar_name name sk = Some k -> In k (map fst sk).
Proof.
  induction sk as [|[k' n'] sk IH]; cbn; [discriminate|].
  destruct (_ <=? _)%Z; [intros [= ->]; auto | auto].
Qed.

Lemma skeleton_keys d : map fst (Spec.skeleton d) = map fst d.
Proof. unfold Spec.skeleton. rewrite map_map. reflexivity. Qed.

(** A merge keeps the name and the key of the kept record. *)
Lemma merge_name a b :
  Company.company_name (_merge_companies a b) = Company.company_name a.
Proof. reflexivity. Qed.

Lemma merge_key a b :
  _get_company_key (_merge_companies a b) = _get_company_key a.
Proof. reflexivity. Qed.

Lemma inserted_fresh_snoc before l k name :
  Spec.inserted_fresh before (l ++ [(k, name)]) <->
  Spec.inserted_fresh before l /\
  Py.truthy_str (Spec.find_similar_name name (before ++ l)) = false.
Proof.
  revert before. induction l as [|[k' n'] l IH]; intros before; cbn.
  - rewrite app_nil_r. tauto.
  - rewrite IH, <- app_assoc. cbn. tauto.
Qed.

(** Replacing a kept record by a merge into it keeps the invariant. *)
Lemma kept_merge d k existing c :
  Spec.kept d -> Py.dict_get k d = Some existing ->
  Spec.kept (Py.dict_set k (_merge_companies existing c) d).
Proof.
  intros [ND KS FR] E.
  destruct (dict_set_split k (_merge_companies existing c) existing d E)
    as (d1 & d2 & -> & ->).
  split.
  - rewrite map_app in *. exact ND.
  - apply Forall_app in KS as [K1 K2]. apply Forall_app. split; [exact K1|].
    inversion K2; subst. constructor; [|assumption].
    cbn in *. rewrite merge_key. assumption.
  - unfold Spec.skeleton in *. rewrite map_app in *. exact FR.
Qed.

(** Inserting a record the fuzzy search did not place keeps it too. *)
Lemma kept_insert d k c :
  Spec.kept d -> _get_company_key c = Py.Ok k -> Py.dict_get k d = None ->
  Py.truthy_str (_find_similar_company c d) = false ->
  Spec.kept (Py.dict_set k c d).
Proof.
  intros [ND KS FR] K E F. rewrite dict_set_new by exact E. split.
  - rewrite map_app. cbn. apply NoDup_app. repeat split.
    + exact ND.
    + intros x Hx Hx'. apply list_elem_of_In in Hx, Hx'.
      destruct Hx' as [<-|[]]. apply dict_get_None in E. auto.
    + apply NoDup_singleton.
  - apply Forall_app. split; [exact KS|]. repeat constructor. exact K.
  - unfold Spec.skeleton. rewrite map_app. cbn.
    apply inserted_fresh_snoc. split; [exact FR|].
    rewrite find_similar_skeleton in F. exact F.
Qed.

(** The key the fuzzy search returns is a key of the dictionary, so the
    lookup that follows it cannot raise. *)
Lemma similar_key_bound c d k :
  _find_similar_company c d = Some k -> exists e, Py.dict_get k d = Some e.
Proof.
  rewrite find_similar_skeleton. intros F%find_similar_name_key.
  rewrite skeleton_keys in F.
  destruct (Py.dict_get k d) eqn:E; [eauto|].
  apply dict_get_None in E. contradiction.
Qed.

Lemma dedup_step_kept d c d' :
  Spec.kept d -> dedup_step d c = Py.Ok d' -> Spec.kept d'.
Proof.
  intros K. unfold dedup_step.
  destruct (_get_company_key c) as [key|e] eqn:Hk; cbn; [|discriminate].
  destruct (Py.dict_get key d) as [existing|] eqn:E.
  - intros [= <-]. apply kept_merge; assumption.
  - destruct (Py.truthy_str (_find_similar_company c d)) eqn:T.
    + destruct (_find_similar_company c d) as [k|] eqn:F; [|discriminate].
      cbn. destruct (Py.dict_get k d) as [existing|] eqn:E'; [|discriminate].
      intros [= <-]. apply kept_merge; assumption.
    + intros [= <-]. apply kept_insert; assumption.
Qed.

Lemma for_each_kept cs d d' :
  Spec.kept d -> Py.for_each dedup_step d cs = Py.Ok d' -> Spec.kept d'.
Proof.
  revert d. induction cs as [|c cs IH]; intros d K; cbn.
  - intros [= <-]. exact K.
  - destruct (dedup_step d c) as [d1|e] eqn:S; cbn; [|discriminate].
    apply IH. eapply dedup_step_kept; eassumption.
Qed.

Lemma kept_empty : Spec.kept [].
Proof. split; cbn; constructor. Qed.

(** Feeding the kept records back in inserts each of them as new. *)
Lemma replay d1 d2 :
  NoDup (map fst (d1 ++ d2)) ->
  Forall (fun kv => _get_company_key (snd kv) = Py.Ok (fst kv)) d2 ->
  Spec.inserted_fresh (Spec.skeleton d1) (Spec.skeleton d2) ->
  Py.for_each dedup_step d1 (Py.dict_values d2) = Py.Ok (d1 ++ d2).
Proof.
  revert d1. induction d2 as [|[k c] d2 IH]; intros d1 ND KS FR; cbn.
  - rewrite app_nil_r. reflexivity.
  - inversion KS as [|? ? Kc KS']; subst. cbn in Kc, FR. destruct FR as [F FR].
    assert (E : Py.dict_get k d1 = None).
    { apply dict_get_None. intros I. rewrite map_app in ND. cbn in ND.
      apply NoDup_app in ND as (_ & D & _).
      apply (D k); [apply list_elem_of_In, I | left]. }
    unfold dedup_step at 1. rewrite Kc. cbn. rewrite E.
    rewrite find_similar_skeleton. cbn. rewrite F.
    rewrite dict_set_new by exact E. cbn.
    replace (d1 ++ (k, c) :: d2) with ((d1 ++ [(k, c)]) ++ d2)
      by (rewrite <- app_assoc; reflexivity).
    apply IH.
    + rewrite <- app_assoc. exact ND.
    + exact KS'.
    + unfold Spec.skeleton at 1. rewrite map_app. exact FR.
Qed.

Lemma dedup_step_total d c k :
  _get_company_key c = Py.Ok k -> exists d', dedup_step d c = Py.Ok d'.
Proof.
  intros Hk. unfold dedup_step. rewrite Hk. cbn.
  destruct (Py.dict_get k d); [eauto|].
  destruct (_find_similar_company c d) as [k'|] eqn:F; cbn; [|eauto].
  destruct (negb _); [|eauto].
  destruct (similar_key_bound c d k' F) as [e ->]. eauto.
Qed.

Lemma for_each_total cs d :
  Forall (fun c => exists k, _get_company_key c = Py.Ok k) cs ->
  exists d', Py.for_each dedup_step d cs = Py.Ok d'.
Proof.
  revert d. induction cs as [|c cs IH]; intros d Hk; cbn; [eauto|].
  inversion Hk as [|? ? [k Hc] Hk']; subst.
  destruct (dedup_step_total d c k Hc) as [d1 ->]. cbn. apply IH, Hk'.
Qed.

(** C4.  The deduplicator returns a list whenever every record has a key
    (a string or falsy domain), and applying it to a list it returned
    returns that same list: the second pass finds no exact key twice and no
    similar name, whatever the similarity function is. *)
Theorem deduplicate_idempotent (companies : list Company.t) :
  (Forall (fun c => exists k, _get_company_key c = Py.Ok k) companies ->
   exists unique, deduplicate_companies companies = Py.Ok unique) /\
  (forall unique,
     deduplicate_companies companies = Py.Ok unique ->
     deduplicate_companies unique = Py.Ok unique).
Proof.
  unfold deduplicate_companies. split.
  - intros Hk. destruct (for_each_total companies [] Hk) as [d ->].
    cbn. eauto.
  - intros unique.
    destruct (Py.for_each dedup_step [] companies) as [d|e] eqn:E; cbn;
      [|discriminate].
    intros [= <-].
    destruct (for_each_kept companies [] d kept_empty E) as [ND KS FR].
    rewrite (replay [] d ND KS FR). reflexivity.
Qed.
End Dedup.

(** Five records, two of which merge by similar name and two by equal key:
    three survive, and a second pass returns the same three. *)
Lemma deduplicate_idempotent_witness :
  exists unique,
    @Deduplicator.deduplicate_companies Sample.prefix_matcher
      [Sample.acme; Sample.acme_again; Sample.globex;
       Sample.crowded_left; Sample.crowded_right] = Py.Ok unique /\
    map Company.company_name unique = ["Acme Corp"; "Globex"; "Initech"] /\
    @Deduplicator.deduplicate_companies Sample.prefix_matcher unique
      = Py.Ok unique.
Proof.
  eexists. split; [vm_compute; reflexivity|]. split; [reflexivity|].
  apply (proj2 (@deduplicate_idempotent Sample.prefix_matcher
                  [Sample.acme; Sample.acme_again; Sample.globex;
                   Sample.crowded_left; Sample.crowded_right])).
  vm_compute. reflexivity.
Defined.

(** A truthy domain that is not a string makes the key computation raise,
    and the deduplicator with it. *)
Example deduplicate_raises_ex :
  @Deduplicator.deduplicate_companies Sample.prefix_matcher
    [Sample.with_domain Sample.acme (Some (Py.VInt 7))]
  = Py.Raise Py.AttributeError.
Proof. reflexivity. Qed.

(** ** Attribute Estimator *)

Section Estimator.
Import SmartCompanyEnricher.
Context {G : Type} `{RandomSource G}.

(** Name the result of each random draw. *)
Ltac draw :=
  match goal with
  | |- context [_estimate_employee_count ?a ?b ?g] =>
      destruct (_estimate_employee_count a b g)
  | |- context [_estimate_revenue ?a ?b ?g] =>
      destruct (_estimate_revenue a b g)
  | |- context [_estimate_funding_stage ?a ?b ?g] =>
      destruct (_estimate_funding_stage a b g)
  end.

Lemma specific_industry (o : option string) :
  Py.truthy_str o = true -> o <> Some "Technology" ->
  String.eqb (default "" o) "" || String.eqb (default "" o) "Technology"
  = false.
Proof.
  destruct o as [s|]; cbn; [|discriminate]. intros Hs Hn.
  apply negb_true_iff in Hs. rewrite Hs. cbn.
  apply String.eqb_neq. congruence.
Qed.

Lemma enrich_company_estimated (company : Company.t) (g : G) :
  Spec.estimated company (fst (enrich_company company g)).
Proof.
  unfold enrich_company, _estimate_from_job_data.
  fold (Spec.job_title_of company).
  pose proof (specific_industry (Company.industry company)) as Hind.
  destruct (Py.truthy_int (Company.employee_count company)) eqn:Te;
  destruct (Py.truthy_num (Company.revenue company)) eqn:Tr;
  destruct (Py.truthy_str (Company.funding_stage company)) eqn:Tf;
  destruct (String.eqb (default "" (Company.industry company)) ""
            || String.eqb (default "" (Company.industry company)) "Technology");
  destruct (String.eqb (Spec.job_title_of company) "") eqn:Tj;
  cbn [negb]; repeat (draw; cbn [negb]);
  (split; cbn; rewrite ?Tj; first [reflexivity | congruence | intros Hi Hn]).
  all: specialize (Hind Hi Hn); discriminate.
Qed.

(** C5, as the code has it.  On every record of a batch the estimator
    leaves the name, domain, location, contacts, signals, source and
    confidence alone, leaves a non-falsy employee count, revenue and
    funding stage alone, leaves an industry alone unless it is empty or the
    generic "Technology", and always sets [smart_enriched].  The tech stack
    is kept only when the record has no job title: with a job title it is
    replaced by the stack inferred from the title, populated or not. *)
Theorem estimator_frame (companies : list Company.t) (g : G) :
  Forall2 Spec.estimated companies (fst (enrich_companies_batch companies g)).
Proof.
  revert g. induction companies as [|c cs IH]; intros g; cbn.
  - constructor.
  - pose proof (enrich_company_estimated c g) as Hc.
    destruct (enrich_company c g) as [c' g1].
    specialize (IH g1). destruct (enrich_companies_batch cs g1) as [cs' g2].
    constructor; assumption.
Qed.
End Estimator.

(** A record that enters with revenue [0.0], an empty funding stage, the
    generic industry and 1200 employees leaves with the three gaps filled
    and the employee count as it was. *)
Lemma estimator_frame_witness :
  let c' := fst (@SmartCompanyEnricher.enrich_company _ Sample.counting_random
                   Sample.acme 0%Z) in
  Company.employee_count c' = Some 1200%Z /\
  Company.contacts c' = Company.contacts Sample.acme /\
  Company.industry c' = Some "Data" /\
  Company.smart_enriched c' = Some true.
Proof.
  pose proof (@estimator_frame _ Sample.counting_random [Sample.acme] 0%Z) as F.
  apply Forall2_cons_1 in F as [E _].
  cbv zeta. split; [|split; [|split; [reflexivity|]]].
  - apply (Spec.est_employee_count _ _ E). reflexivity.
  - apply (Spec.est_contacts _ _ E).
  - apply (Spec.est_smart_enriched _ _ E).
Defined.

(** C5 as stated fails: a record that enters with the tech stack ["Rust"]
    and the job title "Data Engineer" leaves with the tech stack ["R"]. *)
Lemma estimator_overwrites_tech_stack :
  let c := Sample.with_tech_stack Sample.acme ["Rust"] in
  let c' := fst (@SmartCompanyEnricher.enrich_company _ Sample.counting_random
                   c 0%Z) in
  Company.tech_stack c = Some ["Rust"] /\
  Company.tech_stack c' = Some ["R"] /\
  Company.tech_stack c' <> Company.tech_stack c.
Proof.
  cbv zeta.
  assert (E : Company.tech_stack
                (fst (@SmartCompanyEnricher.enrich_company _
                        Sample.counting_random
                        (Sample.with_tech_stack Sample.acme ["Rust"]) 0%Z))
              = Some ["R"]) by (vm_compute; reflexivity).
  rewrite E. repeat split; try reflexivity. discriminate.
Qed.

(** ** Contact Resolver: parsing a directory reply *)

Section Parser.
Import HunterClient.

Ltac bind_step := cbn [mbind result_bind Py.bind].

Lemma rescale_Ok (f : Hunter.field Z) (q : Q) :
  rescale f = Py.Ok q ->
  q = (inject_Z (default 0%Z (get f 0%Z)) / 100)%Q.
Proof.
  unfold rescale. destruct (get f 0%Z) as [n|]; [|discriminate].
  destruct (Py.float_of_int n); bind_step; [|discriminate].
  intros [= <-]. reflexivity.
Qed.

(** On an entry the parser can read, the dictionary it builds is the
    transform of the entry. *)
Lemma well_formed_contact (e : Hunter.email_data) :
  Spec.well_formed e = true ->
  get (Hunter.position e) "" = Some (Spec.position_text e) /\
  contact_of e (Spec.position_text e) = Py.Ok (Spec.transform e).
Proof.
  unfold Spec.well_formed, Spec.position_text, contact_of, Spec.transform.
  intros [Hp Hc]%andb_true_iff. split.
  - destruct (Hunter.position e); [reflexivity | discriminate | reflexivity].
  - destruct (rescale (Hunter.confidence e)) as [q|x] eqn:R; [|discriminate].
    bind_step. rewrite (rescale_Ok _ _ R). reflexivity.
Qed.

Lemma parse_step_filter (titles : list string) (e : Hunter.email_data)
    (contacts : list Contact.t) :
  titles <> [] -> Spec.well_formed e = true ->
  parse_step (Some titles) contacts e =
    Py.Ok (if Spec.position_matches titles e && Spec.has_email e
           then contacts ++ [Spec.transform e] else contacts).
Proof.
  intros Hne Wf. destruct (well_formed_contact e Wf) as [Hp Hc].
  unfold parse_step. rewrite Hp.
  unfold Spec.position_matches, Spec.has_email, matches.
  destruct titles as [|t ts]; [contradiction|].
  unfold Py.any. cbn [Py.truthy_list andb].
  change (default [] (Some (t :: ts))) with (t :: ts).
  destruct (existsb _ (t :: ts)); cbn [negb andb]; [|reflexivity].
  rewrite Hc. bind_step. cbn [Spec.transform Contact.email].
  destruct (Py.truthy_str _); reflexivity.
Qed.

Lemma parse_loop (titles : list string) (entries : list Hunter.email_data)
    (contacts : list Contact.t) :
  titles <> [] -> forallb Spec.well_formed entries = true ->
  Py.for_each (parse_step (Some titles)) contacts entries =
    Py.Ok (contacts ++
           map Spec.transform
             (List.filter
                (fun e => Spec.position_matches titles e && Spec.has_email e)
                entries)).
Proof.
  intros Hne. revert contacts.
  induction entries as [|e entries IH]; intros contacts Wf;
    cbn [Py.for_each].
  - cbn. rewrite app_nil_r. reflexivity.
  - cbn [forallb] in Wf. apply andb_true_iff in Wf as [We Wr].
    rewrite (parse_step_filter titles e contacts Hne We).
    cbn [Py.bind]. rewrite (IH _ Wr). cbn [List.filter].
    destruct (Spec.position_matches titles e && Spec.has_email e);
      [|reflexivity].
    cbn [map]. rewrite <- app_assoc. reflexivity.
Qed.

(** A [null] position ends the loop with an exception, whatever was
    parsed before it. *)
Lemma parse_loop_null (titles : option (list string))
    (good rest : list Hunter.email_data) (e : Hunter.email_data)
    (contacts : list Contact.t) :
  Hunter.position e = Hunter.Null ->
  (exists parsed,
     Py.for_each (parse_step titles) contacts good = Py.Ok parsed) ->
  Py.for_each (parse_step titles) contacts (good ++ e :: rest)
  = Py.Raise Py.AttributeError.
Proof.
  intros Hnull. revert contacts.
  induction good as [|x good IH]; intros contacts [parsed Hp];
    cbn [app Py.for_each] in *.
  - unfold parse_step. rewrite Hnull. reflexivity.
  - destruct (parse_step titles contacts x) as [c1|]; cbn [Py.bind] in *;
      [|discriminate].
    apply IH. eauto.
Qed.

Lemma entries_of_parse (response : Hunter.response)
    (titles : option (list string)) :
  _parse_hunter_contacts response titles =
    match Spec.entries_of response with
    | Some entries =>
        contacts ← Py.for_each (parse_step titles) [] entries;
        Py.Ok (firstn 5 contacts)
    | None =>
        match get (Hunter.data response) (Hunter.mk_payload Hunter.Missing) with
        | None => Py.Raise Py.AttributeError
        | Some _ => Py.Raise Py.TypeError
        end
    end.
Proof.
  unfold _parse_hunter_contacts, Spec.entries_of.
  destruct (get (Hunter.data response) _) as [payload|]; [|reflexivity].
  destruct (get (Hunter.emails payload) []); reflexivity.
Qed.




(** Without target titles every entry with an email is kept. *)
Example parse_unfiltered_ex :
  (contacts ← _parse_hunter_contacts
                (Sample.reply_with (firstn 3 Sample.entries)) None;
   Py.Ok (length contacts)) = Py.Ok 3.
Proof. vm_compute. reflexivity. Qed.

Lemma parse_length (response : Hunter.response)
    (titles : option (list string)) (contacts : list Contact.t) :
  _parse_hunter_contacts response titles = Py.Ok contacts ->
  length contacts <= 5.
Proof.
  rewrite entries_of_parse.
  destruct (Spec.entries_of response) as [entries|];
    [|destruct (get _ _); discriminate].
  destruct (Py.for_each _ _ _) as [parsed|]; bind_step; [|discriminate].
  intros [= <-]. rewrite length_firstn. lia.
Qed.
End Parser.

(** ** Contact Resolver: the stage *)

Section Resolver.
Import HunterClient.
Context {W : Type} `{ContactDirectory W}.

Lemma endswith_nonempty (d suffix : string) :
  suffix <> "" -> Py.endswith d suffix = true -> d <> "".
Proof.
  intros Hs He ->. cbn in He. rewrite orb_false_r in He.
  destruct suffix; [contradiction | discriminate].
Qed.

Lemma find_emails_length (domain : string) (titles : option (list string))
    (w : W) :
  length (fst (find_emails domain titles w)) <= 5.
Proof.
  unfold find_emails.
  destruct (negb _); [cbn; lia|].
  destruct (domain_search domain w) as [[status body|] w']; [|cbn; lia].
  destruct (status =? 200)%Z; [|cbn; lia].
  destruct (_parse_hunter_contacts body titles) as [contacts|] eqn:P;
    [|cbn; lia].
  exact (parse_length body titles contacts P).
Qed.

(** The loop body on one record: the gate, the lookup and the
    replacement. *)
Lemma resolve_contacts_gate (company : Company.t) (w : W) :
  ((Company.domain company = None \/
    (exists v, Company.domain company = Some v /\ Py.truthy_value v = false) \/
    (exists v, Company.domain company = Some v /\ Py.isinstance_str v = false) \/
    (exists d, Company.domain company = Some (Py.VStr d) /\
               Py.endswith d ".com" = false)) ->
   resolve_contacts company w = (company, w)) /\
  (forall d,
     Company.domain company = Some (Py.VStr d) ->
     Py.endswith d ".com" = true ->
     let found := find_emails d (Some Spec.target_titles) w in
     snd (resolve_contacts company w) = snd found /\
     (fst found = [] -> fst (resolve_contacts company w) = company) /\
     (fst found <> [] ->
      fst (resolve_contacts company w)
      = Company.mk
          (Company.company_name company) (Company.domain company)
          (Company.revenue company) (Company.industry company)
          (Company.employee_count company) (Company.location company)
          (Company.funding_stage company) (Company.tech_stack company)
          (fst found)
          (Company.signals company) (Company.source company)
          (Company.confidence company) (Company.smart_enriched company))).
Proof.
  split.
  - unfold resolve_contacts.
    intros [-> | [(v & -> & Hv) | [(v & -> & Hv) | (d & -> & Hd)]]]; cbn.
    + reflexivity.
    + rewrite Hv. reflexivity.
    + rewrite Hv, orb_true_r. reflexivity.
    + rewrite Hd, !orb_true_r. reflexivity.
  - intros d Hd He. cbv zeta. unfold resolve_contacts. rewrite Hd.
    change (default (Py.VStr "") (Some (Py.VStr d))) with (Py.VStr d).
    cbn [Py.isinstance_str negb orb Py.truthy_value].
    pose proof (endswith_nonempty d ".com" ltac:(discriminate) He) as Hne.
    apply String.eqb_neq in Hne. rewrite Hne, He. cbn [negb orb].
    fold Spec.target_titles.
    destruct (find_emails d (Some Spec.target_titles) w) as [[|c cs] w'];
      cbn; repeat split; intros;
      first [reflexivity | congruence
            | unfold Company.set_contacts; rewrite Hd; reflexivity].
Qed.


(** C7.  The resolver stage goes through the batch in order.  A record
    whose domain is missing (absent or falsy), is not a string, or does
    not end in ".com" is returned as it entered, and no lookup is made for
    it.  A record whose domain is a string ending in ".com" is looked up
    with the four fixed titles: when the lookup finds nobody the record is
    returned as it entered, and otherwise it is returned with its contacts
    replaced by the contacts found and every other field as it was.  The
    rest of the batch is resolved in the world the lookup leaves. *)
Theorem resolver_gate_and_replace
    (company : Company.t) (rest : list Company.t) (w : W) :
  enrich_companies_with_contacts [] w = ([], w) /\
  ((Company.domain company = None \/
    (exists v, Company.domain company = Some v /\ Py.truthy_value v = false) \/
    (exists v, Company.domain company = Some v /\ Py.isinstance_str v = false) \/
    (exists d, Company.domain company = Some (Py.VStr d) /\
               Py.endswith d ".com" = false)) ->
   enrich_companies_with_contacts (company :: rest) w
   = (company :: fst (enrich_companies_with_contacts rest w),
      snd (enrich_companies_with_contacts rest w))) /\
  (forall d,
     Company.domain company = Some (Py.VStr d) ->
     Py.endswith d ".com" = true ->
     let found := find_emails d (Some Spec.target_titles) w in
     let later := enrich_companies_with_contacts rest (snd found) in
     (fst found = [] ->
      enrich_companies_with_contacts (company :: rest) w
      = (company :: fst later, snd later)) /\
     (fst found <> [] ->
      enrich_companies_with_contacts (company :: rest) w
      = (Company.mk
           (Company.company_name company) (Company.domain company)
           (Company.revenue company) (Company.industry company)
           (Company.employee_count company) (Company.location company)
           (Company.funding_stage company) (Company.tech_stack company)
           (fst found)
           (Company.signals company) (Company.source company)
           (Company.confidence company) (Company.smart_enriched company)
         :: fst later,
         snd later))).
Proof.
  assert (Cons : forall c' w1,
            resolve_contacts company w = (c', w1) ->
            enrich_companies_with_contacts (company :: rest) w
            = (c' :: fst (enrich_companies_with_contacts rest w1),
               snd (enrich_companies_with_contacts rest w1))).
  { intros c' w1 E. cbn [enrich_companies_with_contacts]. rewrite E.
    destruct (enrich_companies_with_contacts rest w1). reflexivity. }
  destruct (resolve_contacts_gate company w) as [Skip Pass].
  split; [reflexivity|]. split.
  - intros Gate. apply Cons, Skip, Gate.
  - intros d Hd He. cbv zeta.
    destruct (Pass d Hd He) as (Ew & Enone & Esome). cbv zeta in *.
    split.
    + intros Hf.
      rewrite (Cons _ _ (surjective_pairing (resolve_contacts company w))).
      rewrite Ew, (Enone Hf). reflexivity.
    + intros Hf.
      rewrite (Cons _ _ (surjective_pairing (resolve_contacts company w))).
      rewrite Ew, (Esome Hf). reflexivity.
Qed.

Lemma resolve_contacts_record (company : Company.t) (w : W) :
  Spec.resolved_record company (fst (resolve_contacts company w)) /\
  (length (Company.contacts company) <= 5 ->
   length (Company.contacts (fst (resolve_contacts company w))) <= 5).
Proof.
  unfold resolve_contacts.
  destruct (_ || _); [split; [left; reflexivity | auto]|].
  match goal with |- context [find_emails ?d ?t w] =>
    pose proof (find_emails_length d t w) as L;
    destruct (find_emails d t w) as [[|c cs] w'] end;
    cbn [fst] in *.
  - split; [left; reflexivity | auto].
  - split; [right; exists (c :: cs); split; [discriminate | reflexivity]|].
    intros _. exact L.
Qed.

(** The stage maps the loop body over the batch. *)
Lemma enrich_with_contacts_pointwise (companies : list Company.t) (w : W) :
  Forall2 Spec.resolved_record companies
          (fst (enrich_companies_with_contacts companies w)).
Proof.
  revert w. induction companies as [|c cs IH]; intros w; cbn.
  - constructor.
  - pose proof (proj1 (resolve_contacts_record c w)) as Hc.
    destruct (resolve_contacts c w) as [c' w1].
    specialize (IH w1).
    destruct (enrich_companies_with_contacts cs w1) as [cs' w2].
    constructor; assumption.
Qed.
End Resolver.

(** In a batch of two, "acmecorp.com" passes the gate and the directory
    finds five contacts, which replace the placeholder; "globex.io" does
    not pass and the record is untouched. *)
Lemma resolver_gate_and_replace_witness :
  let out :=
    fst (@HunterClient.enrich_companies_with_contacts _ Sample.canned_directory
           [Sample.acme; Sample.globex] tt) in
  map (fun c => map Contact.name (Company.contacts c)) out
  = [["Ada Lovelace"; "Cy"; "Ed Poe"; "Flo Rida"; "Gus Hall"];
     ["Jordan Davis"]] /\
  nth_error out 1 = Some Sample.globex.
Proof.
  cbv zeta.
  pose proof (proj2 (proj2 (@resolver_gate_and_replace _ Sample.canned_directory
                              Sample.acme [Sample.globex] tt))
                    "acmecorp.com" eq_refl eq_refl) as (_ & Found).
  cbv zeta in Found. rewrite Found by discriminate.
  split; reflexivity.
Defined.

(** A lookup that finds nobody leaves the placeholder in place. *)
Example resolver_silent_ex :
  @HunterClient.resolve_contacts _ Sample.silent_directory Sample.acme tt
  = (Sample.acme, tt).
Proof. reflexivity. Qed.

(** A reply with a [null] position makes the parser raise; the lookup
    catches that and finds nobody, although the first entry of the reply
    is a CTO with an email, and the record keeps its placeholder. *)
Example resolver_null_reply_ex :
  @HunterClient.find_emails _ Sample.null_directory "acmecorp.com"
     (Some Spec.target_titles) tt = ([], tt) /\
  @HunterClient.enrich_companies_with_contacts _ Sample.null_directory
     [Sample.acme] tt = ([Sample.acme], tt).
Proof. split; vm_compute; reflexivity. Qed.

(** ** The cap on contacts *)

Section ContactCap.
Context {W G : Type} `{ContactDirectory W} `{RandomSource G}.

(** C3, as the code has it.  A parsed directory reply has at most five
    contacts; a record with at most five contacts still has at most five
    after the resolver and exactly the same contacts after the estimator.
    The merge of the deduplicator does not truncate: it keeps all contacts
    of the kept record and appends those of the incoming one that pass the
    email test, so two records with at most five contacts each merge into
    one with at most ten. *)
Theorem contact_cap_by_stage
    (A B : Company.t) (response : Hunter.response)
    (titles : option (list string)) (w : W) (g : G) :
  length (Company.contacts A) <= 5 ->
  length (Company.contacts B) <= 5 ->
  (forall contacts,
     HunterClient._parse_hunter_contacts response titles = Py.Ok contacts ->
     length contacts <= 5) /\
  length (Company.contacts (fst (HunterClient.resolve_contacts A w))) <= 5 /\
  Company.contacts (fst (SmartCompanyEnricher.enrich_company A g))
    = Company.contacts A /\
  length (Company.contacts (Deduplicator._merge_companies A B))
    = length (Company.contacts A)
      + length (List.filter (Spec.email_is_new (Company.contacts A))
                            (Company.contacts B)) /\
  length (Company.contacts A)
    <= length (Company.contacts (Deduplicator._merge_companies A B)) /\
  length (Company.contacts (Deduplicator._merge_companies A B)) <= 10.
Proof.
  intros HA HB.
  pose proof (merge_contacts_length A B) as [Lo Hi].
  split; [apply parse_length|].
  split; [apply (proj2 (resolve_contacts_record A w)), HA|].
  split; [apply (Spec.est_contacts _ _ (enrich_company_estimated A g))|].
  split; [rewrite merge_contacts, length_app; reflexivity|].
  split; [exact Lo | lia].
Qed.
End ContactCap.

Lemma contact_cap_by_stage_witness :
  length (Company.contacts
            (Deduplicator._merge_companies Sample.acme Sample.acme_again)) = 2
  /\ length (Company.contacts
               (fst (@HunterClient.resolve_contacts _ Sample.canned_directory
                       Sample.acme tt))) <= 5.
Proof.
  pose proof (@contact_cap_by_stage _ _ Sample.canned_directory
                Sample.counting_random Sample.acme Sample.acme_again
                Sample.reply None tt 0%Z ltac:(cbn; lia) ltac:(cbn; lia))
    as (_ & Cap & _ & Len & _).
  split; [rewrite Len; reflexivity | exact Cap].
Defined.

(** C3 as stated fails: two records with five contacts each, all emails
    distinct, merge into a record with ten contacts. *)
Lemma merge_exceeds_contact_cap :
  length (Company.contacts Sample.crowded_left) <= 5 /\
  length (Company.contacts Sample.crowded_right) <= 5 /\
  length (Company.contacts
            (Deduplicator._merge_companies
               Sample.crowded_left Sample.crowded_right)) = 10 /\
  ~ length (Company.contacts
              (Deduplicator._merge_companies
                 Sample.crowded_left Sample.crowded_right)) <= 5.
Proof.
  assert (E : length (Company.contacts
                        (Deduplicator._merge_companies
                           Sample.crowded_left Sample.crowded_right)) = 10)
    by (vm_compute; reflexivity).
  rewrite E. cbn. repeat split; lia.
Qed.

(** ** Agent driver *)

Section Agent.
Import ProspectSearchAgent.
Context {W G : Type} `{CompanyFinder W} `{ContactDirectory W}
        `{RandomSource G} `{FuzzyMatcher}.

(** C10.  When the ICP maps "geography" to an empty list, building the
    search filters raises [IndexError] on the first index, the [try] block
    ends there without having called any collaborator, and
    [search_prospects] returns the empty list. *)
Theorem empty_geography_yields_no_prospects (icp : ICP.t) (w : W) (g : G) :
  ICP.geography icp = Some [] ->
  _generate_serpapi_filters icp = Py.Raise Py.IndexError /\
  pipeline icp w g = (Py.Raise Py.IndexError, w, g) /\
  search_prospects icp w g = ([], w, g).
Proof.
  intros Hg.
  assert (E : _generate_serpapi_filters icp = Py.Raise Py.IndexError).
  { unfold _generate_serpapi_filters. rewrite Hg. reflexivity. }
  unfold search_prospects, pipeline. rewrite E. auto.
Qed.
End Agent.

Lemma empty_geography_yields_no_prospects_witness :
  @ProspectSearchAgent.search_prospects _ _
    Sample.canned_finder Sample.canned_directory Sample.counting_random
    Sample.prefix_matcher
    (ICP.mk None None (Some ["fintech"]) (Some []) (Some 100%Z) None None None)
    tt 0%Z
  = ([], tt, 0%Z).
Proof.
  apply (@empty_geography_yields_no_prospects _ _
           Sample.canned_finder Sample.canned_directory Sample.counting_random
           Sample.prefix_matcher).
  reflexivity.
Defined.

(** An absent "geography" key defaults to ["USA"], and the pipeline runs
    to the end. *)
Example pipeline_runs_ex :
  let '(prospects, _, _) :=
    @ProspectSearchAgent.search_prospects _ _
      Sample.canned_finder Sample.canned_directory Sample.counting_random
      Sample.prefix_matcher
      (ICP.mk None None (Some ["fintech"]) None (Some 100%Z) None None
              (Some (IcpSignals.mk (Some true) (Some true) None)))
      tt 0%Z in
  map (fun c => (Company.company_name c, Company.confidence c)) prospects
  = [("Globex", 65 # 100); ("Acme Corp", 30 # 100)].
Proof. vm_compute. reflexivity. Qed.

(** ** The rational model against binary64 *)

(** On each of the 120 combinations of values the four sub-scores can
    take, the double the code stores in [confidence] is the double nearest
    to the value the rational model stores, and lies between 0 and 1. *)
Lemma binary64_agrees : Binary64.all_agree = true.
Proof. vm_compute. reflexivity. Qed.

Example binary64_ex :
  Binary64.score 0.5 0.3 0 0.5 = 0.34%float /\
  Binary64.model 0.5 0.3 0 0.5 = (34 # 100).
Proof. split; vm_compute; reflexivity. Qed.

(* ===================================================================== *)
(** * Further properties of the stages *)
(* ===================================================================== *)

(** ** Confidence Scorer: further properties *)

Section ScorerMore.
Import ConfidenceScorer.
Local Open Scope Q_scope.

(** The score does not read the confidence already stored. *)
Lemma score_set_confidence (c : Company.t) (q : Q) (icp : ICP.t) :
  score (Company.set_confidence c q) icp = score c icp.
Proof. reflexivity. Qed.

Lemma set_confidence_twice (c : Company.t) (q q' : Q) :
  Company.set_confidence (Company.set_confidence c q) q'
  = Company.set_confidence c q'.
Proof. reflexivity. Qed.

(** A list whose records already carry their scores is scored to
    itself. *)
Lemma score_each_fixed (l : list Company.t) (icp : ICP.t) :
  Forall (fun c => score c icp = Py.Ok (Company.confidence c)) l ->
  score_each l icp = Py.Ok l.
Proof.
  induction 1 as [|c l Hc _ IH]; cbn [score_each]; [reflexivity|].
  rewrite Hc, IH. cbn [mbind result_bind Py.bind].
  destruct c; reflexivity.
Qed.

(** X1.  Scoring a list the scorer returned, against the same ICP, returns
    it unchanged: same confidences, same order. *)
Theorem calculate_confidence_idempotent
    (companies : list Company.t) (icp : ICP.t) :
  (ranked ← calculate_confidence companies icp;
   calculate_confidence ranked icp)
  = calculate_confidence companies icp.
Proof.
  destruct (calculate_confidence companies icp) as [ranked|e] eqn:E;
    cbn [mbind result_bind Py.bind]; [|reflexivity].
  apply calculate_confidence_Ok in E as (scored & F & ->).
  assert (Fixed : Forall (fun c => score c icp = Py.Ok (Company.confidence c))
                         (Py.sorted_reverse Company.confidence scored)).
  { eapply Permutation_Forall; [apply sorted_reverse_perm|].
    induction F as [|c s cs ss (q & Sq & ->) _ IH]; constructor;
      [|exact IH].
    rewrite score_set_confidence. exact Sq. }
  unfold calculate_confidence. rewrite (score_each_fixed _ _ Fixed).
  cbn [mbind result_bind Py.bind]. f_equal.
  apply sorted_reverse_fixpoint, sorted_reverse_sorted.
Qed.

(** X2.  For two companies whose funding flags agree, the one with the
    larger funding amount never gets the smaller funding score. *)
Theorem funding_score_monotone
    (c1 c2 : Company.t) (icp : ICP.t) (s1 s2 : Signals.t) (a1 a2 : Q) :
  Company.signals c1 = Some s1 -> Company.signals c2 = Some s2 ->
  Signals.new_funding s1 = Signals.new_funding s2 ->
  Signals.funding_round s1 = Signals.funding_round s2 ->
  Signals.funding_amount s1 = Some a1 -> Signals.funding_amount s2 = Some a2 ->
  a1 <= a2 ->
  _calculate_funding_score c1 icp <= _calculate_funding_score c2 icp.
Proof.
  intros H1 H2 Hn Hr Ha1 Ha2 Hle.
  unfold _calculate_funding_score. rewrite H1, H2. cbn.
  rewrite Hn, Hr, Ha1, Ha2. cbn.
  destruct (negb _); [apply Qle_refl|].
  destruct (Py.truthy_bool _); [|apply Qle_refl].
  destruct (Py.gt a1 50000000) eqn:G1, (Py.gt a2 50000000) eqn:G2,
           (Py.gt a1 10000000) eqn:G3, (Py.gt a2 10000000) eqn:G4;
    try (unfold Qle; cbn; lia);
    repeat match goal with
    | G : Py.gt _ _ = true |- _ => apply gt_true in G
    | G : Py.gt _ _ = false |- _ => apply gt_false in G
    end; lra.
Qed.

Lemma contains_empty (s : string) : Py.contains "" s = true.
Proof. destruct s; reflexivity. Qed.

Lemma lower_nonempty (s : string) : s <> "" -> Py.lower s <> "".
Proof. destruct s; [contradiction | discriminate]. Qed.

(** X3.  A blank entry in the ICP's industry list matches every company
    that has an industry: the substring test succeeds on the empty
    string. *)
Theorem blank_target_industry_matches_all
    (company : Company.t) (icp : ICP.t) (industries : list string) (s : string) :
  ICP.industry icp = Some industries -> In "" industries ->
  Company.industry company = Some s -> s <> "" ->
  _calculate_industry_match company icp = 1.0.
Proof.
  intros Hi Hin Hs Hne. unfold _calculate_industry_match. rewrite Hi, Hs.
  cbn [default from_option id].
  destruct industries as [|t ts]; [contradiction|].
  pose proof (lower_nonempty s Hne) as Hl. apply String.eqb_neq in Hl.
  rewrite Hl.
  assert (E : Py.any (fun target => Py.contains (Py.lower target) (Py.lower s))
                      (t :: ts) = true).
  { apply existsb_exists. exists "". split; [exact Hin|]. apply contains_empty. }
  rewrite E. reflexivity.
Qed.

(** X4.  When the ICP requests neither the funding nor the hiring signal,
    both sub-scores are 0 whatever the company's signals are, and no
    company scores above 0.5. *)
Theorem unrequested_signals_score_nothing (company : Company.t) (icp : ICP.t) :
  Py.truthy_bool (ICP.signals icp ≫= IcpSignals.funding) = false ->
  Py.truthy_bool (ICP.signals icp ≫= IcpSignals.hiring_data_roles) = false ->
  _calculate_funding_score company icp = 0.0 /\
  _calculate_hiring_score company icp = 0.0 /\
  forall q, score company icp = Py.Ok q -> q <= 0.5.
Proof.
  intros Hf Hh.
  assert (F : _calculate_funding_score company icp = 0.0)
    by (unfold _calculate_funding_score; rewrite Hf; reflexivity).
  assert (Hi : _calculate_hiring_score company icp = 0.0)
    by (unfold _calculate_hiring_score; rewrite Hh; reflexivity).
  split; [exact F|]. split; [exact Hi|].
  intros q Sq. apply score_Ok in Sq as (e & Ee & ->).
  unfold Spec.weighted_sum. rewrite F, Hi.
  pose proof (industry_match_unit company icp) as [Li Ui].
  pose proof (employee_score_unit company icp e Ee) as [Le Ue].
  revert Li Ui.
  generalize (_calculate_industry_match company icp).
  intros i Li Ui.
  set (x := 0.4 * i + 0.3 * 0.0 + 0.2 * 0.0 + 0.1 * e).
  assert (L : 0 <= x) by (unfold x; lra).
  assert (U : x <= 1 # 2) by (unfold x; lra).
  unfold Py.round. change (Pos.pow 10 (Pos.of_nat 2)) with 100%positive.
  destruct (round_half_even_bounds 0 50 (x * inject_Z 100)) as [_ B].
  - change (inject_Z 0) with 0. change (inject_Z 100) with (100 # 1). lra.
  - change (inject_Z 100) with (100 # 1). change (inject_Z 50) with (50 # 1).
    lra.
  - unfold Qle. cbn. lia.
Qed.
End ScorerMore.

(** Twenty million against sixty million of new funding: 0.8 against
    1.0. *)
Lemma funding_score_monotone_witness :
  (ConfidenceScorer._calculate_funding_score
     (Sample.with_signals Sample.first_half
        (Some (Sample.funded 20000000 false))) Sample.icp
   <= ConfidenceScorer._calculate_funding_score Sample.four_fifths Sample.icp)%Q.
Proof.
  apply (funding_score_monotone _ _ Sample.icp
           (Sample.funded 20000000 false) (Sample.funded 60000000 false)
           20000000%Q 60000000%Q); try reflexivity.
  unfold Qle. cbn. lia.
Defined.

(** A FinTech company against the industries "healthcare" and "". *)
Lemma blank_target_industry_matches_all_witness :
  ConfidenceScorer._calculate_industry_match Sample.globex
    (ICP.mk None None (Some ["healthcare"; ""]) (Some ["USA"]) None None None
            None)
  = 1.0%Q.
Proof.
  apply (blank_target_industry_matches_all _ _ ["healthcare"; ""] "FinTech");
    [reflexivity | right; left; reflexivity | reflexivity | discriminate].
Defined.

(** A hiring company with sixty million of new funding against a profile
    that asks for no signal. *)
Lemma unrequested_signals_score_nothing_witness :
  let icp :=
    ICP.mk None None (Some ["fintech"]) (Some ["USA"]) (Some 100%Z) None None
           None in
  let company :=
    Sample.with_signals Sample.first_half (Some (Sample.funded 60000000 true)) in
  ConfidenceScorer._calculate_funding_score company icp = 0.0%Q /\
  ConfidenceScorer._calculate_hiring_score company icp = 0.0%Q /\
  forall q, ConfidenceScorer.score company icp = Py.Ok q -> (q <= 0.5)%Q.
Proof.
  cbv zeta. apply unrequested_signals_score_nothing; reflexivity.
Defined.

(** ** Deduplicator: further properties *)

Section DedupMore.
Import Deduplicator.
Context `{FuzzyMatcher}.
Implicit Types (d : list (string * Company.t)) (c : Company.t).

Lemma dict_get_In {V} (k : string) (v : V) (l : list (string * V)) :
  Py.dict_get k l = Some v -> In (k, v) l.
Proof.
  induction l as [|[k' v'] l IH]; cbn; [discriminate|].
  destruct (String.eqb_spec k k') as [->|Hne]; [intros [= ->]; auto | auto].
Qed.

Lemma nodup_keys_functional {V} (l : list (string * V)) (k : string) (v v' : V) :
  NoDup (map fst l) -> In (k, v) l -> In (k, v') l -> v = v'.
Proof.
  induction l as [|[k0 v0] l IH]; cbn; [contradiction|].
  intros ND [E|I] [E'|I'].
  - congruence.
  - injection E as -> ->. apply NoDup_cons in ND as [N _].
    exfalso. apply N, list_elem_of_In, in_map_iff. exists (k, v'). auto.
  - injection E' as -> ->. apply NoDup_cons in ND as [N _].
    exfalso. apply N, list_elem_of_In, in_map_iff. exists (k, v). auto.
  - apply NoDup_cons in ND as [_ ND]. auto.
Qed.

Lemma find_similar_entry c d k :
  _find_similar_company c d = Some k ->
  exists e, In (k, e) d /\
    (similarity_threshold
       <=? fuzz_ratio (Py.lower (Company.company_name c))
                      (Py.lower (Company.company_name e)))%Z = true.
Proof.
  induction d as [|[k' e'] d IH]; cbn; [discriminate|].
  destruct (_ <=? _)%Z eqn:T.
  - intros [= ->]. exists e'. auto.
  - intros F. destruct (IH F) as (e & I & S). exists e. auto.
Qed.

(** What one iteration does to the dictionary: it merges [c] into an
    entry with the same key or a similar name, which keeps its place, key
    and name, or it appends [c] under its own key. *)
Lemma dedup_step_cases d c d' :
  Spec.kept d -> dedup_step d c = Py.Ok d' ->
  (exists d1 k existing d2,
     d = d1 ++ (k, existing) :: d2 /\
     d' = d1 ++ (k, _merge_companies existing c) :: d2 /\
     (_get_company_key c = Py.Ok k \/
      (similarity_threshold
         <=? fuzz_ratio (Py.lower (Company.company_name c))
                        (Py.lower (Company.company_name existing)))%Z = true))
  \/ (exists k, _get_company_key c = Py.Ok k /\ d' = d ++ [(k, c)]).
Proof.
  intros K. unfold dedup_step.
  destruct (_get_company_key c) as [key|e] eqn:Hk; cbn; [|discriminate].
  destruct (Py.dict_get key d) as [existing|] eqn:E.
  - intros [= <-]. left.
    destruct (dict_set_split key (_merge_companies existing c) existing d E)
      as (d1 & d2 & -> & ->).
    exists d1, key, existing, d2. auto.
  - destruct (Py.truthy_str (_find_similar_company c d)) eqn:T.
    + destruct (_find_similar_company c d) as [k|] eqn:F; [|discriminate].
      cbn. destruct (Py.dict_get k d) as [existing|] eqn:E'; [|discriminate].
      intros [= <-]. left.
      destruct (find_similar_entry c d k F) as (e' & I & S).
      assert (e' = existing) as ->.
      { eapply nodup_keys_functional;
          [apply (Spec.kept_nodup _ K) | exact I | apply dict_get_In, E']. }
      destruct (dict_set_split k (_merge_companies existing c) existing d E')
        as (d1 & d2 & -> & ->).
      exists d1, k, existing, d2. auto.
    + intros [= <-]. right. exists key. split; [reflexivity|].
      apply dict_set_new, E.
Qed.

(** An invariant that relates the records processed so far to the
    dictionary is kept by the loop. *)
Lemma for_each_processed
    (Q : list Company.t -> list (string * Company.t) -> Prop) :
  (forall pre d c d',
     Spec.kept d -> Q pre d -> dedup_step d c = Py.Ok d' -> Q (pre ++ [c]) d') ->
  forall cs pre d d',
    Spec.kept d -> Q pre d ->
    Py.for_each dedup_step d cs = Py.Ok d' -> Q (pre ++ cs) d'.
Proof.
  intros Step cs. induction cs as [|c cs IH]; intros pre d d' K HQ; cbn.
  - intros [= <-]. rewrite app_nil_r. exact HQ.
  - destruct (dedup_step d c) as [d1|e] eqn:S; cbn; [|discriminate].
    intros E.
    replace (pre ++ c :: cs) with ((pre ++ [c]) ++ cs)
      by (rewrite <- app_assoc; reflexivity).
    eapply IH; [| |exact E].
    + eapply dedup_step_kept; eassumption.
    + eapply Step; eassumption.
Qed.

(** The key of a kept record is the key it is stored under. *)
Lemma kept_key_of d k c :
  Spec.kept d -> In (k, c) d -> Laws.key_of c = k.
Proof.
  intros K I. pose proof (Spec.kept_keys _ K) as KS.
  rewrite List.Forall_forall in KS. specialize (KS _ I). cbn in KS.
  unfold Laws.key_of. rewrite KS. reflexivity.
Qed.

Lemma kept_keys_map d :
  Spec.kept d -> map Laws.key_of (Py.dict_values d) = map fst d.
Proof.
  intros K. unfold Py.dict_values. rewrite map_map.
  apply map_ext_in. intros [k c] I. cbn. eapply kept_key_of; eassumption.
Qed.

Lemma dedup_length (companies unique : list Company.t) :
  deduplicate_companies companies = Py.Ok unique ->
  length unique <= length companies.
Proof.
  unfold deduplicate_companies.
  destruct (Py.for_each dedup_step [] companies) as [d|e] eqn:E; cbn;
    [|discriminate].
  intros [= <-].
  assert (Q : length d <= length ([] ++ companies)).
  { apply (for_each_processed (fun pre d => length d <= length pre))
      with (d := []); [|apply kept_empty|reflexivity|exact E].
    intros pre d0 c d' K HQ St. rewrite length_app. cbn.
    destruct (dedup_step_cases d0 c d' K St)
      as [(d1 & k & ex & d2 & -> & -> & _) | (k & _ & ->)].
    - rewrite length_app in *. cbn in *. lia.
    - rewrite length_app. cbn. lia. }
  unfold Py.dict_values. rewrite length_map. exact Q.
Qed.

(** The keys the loop leaves in the dictionary are pairwise distinct. *)
Lemma for_each_keys_nodup (companies : list Company.t) d :
  Py.for_each dedup_step [] companies = Py.Ok d ->
  NoDup (map Laws.key_of (Py.dict_values d)).
Proof.
  intros E. pose proof (for_each_kept companies [] d kept_empty E) as K.
  rewrite (kept_keys_map d K). apply K.
Qed.

(** X5.  The records the deduplicator returns have pairwise distinct
    keys. *)
Theorem deduplicated_keys_distinct (companies unique : list Company.t) :
  deduplicate_companies companies = Py.Ok unique ->
  NoDup (map Laws.key_of unique).
Proof.
  unfold deduplicate_companies.
  destruct (Py.for_each dedup_step [] companies) as [d|e] eqn:E; cbn;
    [|discriminate].
  intros [= <-]. exact (for_each_keys_nodup companies d E).
Qed.

(** The names of the kept records, in dictionary order. *)
Lemma names_skeleton d :
  map Company.company_name (Py.dict_values d) = map snd (Spec.skeleton d).
Proof. unfold Py.dict_values, Spec.skeleton. rewrite !map_map. reflexivity. Qed.

(** X6.  The deduplicator returns no more records than it received, and
    the names of the records it returns are names of input records, in
    the order in which they were first seen. *)
Theorem deduplicated_first_seen_order (companies unique : list Company.t) :
  deduplicate_companies companies = Py.Ok unique ->
  sublist (map Company.company_name unique)
          (map Company.company_name companies) /\
  length unique <= length companies.
Proof.
  unfold deduplicate_companies.
  destruct (Py.for_each dedup_step [] companies) as [d|e] eqn:E; cbn;
    [|discriminate].
  intros [= <-].
  assert (S : sublist (map snd (Spec.skeleton d))
                      (map Company.company_name ([] ++ companies))).
  { apply (for_each_processed
             (fun pre d => sublist (map snd (Spec.skeleton d))
                                   (map Company.company_name pre)))
      with (d := []); [|apply kept_empty|constructor|exact E].
    intros pre d0 c d' K HQ St.
    rewrite map_app. cbn [map].
    destruct (dedup_step_cases d0 c d' K St)
      as [(d1 & k & ex & d2 & -> & -> & _) | (k & _ & ->)].
    - unfold Spec.skeleton in *. rewrite map_app in *. cbn in *.
      rewrite map_app in *. cbn in *.
      apply sublist_inserts_r. exact HQ.
    - unfold Spec.skeleton in *. rewrite !map_app. cbn.
      apply sublist_app; [exact HQ | reflexivity]. }
  cbn [app] in S. rewrite names_skeleton. split; [exact S|].
  apply sublist_length in S. rewrite !length_map in S.
  unfold Py.dict_values, Spec.skeleton in *. rewrite !length_map in *. exact S.
Qed.

(** X7.  Every input record is represented in the output: by a record
    with its key, or by a record whose name is similar to its own at the
    threshold. *)
Theorem deduplicated_covers_input (companies unique : list Company.t) (c : Company.t) :
  deduplicate_companies companies = Py.Ok unique ->
  In c companies ->
  exists r, In r unique /\
    (_get_company_key c = Py.Ok (Laws.key_of r) \/
     (similarity_threshold
        <=? fuzz_ratio (Py.lower (Company.company_name c))
                       (Py.lower (Company.company_name r)))%Z = true).
Proof.
  unfold deduplicate_companies.
  destruct (Py.for_each dedup_step [] companies) as [d|e] eqn:E; cbn;
    [|discriminate].
  intros [= <-] Hin.
  pose proof (for_each_kept companies [] d kept_empty E) as Kd.
  set (Q := fun (pre : list Company.t) (d : list (string * Company.t)) =>
    forall c, In c pre ->
      exists k n, In (k, n) (Spec.skeleton d) /\
        (_get_company_key c = Py.Ok k \/
         (similarity_threshold
            <=? fuzz_ratio (Py.lower (Company.company_name c)) (Py.lower n))%Z
         = true)).
  assert (HQ : Q ([] ++ companies) d).
  { apply (for_each_processed Q) with (d := []);
      [|apply kept_empty|intros ? []|exact E].
    intros pre d0 c0 d' K H0 St x Hx.
    apply in_app_or in Hx.
    destruct (dedup_step_cases d0 c0 d' K St)
      as [(d1 & k & ex & d2 & -> & -> & Why) | (k & Hk & ->)].
    - assert (Sk : Spec.skeleton (d1 ++ (k, _merge_companies ex c0) :: d2)
                   = Spec.skeleton (d1 ++ (k, ex) :: d2)).
      { unfold Spec.skeleton. rewrite !map_app. reflexivity. }
      rewrite Sk. destruct Hx as [Hx | [<- | []]]; [apply H0, Hx|].
      exists k, (Company.company_name ex). split; [|exact Why].
      unfold Spec.skeleton. rewrite map_app. apply in_or_app. right. left.
      reflexivity.
    - unfold Spec.skeleton. rewrite map_app. cbn.
      destruct Hx as [Hx | [<- | []]].
      + destruct (H0 _ Hx) as (k' & n & I & W). exists k', n.
        split; [apply in_or_app; left; exact I | exact W].
      + exists k, (Company.company_name c0).
        split; [apply in_or_app; right; left; reflexivity | left; exact Hk]. }
  destruct (HQ c Hin) as (k & n & I & W).
  unfold Spec.skeleton in I. apply in_map_iff in I as ([k' r] & [= <- <-] & I).
  exists r. split.
  - unfold Py.dict_values. apply in_map_iff. exists (k', r). auto.
  - rewrite (kept_key_of d k' r Kd I). exact W.
Qed.
End DedupMore.

(** "Acme" is merged into "Acme Corp" by similar name; two keys remain. *)
Lemma deduplicated_keys_distinct_witness :
  exists unique,
    @Deduplicator.deduplicate_companies Sample.prefix_matcher
      [Sample.acme; Sample.acme_again; Sample.globex] = Py.Ok unique /\
    NoDup (map Laws.key_of unique).
Proof.
  eexists. split; [vm_compute; reflexivity|].
  apply (@deduplicated_keys_distinct Sample.prefix_matcher
           [Sample.acme; Sample.acme_again; Sample.globex]).
  vm_compute. reflexivity.
Defined.

Lemma deduplicated_first_seen_order_witness :
  exists unique,
    @Deduplicator.deduplicate_companies Sample.prefix_matcher
      [Sample.acme; Sample.acme_again; Sample.globex] = Py.Ok unique /\
    sublist (map Company.company_name unique)
            ["Acme Corp"; "Acme"; "Globex"] /\
    length unique <= 3.
Proof.
  eexists. split; [vm_compute; reflexivity|].
  apply (@deduplicated_first_seen_order Sample.prefix_matcher
           [Sample.acme; Sample.acme_again; Sample.globex]).
  vm_compute. reflexivity.
Defined.

(** "Acme" is represented by the record named "Acme Corp". *)
Lemma deduplicated_covers_input_witness :
  exists unique,
    @Deduplicator.deduplicate_companies Sample.prefix_matcher
      [Sample.acme; Sample.acme_again; Sample.globex] = Py.Ok unique /\
    exists r, In r unique /\
      (Deduplicator._get_company_key Sample.acme_again
       = Py.Ok (Laws.key_of r) \/
       (Deduplicator.similarity_threshold
          <=? @fuzz_ratio Sample.prefix_matcher
                (Py.lower (Company.company_name Sample.acme_again))
                (Py.lower (Company.company_name r)))%Z = true).
Proof.
  eexists. split; [vm_compute; reflexivity|].
  apply (@deduplicated_covers_input Sample.prefix_matcher
           [Sample.acme; Sample.acme_again; Sample.globex]).
  - vm_compute. reflexivity.
  - right. left. reflexivity.
Defined.

Section DedupKeeps.
Import Deduplicator.
Context `{FuzzyMatcher}.
Implicit Types (d : list (string * Company.t)) (c : Company.t).

Lemma in_emails_of (e : string) (l : list Company.t) :
  In e (Laws.emails_of l) <->
  exists c a, In c l /\ In a (Company.contacts c) /\
              Contact.email a = Some e /\ e <> "".
Proof.
  unfold Laws.emails_of. rewrite in_concat. split.
  - intros (es & Hes & He). apply in_map_iff in Hes as (c & <- & Hc).
    apply list_elem_of_In, list_elem_of_omap in He as (a & Ha & E).
    apply list_elem_of_In in Ha.
    destruct (Contact.email a) as [e'|] eqn:Ea; cbn in E; [|discriminate].
    destruct (String.eqb_spec e' ""); cbn in E; [discriminate|].
    injection E as <-. exists c, a. auto.
  - intros (c & a & Hc & Ha & Ea & Hne).
    eexists. split; [apply in_map_iff; exists c; split; [reflexivity|exact Hc]|].
    apply list_elem_of_In, list_elem_of_omap. exists a.
    split; [apply list_elem_of_In, Ha|].
    rewrite Ea. cbn. destruct (String.eqb_spec e ""); [contradiction|reflexivity].
Qed.

(** A merge keeps every non-empty email of both records. *)
Lemma merge_keeps_emails (A B : Company.t) (e : string) :
  In e (Laws.emails_of [A]) \/ In e (Laws.emails_of [B]) ->
  In e (Laws.emails_of [_merge_companies A B]).
Proof.
  rewrite !in_emails_of.
  intros [(c & a & [<-|[]] & Ha & Ea & Hne) | (c & b & [<-|[]] & Hb & Eb & Hne)].
  - exists (_merge_companies A B), a. rewrite merge_contacts.
    split; [left; reflexivity|]. split; [apply in_or_app; auto | auto].
  - destruct (Spec.email_is_new (Company.contacts A) b) eqn:N.
    + exists (_merge_companies A B), b. rewrite merge_contacts.
      split; [left; reflexivity|].
      split; [apply in_or_app; right; apply filter_In; auto | auto].
    + unfold Spec.email_is_new in N. rewrite Eb in N.
      apply orb_false_iff in N as [_ N]. apply negb_false_iff in N.
      apply existsb_exists in N as (a & Ha & E).
      destruct (Contact.email a) as [e'|] eqn:Ea; [|discriminate].
      apply String.eqb_eq in E. subst e'.
      exists (_merge_companies A B), a. rewrite merge_contacts.
      split; [left; reflexivity|]. split; [apply in_or_app; auto | auto].
Qed.

(** A merge keeps every provenance tag of both records. *)
Lemma merge_keeps_sources (A B : Company.t) (x : string) :
  In x (Company.source (_merge_companies A B)) <->
  In x (Company.source A) \/ In x (Company.source B).
Proof.
  cbn. rewrite <- list_elem_of_In, elem_of_elements, elem_of_list_to_set,
               list_elem_of_In. apply in_app_iff.
Qed.

Lemma emails_of_app (l1 l2 : list Company.t) :
  Laws.emails_of (l1 ++ l2) = Laws.emails_of l1 ++ Laws.emails_of l2.
Proof. unfold Laws.emails_of. rewrite map_app, concat_app. reflexivity. Qed.

Lemma sources_of_app (l1 l2 : list Company.t) :
  Laws.sources_of (l1 ++ l2) = Laws.sources_of l1 ++ Laws.sources_of l2.
Proof. unfold Laws.sources_of. rewrite map_app, concat_app. reflexivity. Qed.

Lemma values_app d1 d2 :
  Py.dict_values (d1 ++ d2) = Py.dict_values d1 ++ Py.dict_values d2.
Proof. apply map_app. Qed.

(** X8.  Deduplication loses no contact email and no provenance tag: each
    non-empty email of a contact of an input record is the email of a
    contact of an output record, and each source tag of an input record is
    a source tag of an output record. *)
Theorem deduplicated_keeps_emails_and_sources
    (companies unique : list Company.t) :
  deduplicate_companies companies = Py.Ok unique ->
  (forall e, In e (Laws.emails_of companies) -> In e (Laws.emails_of unique)) /\
  (forall x, In x (Laws.sources_of companies) -> In x (Laws.sources_of unique)).
Proof.
  unfold deduplicate_companies.
  destruct (Py.for_each dedup_step [] companies) as [d|e] eqn:E; cbn;
    [|discriminate].
  intros [= <-].
  set (Q := fun (pre : list Company.t) (d : list (string * Company.t)) =>
    (forall e, In e (Laws.emails_of pre) ->
               In e (Laws.emails_of (Py.dict_values d))) /\
    (forall x, In x (Laws.sources_of pre) ->
               In x (Laws.sources_of (Py.dict_values d)))).
  change (Q ([] ++ companies) d).
  apply (for_each_processed Q) with (d := []);
    [|apply kept_empty|split; intros ? []|exact E].
  intros pre d0 c d' K [He Hs] St.
  destruct (dedup_step_cases d0 c d' K St)
    as [(d1 & k & ex & d2 & -> & -> & _) | (k & _ & ->)].
  - change ((k, _merge_companies ex c) :: d2)
      with ([(k, _merge_companies ex c)] ++ d2).
    change ((k, ex) :: d2) with ([(k, ex)] ++ d2) in He, Hs.
    split.
    + intros e0. rewrite emails_of_app, in_app_iff.
      rewrite !values_app, !emails_of_app, !in_app_iff.
      intros [Hp | Hc].
      * apply He in Hp.
        rewrite !values_app, !emails_of_app, !in_app_iff in Hp.
        destruct Hp as [I | [I | I]]; auto.
        right. left. apply merge_keeps_emails. left. exact I.
      * right. left. apply merge_keeps_emails. right. exact Hc.
    + assert (M : forall y, In y (Laws.sources_of [ex]) \/
                            In y (Laws.sources_of [c]) ->
                            In y (Laws.sources_of
                                    (Py.dict_values
                                       [(k, _merge_companies ex c)]))).
      { intros y. unfold Laws.sources_of. cbn. rewrite !app_nil_r.
        apply merge_keeps_sources. }
      intros x. rewrite sources_of_app, in_app_iff.
      rewrite !values_app, !sources_of_app, !in_app_iff.
      intros [Hp | Hc].
      * apply Hs in Hp.
        rewrite !values_app, !sources_of_app, !in_app_iff in Hp.
        destruct Hp as [I | [I | I]]; auto.
      * auto.
  - split.
    + intros e0. rewrite values_app, !emails_of_app, !in_app_iff.
      intros [Hp | Hc]; [left; apply He, Hp | right; exact Hc].
    + intros x. rewrite values_app, !sources_of_app, !in_app_iff.
      intros [Hp | Hc]; [left; apply Hs, Hp | right; exact Hc].
Qed.

(** X9.  The result of the fuzzy search is tested for truthiness: when the
    similar record is stored under the empty key, the incoming record is
    not merged into it but appended as a new record. *)
Theorem similar_under_empty_key_not_merged d c k :
  _get_company_key c = Py.Ok k -> Py.dict_get k d = None ->
  _find_similar_company c d = Some "" ->
  dedup_step d c = Py.Ok (d ++ [(k, c)]).
Proof.
  intros Hk E F. unfold dedup_step. rewrite Hk. cbn. rewrite E, F. cbn.
  rewrite dict_set_new by exact E. reflexivity.
Qed.
End DedupKeeps.

(** The email of the contact of "Acme" survives in the merged record. *)
Lemma deduplicated_keeps_emails_and_sources_witness :
  exists unique,
    @Deduplicator.deduplicate_companies Sample.prefix_matcher
      [Sample.acme; Sample.acme_again; Sample.globex] = Py.Ok unique /\
    In "taylor.brown@acme.com" (Laws.emails_of unique) /\
    In "Google Search Jobs" (Laws.sources_of unique).
Proof.
  eexists. split; [vm_compute; reflexivity|].
  destruct (@deduplicated_keeps_emails_and_sources Sample.prefix_matcher
              [Sample.acme; Sample.acme_again; Sample.globex] _
              ltac:(vm_compute; reflexivity)) as [Emails Sources].
  split; [apply Emails | apply Sources]; cbn; auto.
Defined.

(** A nameless record without a domain is stored under the empty key, and
    the toy similarity rates every name against the empty name at 90. *)
Lemma similar_under_empty_key_not_merged_witness :
  let nameless :=
    Sample.with_domain (Sample.company "" "" "" "" 0 []) None in
  @Deduplicator.dedup_step Sample.prefix_matcher [("", nameless)] Sample.acme
  = Py.Ok ([("", nameless)] ++ [("acmecorp.com", Sample.acme)]).
Proof.
  cbv zeta.
  apply (@similar_under_empty_key_not_merged Sample.prefix_matcher);
    reflexivity.
Defined.

(** ** Attribute Estimator: the tech stack *)

Section TechStack.
Import SmartCompanyEnricher.

Lemma append_if_app {A} (b : bool) (x : A) (l : list A) :
  Py.append_if b x l = l ++ (if b then [x] else []).
Proof. destruct b; cbn; [reflexivity | rewrite app_nil_r; reflexivity]. Qed.

Lemma append_if_sublist {A} (b : bool) (x : A) (l pre : list A) :
  sublist l pre -> sublist (Py.append_if b x l) (pre ++ [x]).
Proof.
  intros S. destruct b; cbn.
  - apply sublist_app; [exact S | reflexivity].
  - apply sublist_inserts_r. exact S.
Qed.

(** X10.  The inferred tech stack has at most five entries, all taken from
    the twelve known technologies, in the order of the checks and without
    repetition. *)
Theorem tech_stack_capped_ordered (job_title : string) :
  sublist (_infer_tech_stack job_title) Laws.known_technologies /\
  NoDup (_infer_tech_stack job_title) /\
  length (_infer_tech_stack job_title) <= 5.
Proof.
  assert (S : sublist (_infer_tech_stack job_title) Laws.known_technologies).
  { unfold _infer_tech_stack. etransitivity; [apply sublist_take|].
    change Laws.known_technologies
      with ((((((((((((([] : list string) ++ ["Python"]) ++ ["Java"])
             ++ ["JavaScript"]) ++ ["SQL"]) ++ ["R"]) ++ ["AWS"])
             ++ ["Azure"]) ++ ["GCP"]) ++ ["Snowflake"]) ++ ["Databricks"])
             ++ ["Apache Spark"]) ++ ["Containers"]).
    repeat apply append_if_sublist. constructor. }
  split; [exact S|]. split.
  - eapply sublist_NoDup; [|exact S].
    unfold Laws.known_technologies.
    apply (bool_decide_unpack _). vm_compute. exact I.
  - unfold _infer_tech_stack. rewrite length_firstn. lia.
Qed.

Lemma in_firstn_early {A} (x : A) (front back : list A) (n : nat) :
  length front < n -> In x (firstn n (front ++ x :: back)).
Proof.
  revert n. induction front as [|y front IH]; intros n Hn; cbn in *.
  - destruct n; [lia | left; reflexivity].
  - destruct n; [lia|]. cbn. right. apply IH. lia.
Qed.

Lemma append_if_length {A} (b : bool) (x : A) (l : list A) :
  length (Py.append_if b x l) <= S (length l).
Proof. destruct b; cbn; [rewrite length_app; cbn; lia | lia]. Qed.

Lemma prefix_trans (a b c : string) :
  String.prefix a b = true -> String.prefix b c = true ->
  String.prefix a c = true.
Proof.
  revert b c. induction a as [|x a IH]; intros b c;
    [intros _ _; destruct c; reflexivity|].
  destruct b as [|y b]; [discriminate|]. destruct c as [|z c]; [discriminate|].
  cbn. destruct (ascii_dec x y) as [->|]; [|discriminate].
  destruct (ascii_dec y z) as [->|]; [|discriminate].
  destruct (ascii_dec z z); [|contradiction]. apply IH.
Qed.

Lemma contains_nil (needle : string) :
  Py.contains needle "" = String.prefix needle "".
Proof. cbn. apply orb_false_r. Qed.

Lemma contains_cons (needle : string) (a : ascii) (hay : string) :
  Py.contains needle (String a hay)
  = String.prefix needle (String a hay) || Py.contains needle hay.
Proof. reflexivity. Qed.

(** Whatever contains a word contains each of its prefixes. *)
Lemma contains_prefix (short long hay : string) :
  String.prefix short long = true ->
  Py.contains long hay = true -> Py.contains short hay = true.
Proof.
  intros P. induction hay as [|a hay IH].
  - rewrite !contains_nil. intros L. eapply prefix_trans; eassumption.
  - rewrite !contains_cons. intros C. apply orb_true_iff in C as [L | C].
    + rewrite (prefix_trans _ _ _ P L). reflexivity.
    + rewrite (IH C). apply orb_true_r.
Qed.

(** X11.  The checks are substring tests on the lower-cased title, so a
    title with the letter "r" anywhere yields "R", and a title that
    mentions JavaScript yields "Java" as well as "JavaScript". *)
Theorem tech_stack_substring_hits (job_title : string) :
  (Py.contains "r" (Py.lower job_title) = true ->
   In "R" (_infer_tech_stack job_title)) /\
  (Py.contains "javascript" (Py.lower job_title) = true ->
   In "Java" (_infer_tech_stack job_title) /\
   In "JavaScript" (_infer_tech_stack job_title)).
Proof.
  unfold _infer_tech_stack.
  set (t := Py.lower job_title).
  rewrite !append_if_app. cbn [app].
  set (py := if any_in ["python"; "py"] t then _ else _).
  set (java := if any_in ["java"] t then _ else _).
  set (js := if any_in ["javascript"; "js"; "node"] t then _ else _).
  set (sql := if any_in ["sql"] t then _ else _).
  split.
  - intros R.
    assert (E : any_in ["r"] t = true) by (cbn; rewrite R; reflexivity).
    rewrite E. rewrite <- !app_assoc.
    replace (py ++ java ++ js ++ sql ++ ["R"] ++ _)
      with ((py ++ java ++ js ++ sql) ++ "R" :: 
            ((if any_in ["aws"; "amazon web services"] t then ["AWS"] else []) ++
             (if any_in ["azure"] t then ["Azure"] else []) ++
             (if any_in ["gcp"; "google cloud"] t then ["GCP"] else []) ++
             (if any_in ["snowflake"] t then ["Snowflake"] else []) ++
             (if any_in ["databricks"] t then ["Databricks"] else []) ++
             (if any_in ["spark"] t then ["Apache Spark"] else []) ++
             (if any_in ["docker"; "kubernetes"; "k8s"] t then ["Containers"] else [])))
      by (rewrite <- !app_assoc; reflexivity).
    apply in_firstn_early. rewrite !length_app.
    subst py java js sql.
    repeat match goal with |- context [if ?b then _ else _] => destruct b end;
      cbn; lia.
  - intros J.
    assert (Ej : any_in ["java"] t = true).
    { cbn. rewrite (contains_prefix "java" "javascript" t eq_refl J).
      reflexivity. }
    assert (Es : any_in ["javascript"; "js"; "node"] t = true)
      by (cbn; rewrite J; reflexivity).
    subst java js. rewrite Ej, Es. rewrite <- !app_assoc. cbn [app].
    split.
    + apply in_firstn_early. subst py.
      destruct (any_in ["python"; "py"] t); cbn; lia.
    + replace (py ++ "Java" :: "JavaScript" :: _)
        with ((py ++ ["Java"]) ++ "JavaScript" :: (sql ++
            (if any_in ["r"] t then ["R"] else []) ++
            (if any_in ["aws"; "amazon web services"] t then ["AWS"] else []) ++
            (if any_in ["azure"] t then ["Azure"] else []) ++
            (if any_in ["gcp"; "google cloud"] t then ["GCP"] else []) ++
            (if any_in ["snowflake"] t then ["Snowflake"] else []) ++
            (if any_in ["databricks"] t then ["Databricks"] else []) ++
            (if any_in ["spark"] t then ["Apache Spark"] else []) ++
            (if any_in ["docker"; "kubernetes"; "k8s"] t then ["Containers"] else [])))
        by (rewrite <- !app_assoc; reflexivity).
      apply in_firstn_early. rewrite length_app. subst py.
      destruct (any_in ["python"; "py"] t); cbn; lia.
Qed.
End TechStack.

(** ** Attribute Estimator: what it leaves behind *)

Section EstimatorMore.
Import SmartCompanyEnricher.
Context {G : Type} `{RandomSource G}.
Hypothesis Lawful : Laws.lawful.

Lemma choice_in (seq : list string) (g : G) :
  seq <> [] -> In (fst (choice seq g)) seq.
Proof.
  intros Hne. unfold choice.
  pose proof (proj2 Lawful (length seq) g) as B.
  destruct (randbelow (length seq) g) as [i g']. cbn in *.
  apply nth_In. apply B. destruct seq; [contradiction | cbn; lia].
Qed.

Lemma estimate_employee_count_range (company_name job_title : string) (g : G) :
  (10 <= fst (_estimate_employee_count company_name job_title g) <= 50000)%Z.
Proof.
  unfold _estimate_employee_count. pose proof (proj1 Lawful) as R.
  repeat match goal with |- context [if ?b then _ else _] => destruct b end;
  match goal with |- context [randint ?a ?b ?g] =>
    pose proof (R a b g ltac:(lia)) end; lia.
Qed.

Lemma estimate_revenue_range (employee_count : Z) (company_name : string) (g : G) :
  exists per_employee : Z,
    (100000 <= per_employee <= 500000)%Z /\
    fst (_estimate_revenue employee_count company_name g)
    = inject_Z (employee_count * per_employee).
Proof.
  unfold _estimate_revenue. pose proof (proj1 Lawful) as R.
  repeat match goal with |- context [if ?b then _ else _] => destruct b end;
  match goal with |- context [randint ?a ?b ?g] =>
    pose proof (R a b g ltac:(lia)); destruct (randint a b g) as [r g'] end;
  cbn in *; (exists r; split; [lia | reflexivity]).
Qed.

Lemma estimate_funding_stage_values (company_name : string) (n : Z) (g : G) :
  In (fst (_estimate_funding_stage company_name n g))
     ["Public"; "Series E+"; "Series D"; "Series E"; "Private Equity";
      "Series B"; "Series C"; "Series A"; "Seed"; "Bootstrapped"].
Proof.
  unfold _estimate_funding_stage.
  repeat match goal with |- context [if (?a <? ?b)%Z then _ else _] =>
    destruct (a <? b)%Z end.
  - destruct (random g) as [r g']. cbn. destruct (Py.gt r 0.3); cbn; auto.
  - pose proof (choice_in ["Series D"; "Series E"; "Private Equity"] g
                  ltac:(discriminate)) as I. cbn in I |- *. intuition.
  - pose proof (choice_in ["Series B"; "Series C"] g ltac:(discriminate)) as I.
    cbn in I |- *. intuition.
  - pose proof (choice_in ["Series A"; "Series B"] g ltac:(discriminate)) as I.
    cbn in I |- *. intuition.
  - pose proof (choice_in ["Seed"; "Series A"; "Bootstrapped"] g
                  ltac:(discriminate)) as I. cbn in I |- *. intuition.
Qed.

(** The record the estimator returns, field by field: the drawn employee
    count [n], revenue [r] and funding stage [stage] are used only where
    the record had a gap. *)
Lemma enrich_company_fields (company : Company.t) (g : G) :
  exists (n : Z) (r : Q) (stage : string) (g' : G),
    enrich_company company g =
      (Company.mk
         (Company.company_name company)
         (Company.domain company)
         (if Py.truthy_num (Company.revenue company)
          then Company.revenue company else Some r)
         (if String.eqb (default "" (Company.industry company)) ""
             || String.eqb (default "" (Company.industry company)) "Technology"
          then Some (_refine_industry
                       (Py.lower (Company.company_name company))
                       (Spec.job_title_of company)
                       (default "" (Company.industry company)))
          else Company.industry company)
         (if Py.truthy_int (Company.employee_count company)
          then Company.employee_count company else Some n)
         (Company.location company)
         (if Py.truthy_str (Company.funding_stage company)
          then Company.funding_stage company else Some stage)
         (if String.eqb (Spec.job_title_of company) ""
          then Company.tech_stack company
          else Some (_infer_tech_stack (Spec.job_title_of company)))
         (Company.contacts company)
         (Company.signals company)
         (Company.source company)
         (Company.confidence company)
         (Some true),
       g') /\
    (10 <= n <= 50000)%Z /\
    (exists per_employee : Z,
       (100000 <= per_employee <= 500000)%Z /\
       r = inject_Z
             ((if Py.truthy_int (Company.employee_count company)
               then default 100%Z (Company.employee_count company) else n)
              * per_employee)) /\
    In stage ["Public"; "Series E+"; "Series D"; "Series E"; "Private Equity";
              "Series B"; "Series C"; "Series A"; "Seed"; "Bootstrapped"] /\
    (Py.truthy_int (Company.employee_count company) = true ->
     In stage ["Series A"; "Series B"]) /\
    (Py.truthy_int (Company.employee_count company) = true ->
     Py.truthy_num (Company.revenue company) = true ->
     Py.truthy_str (Company.funding_stage company) = true -> g' = g).
Proof.
  unfold enrich_company, _estimate_from_job_data.
  fold (Spec.job_title_of company).
  set (name := Py.lower (Company.company_name company)).
  set (title := Spec.job_title_of company).
  (* the three draws, each from the generator the previous one left *)
  pose proof (estimate_employee_count_range name title g) as Rn.
  destruct (_estimate_employee_count name title g) as [n0 g1] eqn:En.
  cbn [fst] in Rn.
  destruct (Py.truthy_int (Company.employee_count company)) eqn:Te; cbn [negb].
  - (* employee count populated *)
    set (ec := first_truthy_or (Enriched.employee_count Enriched.empty)
                               (Company.employee_count company) 100).
    assert (Hec : ec = default 100%Z (Company.employee_count company)).
    { unfold ec, first_truthy_or. cbn. rewrite Te. reflexivity. }
    destruct (estimate_revenue_range ec name g) as (per & Bper & Er).
    destruct (_estimate_revenue ec name g) as [r0 g2] eqn:Erev.
    cbn [fst] in Er.
    destruct (Py.truthy_num (Company.revenue company)) eqn:Tr; cbn [negb].
    + pose proof (estimate_funding_stage_values name 100 g) as Is.
      assert (Iab : In (fst (_estimate_funding_stage name 100 g))
                       ["Series A"; "Series B"]).
      { unfold _estimate_funding_stage. cbn.
        apply (choice_in ["Series A"; "Series B"]). discriminate. }
      destruct (String.eqb (default "" (Company.industry company)) ""
                || String.eqb (default "" (Company.industry company)) "Technology");
      destruct (Py.truthy_str (Company.funding_stage company)) eqn:Tf;
      destruct (String.eqb title "") eqn:Tj; cbn [negb];
      cbn [Enriched.employee_count Enriched.empty Enriched.set_industry
           Enriched.set_revenue default from_option id] in *;
      destruct (_estimate_funding_stage name 100 g) as [s0 g3];
      cbn [fst] in *;
      (exists n0, (inject_Z (ec * per)), s0);
      eexists; (split; [cbn; reflexivity|]);
      (split; [exact Rn|]); (split; [exists per; rewrite Hec; auto|]);
      (split; [exact Is|]); (split; [intros _; exact Iab|]);
      first [intros _ _ _; reflexivity | intros; discriminate].
    + pose proof (estimate_funding_stage_values name 100 g2) as Is.
      assert (Iab : In (fst (_estimate_funding_stage name 100 g2))
                       ["Series A"; "Series B"]).
      { unfold _estimate_funding_stage. cbn.
        apply (choice_in ["Series A"; "Series B"]). discriminate. }
      destruct (String.eqb (default "" (Company.industry company)) ""
                || String.eqb (default "" (Company.industry company)) "Technology");
      destruct (Py.truthy_str (Company.funding_stage company)) eqn:Tf;
      destruct (String.eqb title "") eqn:Tj; cbn [negb];
      cbn [Enriched.employee_count Enriched.empty Enriched.set_industry
           Enriched.set_revenue default from_option id] in *;
      destruct (_estimate_funding_stage name 100 g2) as [s0 g3];
      cbn [fst] in *;
      (exists n0, r0, s0);
      eexists; (split; [cbn; reflexivity|]);
      (split; [exact Rn|]); (split; [exists per; rewrite <- Hec; auto|]);
      (split; [exact Is|]); (split; [intros _; exact Iab|]);
      intros; discriminate.
  - (* employee count estimated *)
    set (ec := first_truthy_or
                 (Enriched.employee_count
                    (Enriched.set_employee_count Enriched.empty n0))
                 (Company.employee_count company) 100).
    assert (Hec : ec = n0).
    { unfold ec, first_truthy_or. cbn.
      destruct (Z.eqb_spec n0 0); [lia | reflexivity]. }
    destruct (estimate_revenue_range ec name g1) as (per & Bper & Er).
    destruct (_estimate_revenue ec name g1) as [r0 g2] eqn:Erev.
    cbn [fst] in Er.
    destruct (Py.truthy_num (Company.revenue company)) eqn:Tr; cbn [negb].
    + pose proof (estimate_funding_stage_values name n0 g1) as Is.
      destruct (String.eqb (default "" (Company.industry company)) ""
                || String.eqb (default "" (Company.industry company)) "Technology");
      destruct (Py.truthy_str (Company.funding_stage company)) eqn:Tf;
      destruct (String.eqb title "") eqn:Tj; cbn [negb];
      cbn [Enriched.employee_count Enriched.empty Enriched.set_industry
           Enriched.set_revenue Enriched.set_employee_count
           default from_option id] in *;
      destruct (_estimate_funding_stage name n0 g1) as [s0 g3];
      cbn [fst] in *;
      (exists n0, (inject_Z (n0 * per)), s0);
      eexists; (split; [cbn; reflexivity|]);
      (split; [exact Rn|]); (split; [exists per; auto|]);
      (split; [exact Is|]); split; intros; discriminate.
    + pose proof (estimate_funding_stage_values name n0 g2) as Is.
      destruct (String.eqb (default "" (Company.industry company)) ""
                || String.eqb (default "" (Company.industry company)) "Technology");
      destruct (Py.truthy_str (Company.funding_stage company)) eqn:Tf;
      destruct (String.eqb title "") eqn:Tj; cbn [negb];
      cbn [Enriched.employee_count Enriched.empty Enriched.set_industry
           Enriched.set_revenue Enriched.set_employee_count
           default from_option id] in *;
      destruct (_estimate_funding_stage name n0 g2) as [s0 g3];
      cbn [fst] in *;
      (exists n0, r0, s0);
      eexists; (split; [cbn; reflexivity|]);
      (split; [exact Rn|]); (split; [exists per; rewrite <- Hec; auto|]);
      (split; [exact Is|]); split; intros; discriminate.
Qed.

Lemma industry_of_job_values (job_title i : string) :
  industry_of_job job_industry_map job_title = Some i ->
  In i ["Data"; "Ai Ml"; "Software"; "Cloud"; "Fintech"; "Healthcare"].
Proof.
  unfold job_industry_map. cbn [industry_of_job].
  repeat match goal with |- context [if any_in ?k ?t then _ else _] =>
    destruct (any_in k t) end;
  intros [= <-]; vm_compute; tauto.
Qed.

Lemma refine_industry_nonempty (company_name job_title current : string) :
  _refine_industry company_name job_title current <> "".
Proof.
  unfold _refine_industry.
  destruct (industry_of_job job_industry_map job_title) as [i|] eqn:E.
  - apply industry_of_job_values in E. cbn in E.
    intuition (subst; discriminate).
  - repeat match goal with |- context [if any_in ?k ?t then _ else _] =>
      destruct (any_in k t) end; try discriminate.
    destruct (String.eqb_spec current ""); [discriminate | assumption].
Qed.

(** Once the estimator has answered "Technology" it answers it again. *)
Lemma refine_industry_stable (company_name job_title current : string) :
  _refine_industry company_name job_title current = "Technology" ->
  _refine_industry company_name job_title "Technology" = "Technology".
Proof.
  unfold _refine_industry.
  destruct (industry_of_job job_industry_map job_title) as [i|] eqn:E.
  - apply industry_of_job_values in E. cbn in E.
    intuition (subst; discriminate).
  - repeat match goal with |- context [if any_in ?k ?t then _ else _] =>
      destruct (any_in k t) end; try discriminate.
    reflexivity.
Qed.

Lemma truthy_product (e per : Z) :
  e <> 0%Z -> (100000 <= per)%Z -> Py.truthy_num (Some (inject_Z (e * per))) = true.
Proof.
  intros He Hp. cbn. apply negb_true_iff, not_true_iff_false.
  rewrite Qeq_bool_iff. unfold Qeq. cbn. nia.
Qed.

Lemma truthy_int_value (o : option Z) :
  Py.truthy_int o = true -> exists e, o = Some e /\ e <> 0%Z.
Proof.
  destruct o as [e|]; cbn; [|discriminate]. intros T. exists e.
  split; [reflexivity|]. apply negb_true_iff, Z.eqb_neq in T. exact T.
Qed.

(** After the estimator each of the four estimated fields is truthy. *)
Lemma employee_count_truthy_after (company : Company.t) (g : G) :
  Py.truthy_int (Company.employee_count (fst (enrich_company company g)))
  = true.
Proof.
  destruct (enrich_company_fields company g)
    as (n & r & stage & g' & -> & Rn & _).
  cbn [fst Company.employee_count].
  destruct (Py.truthy_int (Company.employee_count company)) eqn:T;
    [exact T|]. cbn. apply negb_true_iff, Z.eqb_neq. lia.
Qed.

Lemma revenue_truthy_after (company : Company.t) (g : G) :
  Py.truthy_num (Company.revenue (fst (enrich_company company g))) = true.
Proof.
  destruct (enrich_company_fields company g)
    as (n & r & stage & g' & -> & Rn & (per & Bper & Er) & _).
  cbn [fst Company.revenue].
  destruct (Py.truthy_num (Company.revenue company)) eqn:T; [exact T|].
  subst r. apply truthy_product; [|lia].
  destruct (Py.truthy_int (Company.employee_count company)) eqn:Te; [|lia].
  apply truthy_int_value in Te as (e & -> & He). exact He.
Qed.

Lemma funding_stage_truthy_after (company : Company.t) (g : G) :
  Py.truthy_str (Company.funding_stage (fst (enrich_company company g)))
  = true.
Proof.
  destruct (enrich_company_fields company g)
    as (n & r & stage & g' & -> & _ & _ & Is & _).
  cbn [fst Company.funding_stage].
  destruct (Py.truthy_str (Company.funding_stage company)) eqn:T;
    [exact T|]. cbn in Is. intuition (subst; reflexivity).
Qed.

Lemma industry_truthy_after (company : Company.t) (g : G) :
  Py.truthy_str (Company.industry (fst (enrich_company company g))) = true.
Proof.
  destruct (enrich_company_fields company g)
    as (n & r & stage & g' & -> & _).
  cbn [fst Company.industry].
  destruct (_ || _) eqn:Gen.
  - cbn. apply negb_true_iff, String.eqb_neq, refine_industry_nonempty.
  - apply orb_false_iff in Gen as [E _].
    destruct (Company.industry company) as [s|]; cbn in *;
      [rewrite E; reflexivity | discriminate].
Qed.

(** X12.  With a generator that honours the contract of [random], a record
    leaves the estimator with a non-falsy employee count, revenue, funding
    stage and industry, whatever it entered with. *)
Theorem estimator_fills_every_gap (company : Company.t) (g : G) :
  let c' := fst (enrich_company company g) in
  Py.truthy_int (Company.employee_count c') = true /\
  Py.truthy_num (Company.revenue c') = true /\
  Py.truthy_str (Company.funding_stage c') = true /\
  Py.truthy_str (Company.industry c') = true.
Proof.
  cbv zeta. split; [apply employee_count_truthy_after|].
  split; [apply revenue_truthy_after|].
  split; [apply funding_stage_truthy_after | apply industry_truthy_after].
Qed.

(** X13.  With the same contract, a record with a populated employee count
    and no funding stage leaves with the stage "Series A" or "Series B",
    whatever its size: the stage is estimated from the estimator's own
    employee count, which is absent, hence from the default 100. *)
Theorem funding_stage_ignores_known_size (company : Company.t) (g : G) :
  Py.truthy_int (Company.employee_count company) = true ->
  Py.truthy_str (Company.funding_stage company) = false ->
  let stage := Company.funding_stage (fst (enrich_company company g)) in
  stage = Some "Series A" \/ stage = Some "Series B".
Proof.
  intros Te Tf.
  destruct (enrich_company_fields company g)
    as (n & r & stage & g' & -> & _ & _ & _ & Iab & _).
  cbn [fst Company.funding_stage]. rewrite Tf.
  specialize (Iab Te). cbn in Iab. intuition (subst; auto).
Qed.

(** X14.  With the same contract, an estimated employee count lies between
    10 and 50000, and an estimated revenue is the employee count the
    record leaves with times a per-employee figure between 100000 and
    500000. *)
Theorem estimates_in_range (company : Company.t) (g : G) :
  let c' := fst (enrich_company company g) in
  (Py.truthy_int (Company.employee_count company) = false ->
   exists n, Company.employee_count c' = Some n /\ (10 <= n <= 50000)%Z) /\
  (Py.truthy_num (Company.revenue company) = false ->
   exists e per_employee,
     Company.employee_count c' = Some e /\
     (100000 <= per_employee <= 500000)%Z /\
     Company.revenue c' = Some (inject_Z (e * per_employee))).
Proof.
  destruct (enrich_company_fields company g)
    as (n & r & stage & g' & -> & Rn & (per & Bper & Er) & _).
  cbn [fst Company.employee_count Company.revenue]. split.
  - intros ->. eauto.
  - intros ->.
    destruct (Py.truthy_int (Company.employee_count company)) eqn:Te.
    + apply truthy_int_value in Te as (e & Ee & _). rewrite Ee in *.
      exists e, per. cbn in Er. subst r. auto.
    + exists n, per. subst r. auto.
Qed.

(** X15.  With the same contract, running the estimator on a record it
    returned changes nothing and draws no random number. *)
Theorem estimator_idempotent (company : Company.t) (g g2 : G) :
  enrich_company (fst (enrich_company company g)) g2
  = (fst (enrich_company company g), g2).
Proof.
  pose proof (employee_count_truthy_after company g) as T1.
  pose proof (revenue_truthy_after company g) as T2.
  pose proof (funding_stage_truthy_after company g) as T3.
  destruct (enrich_company_fields company g)
    as (n & r & stage & g' & E & _).
  rewrite E in *. cbn [fst] in *.
  match goal with |- enrich_company ?c _ = _ => set (c' := c) in * end.
  destruct (enrich_company_fields c' g2)
    as (n2 & r2 & stage2 & g2' & E2 & _ & _ & _ & _ & Same).
  rewrite E2. rewrite (Same T1 T2 T3). rewrite T1, T2, T3.
  assert (Title : Spec.job_title_of c' = Spec.job_title_of company)
    by reflexivity.
  rewrite Title.
  f_equal. unfold c' at 14. f_equal.
  - (* industry *)
    destruct (String.eqb (default "" (Company.industry c')) ""
              || String.eqb (default "" (Company.industry c')) "Technology")
      eqn:Gen; [|reflexivity].
    subst c'. cbn [Company.industry Company.company_name] in *.
    destruct (String.eqb (default "" (Company.industry company)) ""
              || String.eqb (default "" (Company.industry company)) "Technology")
      eqn:Gen1.
    + cbn [default from_option id] in Gen |- *.
      apply orb_true_iff in Gen as [Em | Et].
      * apply String.eqb_eq in Em.
        exfalso. exact (refine_industry_nonempty _ _ _ Em).
      * apply String.eqb_eq in Et. rewrite Et.
        rewrite (refine_industry_stable _ _ _ Et). reflexivity.
    + rewrite Gen in Gen1. discriminate.
  - (* tech stack *)
    subst c'. cbn [Company.tech_stack].
    destruct (String.eqb (Spec.job_title_of company) ""); reflexivity.
Qed.
End EstimatorMore.

(** The counting generator keeps the contract. *)
Lemma counting_random_lawful : @Laws.lawful Z Sample.counting_random.
Proof.
  split.
  - intros a b g Hab. cbn.
    pose proof (Z.mod_pos_bound g (b - a + 1) ltac:(lia)). lia.
  - intros n g Hn. cbn.
    pose proof (Z.mod_pos_bound g (Z.of_nat n) ltac:(lia)). lia.
Qed.

(** A record without revenue, head count, industry or funding stage. *)
Lemma estimator_fills_every_gap_witness :
  let c' :=
    fst (@SmartCompanyEnricher.enrich_company Z Sample.counting_random
           (Sample.with_signals Sample.second_half None) 0%Z) in
  Py.truthy_int (Company.employee_count c') = true /\
  Py.truthy_num (Company.revenue c') = true /\
  Py.truthy_str (Company.funding_stage c') = true /\
  Py.truthy_str (Company.industry c') = true.
Proof.
  exact (@estimator_fills_every_gap Z Sample.counting_random
           counting_random_lawful
           (Sample.with_signals Sample.second_half None) 0%Z).
Defined.

(** 1200 employees and an empty funding stage. *)
Lemma funding_stage_ignores_known_size_witness :
  let stage :=
    Company.funding_stage
      (fst (@SmartCompanyEnricher.enrich_company Z Sample.counting_random
              Sample.acme 0%Z)) in
  stage = Some "Series A" \/ stage = Some "Series B".
Proof.
  apply (@funding_stage_ignores_known_size Z Sample.counting_random
           counting_random_lawful Sample.acme 0%Z); reflexivity.
Defined.

Lemma estimates_in_range_witness :
  let c' :=
    fst (@SmartCompanyEnricher.enrich_company Z Sample.counting_random
           Sample.second_half 0%Z) in
  exists n, Company.employee_count c' = Some n /\ (10 <= n <= 50000)%Z.
Proof.
  apply (@estimates_in_range Z Sample.counting_random counting_random_lawful
           Sample.second_half 0%Z). reflexivity.
Defined.

Lemma estimator_idempotent_witness :
  let c' :=
    fst (@SmartCompanyEnricher.enrich_company Z Sample.counting_random
           Sample.acme 0%Z) in
  @SmartCompanyEnricher.enrich_company Z Sample.counting_random c' 7%Z
  = (c', 7%Z).
Proof.
  exact (@estimator_idempotent Z Sample.counting_random counting_random_lawful
           Sample.acme 0%Z 7%Z).
Defined.

(** ** Contact Resolver: further properties *)

Section ResolverMore.
Import HunterClient.

(** A property of the contacts built from the entries that have a
    non-empty email holds of everything the loop returns. *)
Lemma parse_loop_invariant (titles : option (list string))
    (P : Contact.t -> Prop) (entries : list Hunter.email_data) :
  (forall e title c,
     In e entries -> contact_of e title = Py.Ok c ->
     Py.truthy_str (Contact.email c) = true -> P c) ->
  forall contacts parsed,
    Forall P contacts ->
    Py.for_each (parse_step titles) contacts entries = Py.Ok parsed ->
    Forall P parsed.
Proof.
  induction entries as [|e entries IH]; intros HP contacts parsed F;
    cbn [Py.for_each].
  - intros [= <-]. exact F.
  - destruct (parse_step titles contacts e) as [next|] eqn:St;
      cbn [Py.bind]; [|discriminate].
    apply IH; [intros e' title c I; apply HP; right; exact I|].
    revert St. unfold parse_step.
    destruct (get (Hunter.position e) "") as [title|]; [|discriminate].
    destruct (_ && _); [intros [= <-]; exact F|].
    destruct (contact_of e title) as [c|] eqn:C;
      cbn [mbind result_bind Py.bind]; [|discriminate].
    destruct (Py.truthy_str (Contact.email c)) eqn:T; intros [= <-];
      [|exact F].
    apply Forall_app. split; [exact F|]. repeat constructor.
    apply (HP e title c); [left; reflexivity | exact C | exact T].
Qed.

Lemma contact_of_fields (e : Hunter.email_data) (title : string)
    (c : Contact.t) :
  contact_of e title = Py.Ok c ->
  Contact.hunter_verified c = Some true /\
  Contact.confidence c
  = Some (inject_Z (default 0%Z (get (Hunter.confidence e) 0%Z)) / 100)%Q.
Proof.
  unfold contact_of.
  destruct (rescale (Hunter.confidence e)) as [q|] eqn:R;
    cbn [mbind result_bind Py.bind]; [|discriminate].
  intros [= <-]. rewrite (rescale_Ok _ _ R). split; reflexivity.
Qed.

Lemma parsed_real (response : Hunter.response) (titles : option (list string))
    (contacts : list Contact.t) :
  _parse_hunter_contacts response titles = Py.Ok contacts ->
  Forall Laws.real_contact contacts.
Proof.
  rewrite entries_of_parse.
  destruct (Spec.entries_of response) as [entries|];
    [|destruct (get _ _); discriminate].
  destruct (Py.for_each _ _ _) as [parsed|] eqn:L;
    cbn [mbind result_bind Py.bind]; [|discriminate].
  intros [= <-]. apply Forall_take.
  apply (parse_loop_invariant titles Laws.real_contact entries) with (contacts := []);
    [|constructor|exact L].
  intros e title c _ C T. split; [exact T|].
  apply (contact_of_fields e title c C).
Qed.

(** X16.  Every contact the parser returns carries a non-empty email and
    the verified mark, with or without target titles; and when every raw
    confidence of the reply lies between 0 and 100, every returned
    confidence lies between 0 and 1. *)
Theorem parsed_contacts_are_real
    (response : Hunter.response) (titles : option (list string))
    (contacts : list Contact.t) :
  _parse_hunter_contacts response titles = Py.Ok contacts ->
  Forall (fun c => Py.truthy_str (Contact.email c) = true /\
                   Contact.hunter_verified c = Some true)
         contacts /\
  (forall entries,
     Spec.entries_of response = Some entries ->
     Forall (fun e =>
               (0 <= default 0 (get (Hunter.confidence e) 0) <= 100)%Z)
            entries ->
     Forall (fun c => exists q, Contact.confidence c = Some q /\
                                (0 <= q <= 1)%Q)
            contacts).
Proof.
  intros Parsed. split; [apply (parsed_real response titles), Parsed|].
  intros entries He Raw. revert Parsed. rewrite entries_of_parse, He.
  destruct (Py.for_each _ _ _) as [parsed|] eqn:L;
    cbn [mbind result_bind Py.bind]; [|discriminate].
  intros [= <-]. apply Forall_take.
  apply (parse_loop_invariant titles _ entries) with (contacts := []);
    [|constructor|exact L].
  intros e title c I C _. rewrite List.Forall_forall in Raw.
  specialize (Raw e I). eexists.
  split; [apply (contact_of_fields e title c C)|].
  revert Raw. generalize (default 0%Z (get (Hunter.confidence e) 0%Z)).
  intros z Hz. unfold Qle, Qdiv, Qmult, Qinv, inject_Z. cbn. lia.
Qed.
End ResolverMore.

(** The nine entries of the sample reply have confidences between 50 and
    97. *)
Lemma parsed_contacts_are_real_witness :
  exists contacts,
    HunterClient._parse_hunter_contacts Sample.reply (Some Spec.target_titles)
    = Py.Ok contacts /\
    length contacts = 5 /\
    Forall (fun c => Py.truthy_str (Contact.email c) = true /\
                     Contact.hunter_verified c = Some true)
           contacts /\
    Forall (fun c => exists q, Contact.confidence c = Some q /\
                               (0 <= q <= 1)%Q)
           contacts.
Proof.
  eexists. split; [vm_compute; reflexivity|]. split; [reflexivity|].
  match goal with |- Forall _ ?l /\ _ =>
    destruct (parsed_contacts_are_real Sample.reply (Some Spec.target_titles) l
                ltac:(vm_compute; reflexivity)) as [Real Conf]
  end.
  split; [exact Real|]. apply (Conf Sample.entries eq_refl).
  repeat constructor; cbn; lia.
Defined.

Section ResolverWorld.
Import HunterClient.
Context {W : Type} `{ContactDirectory W}.

(** X17.  Without an API key the lookup answers with no contact and does
    not call the directory; with a key, an answer whose status is not 200
    and a failed call both give no contact. *)
Theorem find_emails_failure_modes
    (domain : string) (titles : option (list string)) (w : W) :
  (Py.truthy_str api_key = false -> find_emails domain titles w = ([], w)) /\
  (forall status body w',
     domain_search domain w = (Hunter.Answered status body, w') ->
     status <> 200%Z -> fst (find_emails domain titles w) = []) /\
  (forall w',
     domain_search domain w = (Hunter.Failed, w') ->
     fst (find_emails domain titles w) = []).
Proof.
  unfold find_emails. repeat split.
  - intros ->. reflexivity.
  - intros status body w' E Hs. destruct (negb _); [reflexivity|].
    rewrite E. apply Z.eqb_neq in Hs. rewrite Hs. reflexivity.
  - intros w' E. destruct (negb _); [reflexivity|]. rewrite E. reflexivity.
Qed.

Lemma find_emails_real (domain : string) (titles : option (list string)) (w : W) :
  Forall Laws.real_contact (fst (find_emails domain titles w)).
Proof.
  unfold find_emails. destruct (negb _); [constructor|].
  destruct (domain_search domain w) as [[status body|] w']; [|constructor].
  destruct (status =? 200)%Z; [|constructor].
  destruct (_parse_hunter_contacts body titles) as [contacts|] eqn:P;
    [|constructor].
  exact (parsed_real body titles contacts P).
Qed.

Lemma resolve_contacts_stage (company : Company.t) (w : W) :
  Laws.resolved_by_stage company (fst (resolve_contacts company w)).
Proof.
  unfold resolve_contacts, Laws.resolved_by_stage.
  destruct (_ || _); [destruct company; cbn; auto|].
  match goal with |- context [find_emails ?d ?t w] =>
    pose proof (find_emails_length d t w) as L;
    pose proof (find_emails_real d t w) as R;
    destruct (find_emails d t w) as [[|c cs] w'] end;
    cbn [fst] in *.
  - destruct company; cbn; auto.
  - split; [destruct company; reflexivity|]. right.
    cbn [Company.contacts Company.set_contacts]. split; [cbn in *; lia | exact R].
Qed.

(** X18.  The resolver stage returns the records it received, in order,
    each with every field but [contacts] as it was; the contacts are
    either untouched or replaced by one to five contacts that all carry a
    non-empty email and the verified mark. *)
Theorem resolver_stage_contract (companies : list Company.t) (w : W) :
  Forall2 (fun c c' =>
             Company.set_contacts c' (Company.contacts c) = c /\
             (Company.contacts c' = Company.contacts c \/
              (1 <= length (Company.contacts c') <= 5 /\
               Forall (fun x => Py.truthy_str (Contact.email x) = true /\
                                Contact.hunter_verified x = Some true)
                      (Company.contacts c'))))
          companies (fst (enrich_companies_with_contacts companies w)).
Proof.
  revert w. induction companies as [|c cs IH]; intros w; cbn.
  - constructor.
  - pose proof (resolve_contacts_stage c w) as Hc.
    destruct (resolve_contacts c w) as [c' w1].
    specialize (IH w1).
    destruct (enrich_companies_with_contacts cs w1) as [cs' w2].
    constructor; assumption.
Qed.
End ResolverWorld.

(** ** Entity Extractor *)

Section DomainShape.
Import SerpApiClient.

Lemma endswith_unfold (s suffix : string) :
  Py.endswith s suffix =
    String.eqb s suffix ||
    match s with
    | EmptyString => false
    | String _ s' => Py.endswith s' suffix
    end.
Proof. destruct s; reflexivity. Qed.

Lemma endswith_app (body suffix : string) :
  Py.endswith (body +:+ suffix) suffix = true.
Proof.
  induction body as [|a body IH].
  - cbn [append]. rewrite endswith_unfold, String.eqb_refl. reflexivity.
  - change (Py.endswith (String a body +:+ suffix) suffix)
      with (String.eqb (String a (body +:+ suffix)) suffix
            || Py.endswith (body +:+ suffix) suffix).
    rewrite IH. apply orb_true_r.
Qed.

Lemma keep_all (p : ascii -> bool) (s : string) :
  Forall (fun a => p a = true) (list_ascii_of_string (PyText.keep p s)).
Proof.
  induction s as [|a s IH]; cbn; [constructor|].
  destruct (p a) eqn:E; [constructor; assumption | exact IH].
Qed.

Lemma keep_preserves (P : ascii -> Prop) (p : ascii -> bool) (s : string) :
  Forall P (list_ascii_of_string s) ->
  Forall P (list_ascii_of_string (PyText.keep p s)).
Proof.
  induction s as [|a s IH]; cbn; [constructor|].
  intros F. inversion F; subst. destruct (p a); [constructor|]; auto.
Qed.

Lemma chars_app (s t : string) :
  list_ascii_of_string (s +:+ t)
  = list_ascii_of_string s ++ list_ascii_of_string t.
Proof.
  induction s as [|a s IH]; [reflexivity|].
  change (String a s +:+ t) with (String a (s +:+ t)).
  cbn [list_ascii_of_string]. rewrite IH. reflexivity.
Qed.

Lemma replace_go_preserves (P : ascii -> Prop) (old new : string) :
  Forall P (list_ascii_of_string new) ->
  forall s skip, Forall P (list_ascii_of_string s) ->
  Forall P (list_ascii_of_string (PyText.replace_go old new skip s)).
Proof.
  intros Hn. induction s as [|a s IH]; intros skip F; cbn [PyText.replace_go];
    [constructor|].
  inversion F; subst. destruct skip as [|k]; [|apply IH; assumption].
  destruct (String.prefix old (String a s)).
  - rewrite chars_app. apply Forall_app. split; [exact Hn | apply IH; assumption].
  - cbn. constructor; [assumption | apply IH; assumption].
Qed.

Lemma intersperse_preserves (P : ascii -> Prop) (new s : string) :
  Forall P (list_ascii_of_string new) ->
  Forall P (list_ascii_of_string s) ->
  Forall P (list_ascii_of_string (PyText.intersperse new s)).
Proof.
  intros Hn. induction s as [|a s IH]; intros F; cbn; [exact Hn|].
  inversion F; subst. rewrite chars_app. apply Forall_app. split; [exact Hn|].
  cbn. constructor; auto.
Qed.

(** A replacement brings in no character that is neither in the text nor
    in the replacement. *)
Lemma replace_preserves (P : ascii -> Prop) (old new s : string) :
  Forall P (list_ascii_of_string new) ->
  Forall P (list_ascii_of_string s) ->
  Forall P (list_ascii_of_string (PyText.replace old new s)).
Proof.
  intros Hn F. unfold PyText.replace. destruct (String.eqb old "").
  - apply intersperse_preserves; assumption.
  - apply replace_go_preserves; assumption.
Qed.

Lemma lstrip_preserves (P : ascii -> Prop) (s : string) :
  Forall P (list_ascii_of_string s) ->
  Forall P (list_ascii_of_string (Py.lstrip s)).
Proof.
  induction s as [|a s IH]; cbn; [auto|]. intros F.
  destruct (Py.is_space a); [inversion F; auto | exact F].
Qed.

Lemma rstrip_preserves (P : ascii -> Prop) (s : string) :
  Forall P (list_ascii_of_string s) ->
  Forall P (list_ascii_of_string (Py.rstrip s)).
Proof.
  induction s as [|a s IH]; cbn; [auto|]. intros F. inversion F; subst.
  destruct (_ && _); cbn; [constructor | constructor; auto].
Qed.

Lemma lower_ascii_not_upper (a : ascii) : Py.is_upper (Py.lower_ascii a) = false.
Proof.
  unfold Py.lower_ascii. destruct (Py.is_upper a) eqn:U; [|exact U].
  unfold Py.is_upper in *.
  apply andb_true_iff in U as [L R]. apply Nat.leb_le in L, R.
  rewrite nat_ascii_embedding by lia.
  apply andb_false_iff. right. apply Nat.leb_gt. lia.
Qed.

Lemma lower_no_upper (s : string) :
  Forall (fun a => Py.is_upper a = false) (list_ascii_of_string (Py.lower s)).
Proof.
  induction s as [|a s IH]; cbn; [constructor|].
  constructor; [apply lower_ascii_not_upper | exact IH].
Qed.

(** X19.  A synthesised domain ends in ".com" whatever the company name
    is; when the company name is ASCII text, what precedes ".com" is a
    (possibly empty) run of the letters a-z and the digits 0-9. *)
Theorem synthesised_domain_shape (company_name : string) :
  Py.endswith (_get_domain_from_company_name company_name) ".com" = true /\
  (Laws.ascii_text company_name ->
   exists body,
     _get_domain_from_company_name company_name = body +:+ ".com" /\
     Laws.lower_alnum body).
Proof.
  unfold _get_domain_from_company_name. split; [apply endswith_app|].
  intros _. eexists. split; [reflexivity|].
  unfold Laws.lower_alnum. apply Forall_and. split; [apply keep_all|].
  apply keep_preserves.
  repeat (apply replace_preserves; [repeat constructor|]).
  unfold Py.strip. apply rstrip_preserves, lstrip_preserves.
  cbn [fold_left].
  repeat (apply replace_preserves; [repeat constructor|]).
  apply lower_no_upper.
Qed.
End DomainShape.

Lemma synthesised_domain_shape_witness :
  Laws.ascii_text "AT&T, Inc." /\
  exists body,
    SerpApiClient._get_domain_from_company_name "AT&T, Inc."
    = body +:+ ".com" /\
    Laws.lower_alnum body.
Proof.
  assert (A : Laws.ascii_text "AT&T, Inc.")
    by (unfold Laws.ascii_text; cbn; repeat constructor).
  split; [exact A|].
  exact (proj2 (synthesised_domain_shape "AT&T, Inc.") A).
Defined.

(** The suffixes are removed wherever they occur, and " corp" goes before
    " corporation" is looked for. *)
Example synthesised_domain_ex :
  map SerpApiClient._get_domain_from_company_name
      ["Acme Corporation"; "Coca Cola Company"; "AT&T, Inc."; " Co"]
  = ["acmeoration.com"; "cocala.com"; "atandt.com"; ".com"].
Proof. reflexivity. Qed.

Section ExtractorMore.
Import SerpApiClient.
Context {G : Type} `{RandomSource G}.

Lemma relevant_titles_nonempty (job_lower : string) :
  relevant_titles title_mapping job_lower <> [].
Proof.
  unfold title_mapping. cbn [relevant_titles].
  repeat (destruct (Py.contains _ job_lower); [discriminate|]). discriminate.
Qed.

Lemma truthy_app_at (local rest : string) :
  Py.truthy_str (Some (local +:+ "@" +:+ rest)) = true.
Proof. destruct local; reflexivity. Qed.

Lemma endswith_app_r (a b suffix : string) :
  Py.endswith b suffix = true -> Py.endswith (a +:+ b) suffix = true.
Proof.
  intros E. induction a as [|x a IH]; [exact E|].
  change (Py.endswith (String x a +:+ b) suffix)
    with (String.eqb (String x (a +:+ b)) suffix
          || Py.endswith (a +:+ b) suffix).
  rewrite IH. apply orb_true_r.
Qed.

Lemma app_assoc_string (a b c : string) : (a +:+ b) +:+ c = a +:+ (b +:+ c).
Proof.
  induction a as [|x a IH]; [reflexivity|].
  change (String x ((a +:+ b) +:+ c) = String x (a +:+ (b +:+ c))).
  rewrite IH. reflexivity.
Qed.

(** The list [_generate_contacts] returns, written out. *)
Lemma generate_contacts_fields (company_name job_title : string) (g : G) :
  exists first last title g',
    _generate_contacts company_name job_title g =
      ([Contact.mk (first +:+ " " +:+ last) title
          (Some (Py.lower first +:+ "." +:+ Py.lower last +:+ "@"
                 +:+ _get_domain_from_company_name company_name))
          (Some ("linkedin.com/in/" +:+ Py.lower first +:+ Py.lower last))
          (Some 0.0%Q) None], g') /\
    head (relevant_titles title_mapping (Py.lower job_title)) = Some title.
Proof.
  unfold _generate_contacts.
  pose proof (relevant_titles_nonempty (Py.lower job_title)) as Hne.
  destruct (relevant_titles title_mapping (Py.lower job_title))
    as [|title titles]; [contradiction|].
  cbn [firstn fold_left contact_step].
  destruct (SmartCompanyEnricher.choice _ g) as [first g1].
  destruct (SmartCompanyEnricher.choice _ g1) as [last g2].
  exists first, last, title, g2. split; reflexivity.
Qed.

(** X20.  The extractor gives every company exactly one contact, and it is
    a placeholder: the first title listed for the job's keyword, an
    address at the synthesised domain (so never empty, and ending in
    ".com"), confidence 0.0 and no verified mark. *)
Theorem generated_contact_is_placeholder
    (company_name job_title : string) (g : G) :
  exists c,
    fst (_generate_contacts company_name job_title g) = [c] /\
    head (relevant_titles title_mapping (Py.lower job_title))
      = Some (Contact.title c) /\
    (exists local,
       Contact.email c
       = Some (local +:+ "@" +:+ _get_domain_from_company_name company_name)) /\
    Py.truthy_str (Contact.email c) = true /\
    Contact.confidence c = Some 0.0%Q /\
    Contact.hunter_verified c = None.
Proof.
  destruct (generate_contacts_fields company_name job_title g)
    as (first & last & title & g' & -> & Ht).
  eexists. split; [reflexivity|]. cbn [Contact.title Contact.email
    Contact.confidence Contact.hunter_verified].
  assert (E : Py.lower first +:+ "." +:+ Py.lower last +:+ "@"
              +:+ _get_domain_from_company_name company_name
              = (Py.lower first +:+ "." +:+ Py.lower last) +:+ "@"
                +:+ _get_domain_from_company_name company_name).
  { rewrite !app_assoc_string. reflexivity. }
  repeat split; [exact Ht | | ].
  - eexists. rewrite E. reflexivity.
  - rewrite E. apply truthy_app_at.
Qed.

Hypothesis Lawful : Laws.lawful.

Lemma known_employees_in (table : list (string * Z)) (company_lower : string)
    (n : Z) :
  known_employees table company_lower = Some n ->
  In n (map snd table) /\
  any_in (map fst table) company_lower = true.
Proof.
  induction table as [|[company employees] table IH]; [discriminate|].
  cbn [known_employees map fst snd any_in Py.any existsb].
  destruct (Py.contains company company_lower).
  - intros [= <-]. split; [left; reflexivity | reflexivity].
  - intros E. destruct (IH E) as [I A]. split; [right; exact I | exact A].
Qed.

Lemma known_employees_none (table : list (string * Z)) (company_lower : string) :
  known_employees table company_lower = None ->
  any_in (map fst table) company_lower = false.
Proof.
  induction table as [|[company employees] table IH]; [reflexivity|].
  cbn [known_employees map fst snd any_in Py.any existsb].
  destruct (Py.contains company company_lower); [discriminate|].
  exact IH.
Qed.

(** X21.  With a generator that keeps the contract of [random], the
    extractor's head count lies between 10 and 1,500,000; a name that
    mentions a company of the table gets a head count of the table and
    draws nothing, and any other name gets at most 50,000. *)
Theorem extractor_employee_count (company_name : string) (g : G) :
  let out := _estimate_employee_count company_name g in
  (10 <= fst out <= 1500000)%Z /\
  (if any_in (map fst known_companies) (Py.lower company_name)
   then In (fst out) (map snd known_companies) /\ snd out = g
   else (fst out <= 50000)%Z).
Proof.
  cbv zeta. unfold _estimate_employee_count.
  destruct (known_employees known_companies (Py.lower company_name))
    as [n|] eqn:K.
  - apply known_employees_in in K as [I A]. rewrite A. cbn [fst snd].
    split; [|split; [exact I | reflexivity]].
    cbn in I. intuition lia.
  - rewrite (known_employees_none _ _ K). pose proof (proj1 Lawful) as R.
    repeat match goal with |- context [if ?b then _ else _] => destruct b end;
    match goal with |- context [randint ?a ?b ?g] =>
      pose proof (R a b g ltac:(lia)) end; lia.
Qed.

Lemma estimate_employee_count_positive (company_name : string) (g : G) :
  (10 <= fst (_estimate_employee_count company_name g))%Z.
Proof.
  unfold _estimate_employee_count.
  destruct (known_employees known_companies (Py.lower company_name))
    as [n|] eqn:K.
  - apply known_employees_in in K as [I _]. cbn in I |- *. intuition lia.
  - pose proof (proj1 Lawful) as R.
    repeat match goal with |- context [if ?b then _ else _] => destruct b end;
    match goal with |- context [randint ?a ?b ?g] =>
      pose proof (R a b g ltac:(lia)) end; lia.
Qed.

Context `{ResultPatterns}.

Lemma extract_company_extracted (result : SearchResult.t) (g : G) :
  match _extract_company_from_result result g with
  | (Some c, _) =>
      Laws.extracted c /\
      Company.company_name c
      = _extract_company_name (default "" (SearchResult.title result))
                              (default "" (SearchResult.snippet result))
                              (default "" (SearchResult.link result))
  | (None, g') =>
      g' = g /\
      _extract_company_name (default "" (SearchResult.title result))
                            (default "" (SearchResult.snippet result))
                            (default "" (SearchResult.link result)) = ""
  end.
Proof.
  unfold _extract_company_from_result.
  set (name := _extract_company_name _ _ _).
  destruct (String.eqb name "") eqn:N.
  - apply String.eqb_eq in N. auto.
  - apply String.eqb_neq in N.
    pose proof (estimate_employee_count_positive name g) as P.
    destruct (_estimate_employee_count name g) as [n g1]. cbn [fst] in P.
    destruct (generate_contacts_fields name
                (_extract_job_title (default "" (SearchResult.title result))) g1)
      as (first & last & title & g2 & -> & _).
    split; [|reflexivity].
    constructor; cbn; try reflexivity; try assumption.
    + eexists. split; [reflexivity|]. apply endswith_app.
    + destruct n; try reflexivity; lia.
Qed.

(** X22.  With the same contract, a search result without a company name
    gives no record and draws nothing; any other result gives a record
    named as the pattern says, with a domain ending in ".com", revenue
    0.0, a non-zero head count, an empty funding stage, one contact, the
    hiring signal set, and the single source "Google Search Jobs". *)
Theorem extracted_record_shape (result : SearchResult.t) (g : G) :
  let name :=
    _extract_company_name (default "" (SearchResult.title result))
                          (default "" (SearchResult.snippet result))
                          (default "" (SearchResult.link result)) in
  match _extract_company_from_result result g with
  | (Some c, _) => name <> "" /\ Company.company_name c = name /\ Laws.extracted c
  | (None, g') => name = "" /\ g' = g
  end.
Proof.
  cbv zeta. pose proof (extract_company_extracted result g) as E.
  destruct (_extract_company_from_result result g) as [[c|] g'].
  - destruct E as [X N]. rewrite <- N.
    split; [apply X | split; [reflexivity | exact X]].
  - destruct E; auto.
Qed.

Lemma extract_all_extracted (organic_results : list SearchResult.t) (g : G) :
  Forall Laws.extracted (fst (extract_all organic_results g)) /\
  length (fst (extract_all organic_results g)) <= length organic_results.
Proof.
  revert g. induction organic_results as [|r rs IH]; intros g;
    cbn [extract_all]; [split; [constructor | reflexivity]|].
  pose proof (extract_company_extracted r g) as E.
  destruct (_extract_company_from_result r g) as [c g1].
  specialize (IH g1). destruct (extract_all rs g1) as [cs g2].
  cbn [fst length] in *. destruct IH as [F L].
  destruct c as [c|]; [|split; [exact F | lia]].
  destruct (negb _); [|split; [exact F | lia]].
  split; [constructor; [apply E | exact F] | cbn; lia].
Qed.

Lemma unique_loop (companies : list Company.t) :
  forall (seen : gset string) (unique_companies : list Company.t),
  (forall name, name ∈ seen <-> In name (map Company.company_name unique_companies)) ->
  NoDup (map Company.company_name unique_companies) ->
  let out := snd (fold_left unique_step companies (seen, unique_companies)) in
  NoDup (map Company.company_name out) /\
  (exists added, out = unique_companies ++ added /\ sublist added companies) /\
  (forall c, In c companies ->
             In (Company.company_name c) (map Company.company_name out)).
Proof.
  induction companies as [|c cs IH]; intros seen acc Hs Hn; cbn [fold_left].
  - cbn. split; [exact Hn|]. split; [|intros c []].
    exists []. split; [rewrite app_nil_r; reflexivity | constructor].
  - change (unique_step (seen, acc) c)
      with (if bool_decide (Company.company_name c ∉ seen)
            then ({[Company.company_name c]} ∪ seen, acc ++ [c])
            else (seen, acc)).
    destruct (bool_decide _) eqn:D.
    + apply bool_decide_eq_true in D.
      assert (Hs' : forall name,
                 name ∈ {[Company.company_name c]} ∪ seen <->
                 In name (map Company.company_name (acc ++ [c]))).
      { intros name. rewrite map_app, in_app_iff, elem_of_union,
          elem_of_singleton, Hs. cbn. intuition. }
      assert (Hn' : NoDup (map Company.company_name (acc ++ [c]))).
      { rewrite map_app. apply NoDup_app. split; [exact Hn|]. split.
        - intros x Hx [E|[]]%list_elem_of_In. apply D, Hs. rewrite E.
          apply list_elem_of_In. exact Hx.
        - cbn. apply NoDup_singleton. }
      destruct (IH _ _ Hs' Hn') as (N & (added & E & S) & Cov). cbv zeta in *.
      split; [exact N|]. split.
      * exists (c :: added). split; [rewrite E, <- app_assoc; reflexivity|].
        constructor. exact S.
      * intros c' [<-|I]; [|apply Cov, I].
        rewrite E, !map_app, !in_app_iff. left. right. left. reflexivity.
    + apply bool_decide_eq_false in D.
      assert (Hin : Company.company_name c ∈ seen).
      { destruct (decide (Company.company_name c ∈ seen)); tauto. }
      destruct (IH _ _ Hs Hn) as (N & (added & E & S) & Cov). cbv zeta in *.
      split; [exact N|]. split.
      * exists added. split; [exact E|]. apply sublist_cons, S.
      * intros c' [<-|I]; [|apply Cov, I].
        rewrite E, map_app, in_app_iff. left. apply Hs, Hin.
Qed.

(** X23.  With the same contract, the records parsed from a search
    response bear pairwise different names, are each of the extractor's
    shape, and are no more than the results of the response; a response
    without results gives none and draws nothing. *)
Theorem parsed_results_unique (data : SearchResult.response) (g : G) :
  let out := fst (_parse_google_results data g) in
  NoDup (map Company.company_name out) /\
  Forall Laws.extracted out /\
  length out <= length (default [] (SearchResult.organic_results data)) /\
  (SearchResult.organic_results data = None ->
   _parse_google_results data g = ([], g)).
Proof.
  cbv zeta. unfold _parse_google_results.
  destruct (SearchResult.organic_results data) as [rs|];
    [|cbn; repeat split; [constructor | constructor | lia]].
  pose proof (extract_all_extracted rs g) as [F L].
  destruct (extract_all rs g) as [cs g1]. cbn [fst default from_option id] in *.
  destruct (unique_loop cs ∅ []) as (N & (added & E & S) & _).
  { intros name. cbn. rewrite elem_of_empty. tauto. }
  { constructor. }
  cbv zeta in E, N. cbn [app] in E.
  repeat split.
  - exact N.
  - rewrite E. rewrite Forall_forall in F |- *. intros c I.
    apply F. eapply elem_of_sublist; [exact I | exact S].
  - rewrite E. apply sublist_length in S. lia.
  - discriminate.
Qed.

End ExtractorMore.

(** "Uber Technologies" mentions a company of the table. *)
Lemma extractor_employee_count_witness :
  @SerpApiClient._estimate_employee_count Z Sample.counting_random
    "Uber Technologies" 3%Z = (32000%Z, 3%Z).
Proof.
  pose proof (@extractor_employee_count Z Sample.counting_random
                counting_random_lawful "Uber Technologies" 3%Z) as [_ K].
  change (SerpApiClient.any_in (map fst SerpApiClient.known_companies)
            (Py.lower "Uber Technologies")) with true in K.
  destruct K as [_ K]. apply injective_projections; [reflexivity | exact K].
Defined.

Lemma extracted_record_shape_witness :
  match @SerpApiClient._extract_company_from_result Z Sample.counting_random
          Listing.patterns (Listing.result "Data Engineer" "Initech") 0%Z with
  | (Some c, _) =>
      "Initech" <> "" /\ Company.company_name c = "Initech" /\ Laws.extracted c
  | (None, g') => "Initech" = "" /\ g' = 0%Z
  end.
Proof.
  exact (@extracted_record_shape Z Sample.counting_random
           counting_random_lawful Listing.patterns
           (Listing.result "Data Engineer" "Initech") 0%Z).
Defined.

(** Four results, one without a company, two for the same company: two
    records. *)
Lemma parsed_results_unique_witness :
  let out :=
    fst (@SerpApiClient._parse_google_results Z Sample.counting_random
           Listing.patterns Listing.page 0%Z) in
  map Company.company_name out = ["Initech"; "Hooli Bank"] /\
  NoDup (map Company.company_name out) /\
  Forall Laws.extracted out.
Proof.
  pose proof (@parsed_results_unique Z Sample.counting_random
                counting_random_lawful Listing.patterns Listing.page 0%Z)
    as (N & X & _).
  cbv zeta. split; [vm_compute; reflexivity|]. split; [exact N | exact X].
Defined.

Section ExtractorIndustry.
Import SerpApiClient.

Lemma any_in_app (xs ys : list string) (text : string) :
  any_in (xs ++ ys) text = any_in xs text || any_in ys text.
Proof. unfold any_in, Py.any. apply existsb_app. Qed.

(** X26.  The industry is one of seven labels, and the job title is
    consulted only when the company name holds none of the twenty words
    looked for in it: a name that holds one gets its label whatever the
    job title says. *)
Theorem industry_from_name_first (company_name : string) :
  (forall job_title,
     In (_infer_industry company_name job_title)
        ["FinTech"; "Healthcare"; "Software & Technology";
         "Media & Entertainment"; "Data & Analytics";
         "Artificial Intelligence"; "Technology"]) /\
  (any_in Laws.company_keywords (Py.lower company_name) = true ->
   forall job_title job_title',
     _infer_industry company_name job_title
     = _infer_industry company_name job_title').
Proof.
  split.
  - intros job_title. unfold _infer_industry.
    repeat match goal with |- context [if ?b then _ else _] => destruct b end;
      cbn; tauto.
  - change Laws.company_keywords
      with (["bank"; "finance"; "capital"; "payments"; "credit"]
            ++ ["health"; "medical"; "care"; "pharma"; "bio"]
            ++ ["soft"; "tech"; "cloud"; "data"; "ai"; "io"]
            ++ ["media"; "entertainment"; "streaming"; "content"]).
    rewrite !any_in_app. intros A job_title job_title'.
    unfold _infer_industry.
    destruct (any_in ["bank"; _; _; _; _] _); [reflexivity|].
    destruct (any_in ["health"; _; _; _; _] _); [reflexivity|].
    destruct (any_in ["soft"; _; _; _; _; _] _); [reflexivity|].
    destruct (any_in ["media"; _; _; _] _); [reflexivity|].
    discriminate.
Qed.
End ExtractorIndustry.

Section ExtractorDownstream.
Context {G : Type} `{RandomSource G}.
Hypothesis Lawful : Laws.lawful.

(** X24.  With a generator that keeps the contract of [random], the
    estimator keeps the head count, domain, contact and source of a record
    of the extractor's shape, replaces its revenue 0.0 by the head count
    times a per-employee figure between 100000 and 500000, and gives it
    the funding stage "Series A" or "Series B", whatever the head
    count. *)
Theorem extracted_then_estimated (c : Company.t) (g : G) :
  Laws.extracted c ->
  let c' := fst (SmartCompanyEnricher.enrich_company c g) in
  Company.employee_count c' = Company.employee_count c /\
  (exists e per_employee,
     Company.employee_count c = Some e /\
     (100000 <= per_employee <= 500000)%Z /\
     Company.revenue c' = Some (inject_Z (e * per_employee))) /\
  (Company.funding_stage c' = Some "Series A" \/
   Company.funding_stage c' = Some "Series B") /\
  Company.domain c' = Company.domain c /\
  Company.contacts c' = Company.contacts c /\
  Company.source c' = Company.source c /\
  Company.smart_enriched c' = Some true.
Proof.
  intros X. cbv zeta.
  destruct (enrich_company_fields Lawful c g)
    as (n & r & stage & g' & -> & _ & (per & Bper & Er) & _ & Iab & _).
  cbn [fst Company.employee_count Company.revenue Company.funding_stage
       Company.domain Company.contacts Company.source Company.smart_enriched].
  pose proof (Laws.ex_employee_count c X) as Te.
  rewrite Te in *. rewrite (Laws.ex_revenue c X), (Laws.ex_funding_stage c X).
  cbn [Py.truthy_num Py.truthy_str negb Qeq_bool Qnum Qden Z.mul
       Z.eqb String.eqb Z.compare].
  destruct (truthy_int_value _ Te) as (e & Ee & _). rewrite Ee in Er.
  cbn [default from_option id] in Er.
  specialize (Iab eq_refl).
  repeat split; try reflexivity.
  - exists e, per. subst r. auto.
  - cbn in Iab. intuition (subst; auto).
Qed.

End ExtractorDownstream.

Lemma acme_extracted : Laws.extracted Sample.acme.
Proof.
  constructor; try reflexivity; [discriminate|].
  exists "acmecorp.com". split; reflexivity.
Qed.

(** 1200 employees: the revenue becomes 1200 times the per-employee
    figure, the stage "Series A" or "Series B". *)
Lemma extracted_then_estimated_witness :
  let c' :=
    fst (@SmartCompanyEnricher.enrich_company Z Sample.counting_random
           Sample.acme 0%Z) in
  Company.employee_count c' = Some 1200%Z /\
  (Company.funding_stage c' = Some "Series A" \/
   Company.funding_stage c' = Some "Series B").
Proof.
  pose proof (@extracted_then_estimated Z Sample.counting_random
                counting_random_lawful Sample.acme 0%Z acme_extracted)
    as (E & _ & S & _).
  cbv zeta. split; [rewrite E; reflexivity | exact S].
Defined.

Section ExtractorResolver.
Import HunterClient.
Context {W : Type} `{ContactDirectory W}.

(** X25.  The resolver's gate stops no record of the extractor's shape:
    the directory is asked about its domain, the record keeps its
    placeholder contact when the answer holds no contact, and gets the
    answer's contacts otherwise. *)
Theorem extracted_reaches_directory (c : Company.t) (w : W) :
  Laws.extracted c ->
  exists d,
    Company.domain c = Some (Py.VStr d) /\
    let answer :=
      find_emails d
        (Some ["CTO"; "VP Engineering"; "Chief Data Officer"; "Head of Data"])
        w in
    snd (resolve_contacts c w) = snd answer /\
    Company.contacts (fst (resolve_contacts c w))
    = match fst answer with
      | [] => Company.contacts c
      | contacts => contacts
      end.
Proof.
  intros X. destruct (Laws.ex_domain c X) as (d & Ed & Sd).
  exists d. split; [exact Ed|]. cbv zeta.
  unfold resolve_contacts. rewrite Ed.
  cbn [default from_option id Py.truthy_value Py.isinstance_str].
  assert (Nd : negb (String.eqb d "") = true).
  { destruct d; [discriminate | reflexivity]. }
  rewrite Sd. rewrite Nd. cbn [negb orb].
  destruct (find_emails d _ w) as [[|x xs] w']; cbn; auto.
Qed.
End ExtractorResolver.

Lemma extracted_reaches_directory_witness :
  map Contact.name
      (Company.contacts
         (fst (@HunterClient.resolve_contacts unit Sample.canned_directory
                 Sample.acme tt)))
  = ["Ada Lovelace"; "Cy"; "Ed Poe"; "Flo Rida"; "Gus Hall"].
Proof.
  destruct (@extracted_reaches_directory unit Sample.canned_directory
              Sample.acme tt acme_extracted) as (d & Ed & _ & ->).
  injection Ed as <-. reflexivity.
Defined.

(** ** Agent driver: what the pipeline returns *)

Section DedupInvariant.
Import Deduplicator.
Context `{FuzzyMatcher}.

(** A property of records that a merge keeps for the kept record is
    carried from the input to the output. *)
Lemma dedup_preserves (P : Company.t -> Prop) (companies unique : list Company.t) :
  (forall a b, P a -> P (_merge_companies a b)) ->
  Forall P companies ->
  deduplicate_companies companies = Py.Ok unique ->
  Forall P unique.
Proof.
  intros Hm F. unfold deduplicate_companies.
  destruct (Py.for_each dedup_step [] companies) as [d|e] eqn:E; cbn;
    [|discriminate].
  intros [= <-].
  assert (Q : Forall P ([] ++ companies) -> Forall P (Py.dict_values d)).
  { apply (for_each_processed
             (fun pre d => Forall P pre -> Forall P (Py.dict_values d)))
      with (d := []); [|apply kept_empty|intros _; constructor|exact E].
    intros pre d0 c d' K HQ St Fp.
    apply Forall_app in Fp as [Fpre Fc].
    specialize (HQ Fpre).
    destruct (dedup_step_cases d0 c d' K St)
      as [(d1 & k & ex & d2 & -> & -> & _) | (k & _ & ->)].
    - rewrite values_app in *. cbn in *.
      apply Forall_app in HQ as [F1 F2]. apply Forall_app. split; [exact F1|].
      inversion F2; subst. constructor; [apply Hm; assumption | assumption].
    - rewrite values_app. apply Forall_app. split; [exact HQ|].
      cbn. exact Fc. }
  apply Q, F.
Qed.

End DedupInvariant.

Section AgentMore.
Import ProspectSearchAgent.
Context {W G : Type} `{CompanyFinder W} `{ContactDirectory W}
        `{RandomSource G} `{FuzzyMatcher}.

Lemma enrich_batch_pointwise (companies : list Company.t) (g : G) :
  Forall2 Spec.estimated companies
          (fst (SmartCompanyEnricher.enrich_companies_batch companies g)).
Proof.
  revert g. induction companies as [|c cs IH]; intros g; cbn.
  - constructor.
  - pose proof (enrich_company_estimated c g) as Hc.
    destruct (SmartCompanyEnricher.enrich_company c g) as [c' g1].
    specialize (IH g1).
    destruct (SmartCompanyEnricher.enrich_companies_batch cs g1) as [cs' g2].
    constructor; assumption.
Qed.

(** The stages behind a list the pipeline returns. *)
Lemma pipeline_stages (icp_config : ICP.t) (w : W) (g : G)
    (out : list Company.t) (w' : W) (g' : G) :
  pipeline icp_config w g = (Py.Ok out, w', g') ->
  exists location signals,
    _generate_serpapi_filters icp_config = Py.Ok (location, signals) /\
    (out = [] \/
     exists enriched resolved unique scored,
       Forall2 Spec.estimated
               (fst (search_companies location signals w)) enriched /\
       Forall2 Spec.resolved_record enriched resolved /\
       Deduplicator.deduplicate_companies resolved = Py.Ok unique /\
       Forall2 (Spec.scored icp_config) unique scored /\
       out = Py.sorted_reverse Company.confidence
               (Py.sorted_reverse Company.confidence scored)).
Proof.
  unfold pipeline.
  destruct (_generate_serpapi_filters icp_config) as [[location signals]|e];
    [|discriminate].
  intros E. exists location, signals. split; [reflexivity|].
  destruct (search_companies location signals w) as [found w1].
  destruct found as [|c0 found]; [injection E as <- _ _; left; reflexivity|].
  pose proof (enrich_batch_pointwise (c0 :: found) g) as He.
  destruct (SmartCompanyEnricher.enrich_companies_batch (c0 :: found) g)
    as [enriched g1].
  pose proof (enrich_with_contacts_pointwise enriched w1) as Hr.
  destruct (HunterClient.enrich_companies_with_contacts enriched w1)
    as [resolved w2].
  destruct (Deduplicator.deduplicate_companies resolved) as [unique|e] eqn:D;
    [|discriminate].
  destruct (ConfidenceScorer.calculate_confidence unique icp_config)
    as [ranked|e] eqn:S; [|discriminate].
  apply calculate_confidence_Ok in S as (scored & F & ->).
  injection E as <- _ _. right. exists enriched, resolved, unique, scored.
  cbn [fst] in *. auto.
Qed.

Lemma ranked_perm (scored : list Company.t) :
  Permutation scored
    (Py.sorted_reverse Company.confidence
       (Py.sorted_reverse Company.confidence scored)).
Proof. rewrite <- !sorted_reverse_perm. reflexivity. Qed.

Lemma scored_keys (icp_config : ICP.t) (companies scored : list Company.t) :
  Forall2 (Spec.scored icp_config) companies scored ->
  map Laws.key_of scored = map Laws.key_of companies /\
  length scored = length companies.
Proof.
  induction 1 as [|c s cs ss (q & _ & ->) _ [IHk IHl]]; [split; reflexivity|].
  cbn [map length]. rewrite IHk, IHl. split; reflexivity.
Qed.

Lemma resolved_record_smart (c c' : Company.t) :
  Spec.resolved_record c c' ->
  Company.company_name c' = Company.company_name c /\
  Company.domain c' = Company.domain c /\
  Company.location c' = Company.location c /\
  Company.smart_enriched c' = Company.smart_enriched c.
Proof. intros [->|(cs & _ & ->)]; auto. Qed.

Lemma Forall2_carry {A B : Type} (R : A -> B -> Prop)
    (P : A -> Prop) (Q : B -> Prop) (l : list A) (l' : list B) :
  Forall2 R l l' -> Forall P l -> (forall x y, P x -> R x y -> Q y) ->
  Forall Q l'.
Proof.
  intros F2 F Step. induction F2 as [|x y l l' Rxy _ IH]; [constructor|].
  inversion F; subst. constructor; [eapply Step; eassumption | apply IH; assumption].
Qed.

Lemma traced_set_confidence (found : list Company.t) (p : Company.t) (q : Q) :
  Laws.traced found p -> Laws.traced found (Company.set_confidence p q).
Proof. intros T. exact T. Qed.

Lemma unique_traced (found enriched resolved unique : list Company.t) :
  Forall2 Spec.estimated found enriched ->
  Forall2 Spec.resolved_record enriched resolved ->
  Deduplicator.deduplicate_companies resolved = Py.Ok unique ->
  Forall (Laws.traced found) unique /\ length unique <= length found.
Proof.
  intros He Hr D. split.
  - apply (dedup_preserves _ resolved); [intros a b T; exact T | | exact D].
    apply (Forall2_carry _ (Laws.traced found) _ _ _ Hr).
    + apply (Forall2_carry _ (fun c => In c found) _ _ _ He).
      * apply List.Forall_forall. auto.
      * intros c e I [N Dm L _ _ _ _ _ _ _ _ _ S].
        split; [exact S|]. exists c. auto.
    + intros e r (S & c & I & N & Dm & L) Rr.
      destruct (resolved_record_smart _ _ Rr) as (N' & D' & L' & S').
      split; [congruence|]. exists c. repeat split; congruence.
  - apply dedup_length in D.
    apply Forall2_length in He, Hr. lia.
Qed.

Lemma key_of_set_confidence (c : Company.t) (q : Q) :
  Laws.key_of (Company.set_confidence c q) = Laws.key_of c.
Proof. reflexivity. Qed.

(** X27.  Whatever the finder, the directory, the generator and the
    similarity are, the list [search_prospects] returns is in descending
    order of confidence, every confidence lies between 0 and 1, every
    record carries the enrichment mark, and the deduplication keys are
    pairwise distinct. *)
Theorem prospects_ranked_scored_distinct (icp_config : ICP.t) (w : W) (g : G) :
  let out := fst (fst (search_prospects icp_config w g)) in
  StronglySorted (Spec.desc Company.confidence) out /\
  Forall (fun p => (0 <= Company.confidence p <= 1)%Q /\
                   Company.smart_enriched p = Some true) out /\
  NoDup (map Laws.key_of out).
Proof.
  cbv zeta. unfold search_prospects.
  destruct (pipeline icp_config w g) as [[[out|e] w'] g'] eqn:E; cbn [fst];
    [|repeat split; constructor].
  apply pipeline_stages in E as (location & signals & _ & [->|E]);
    [repeat split; constructor|].
  destruct E as (enriched & resolved & unique & scored & He & Hr & D & F & ->).
  split; [apply sorted_reverse_sorted|].
  pose proof (ranked_perm scored) as P.
  destruct (unique_traced _ _ _ _ He Hr D) as [T _].
  split.
  - rewrite <- P.
    apply (Forall2_carry _ (Laws.traced (fst (search_companies location signals w)))
                         _ _ _ F T).
    intros c s [S _] (q & Eq & ->). split; [|exact S].
    exact (score_unit c icp_config q Eq).
  - rewrite <- P. destruct (scored_keys _ _ _ F) as [-> _].
    unfold Deduplicator.deduplicate_companies in D.
    destruct (Py.for_each Deduplicator.dedup_step [] resolved) as [d|e] eqn:L;
      cbn in D; [|discriminate].
    injection D as <-. exact (for_each_keys_nodup resolved d L).
Qed.

(** X28.  When the geography of the profile yields search filters, the
    prospects returned are no more than the records the finder returned
    for these filters, and each carries the name, domain and location of
    one of them. *)
Theorem prospects_come_from_search
    (icp_config : ICP.t) (w : W) (g : G) (location : string)
    (signals : option IcpSignals.t) :
  _generate_serpapi_filters icp_config = Py.Ok (location, signals) ->
  let found := fst (search_companies location signals w) in
  let out := fst (fst (search_prospects icp_config w g)) in
  length out <= length found /\
  Forall (fun p => exists c, In c found /\
                     Company.company_name p = Company.company_name c /\
                     Company.domain p = Company.domain c /\
                     Company.location p = Company.location c) out.
Proof.
  intros Fl. cbv zeta. unfold search_prospects.
  destruct (pipeline icp_config w g) as [[[out|e] w'] g'] eqn:E; cbn [fst];
    [|split; [cbn; lia | constructor]].
  apply pipeline_stages in E as (location' & signals' & Fl' & E).
  rewrite Fl in Fl'. injection Fl' as <- <-.
  destruct E as [->|E]; [split; [cbn; lia | constructor]|].
  destruct E as (enriched & resolved & unique & scored & He & Hr & D & F & ->).
  pose proof (ranked_perm scored) as P.
  destruct (unique_traced _ _ _ _ He Hr D) as [T L].
  split.
  - rewrite <- P. destruct (scored_keys _ _ _ F) as [_ ->]. exact L.
  - rewrite <- P.
    apply (Forall2_carry _ (Laws.traced (fst (search_companies location signals w)))
                         _ _ _ F T).
    intros c s [_ Tc] (q & _ & ->). exact Tc.
Qed.
End AgentMore.

(** Three records found for "USA", two of them merged: two prospects. *)
Lemma prospects_come_from_search_witness :
  let found := [Sample.acme; Sample.acme_again; Sample.globex] in
  let out :=
    fst (fst (@ProspectSearchAgent.search_prospects unit Z
                Sample.canned_finder Sample.canned_directory
                Sample.counting_random Sample.prefix_matcher
                Sample.icp tt 0%Z)) in
  length out <= 3 /\
  Forall (fun p => exists c, In c found /\
                     Company.company_name p = Company.company_name c /\
                     Company.domain p = Company.domain c /\
                     Company.location p = Company.location c) out.
Proof.
  exact (@prospects_come_from_search unit Z
           Sample.canned_finder Sample.canned_directory
           Sample.counting_random Sample.prefix_matcher
           Sample.icp tt 0%Z "USA" (ICP.signals Sample.icp) eq_refl).
Defined.

(** ** Agent driver: the summary *)

Section Summary.
Import AgentReport.

Lemma filter_length_le {A : Type} (p : A -> bool) (l : list A) :
  length (List.filter p l) <= length l.
Proof.
  induction l as [|x l IH]; cbn; [lia|]. destruct (p x); cbn; lia.
Qed.

(** Each confidence falls in exactly one band. *)
Lemma one_band (p : Company.t) :
  (is_high p = true /\ is_medium p = false /\ is_low p = false) \/
  (is_high p = false /\ is_medium p = true /\ is_low p = false) \/
  (is_high p = false /\ is_medium p = false /\ is_low p = true).
Proof.
  unfold is_high, is_medium, is_low, Py.ge, Py.gt.
  destruct (Qle_bool 0.7 (Company.confidence p)) eqn:Hi;
  destruct (Qle_bool 0.4 (Company.confidence p)) eqn:Lo; cbn; auto.
  apply Qle_bool_iff in Hi.
  assert (L : (0.4 <= Company.confidence p)%Q) by lra.
  apply Qle_bool_iff in L. congruence.
Qed.

Lemma bands_partition (prospects : list prospect) :
  count is_high prospects + count is_medium prospects
  + count is_low prospects = length prospects.
Proof.
  unfold count. induction prospects as [|p ps IH]; cbn; [reflexivity|].
  destruct (one_band (fields p)) as [(-> & -> & ->) | [(-> & -> & ->) | (-> & -> & ->)]];
    cbn; lia.
Qed.

(** X29.  The summary prints nothing but "no prospects" for an empty
    list, and raises nothing there; for any other list the three
    confidence bands add up to the total, which is the length of the
    list, and no other count exceeds it. *)
Theorem summary_counts_add_up (prospects : list prospect) (sigma : store) :
  match fst (fst (display_summary prospects sigma)) with
  | None => prospects = [] /\ display_summary prospects sigma = (None, None, sigma)
  | Some n =>
      prospects <> [] /\
      total n = length prospects /\
      high_confidence n + medium_confidence n + low_confidence n = total n /\
      smart_enriched n <= total n /\
      hunter_contacts n <= total n /\
      hiring_companies n <= total n
  end.
Proof.
  destruct prospects as [|p ps]; [cbn; auto|].
  unfold display_summary.
  destruct (show_top (firstn 5 (p :: ps)) sigma) as [raised sigma'].
  cbn [fst total high_confidence medium_confidence low_confidence
       smart_enriched hunter_contacts hiring_companies].
  split; [discriminate|]. split; [reflexivity|].
  split; [apply bands_partition|].
  unfold count. repeat split; apply filter_length_le.
Qed.

Lemma repeat_snoc {A : Type} (x : A) (n : nat) :
  repeat x n ++ [x] = x :: repeat x n.
Proof. induction n as [|n IH]; cbn; [reflexivity|]. rewrite IH. reflexivity. Qed.

Lemma show_top_store (prospects : list prospect) (sigma : store) (l : nat) :
  snd (show_top prospects sigma) !! l
  = (fun sources =>
       sources ++ repeat "Smart Analysis" (Laws.appends l (Laws.shown prospects)))
    <$> sigma !! l.
Proof.
  revert sigma. induction prospects as [|p ps IH]; intros sigma.
  - cbn. destruct (sigma !! l) as [xs|]; cbn; [rewrite app_nil_r|]; reflexivity.
  - cbn [show_top Laws.shown]. unfold show_prospect.
    destruct (Company.industry (fields p)) as [i|];
      [|cbn; destruct (sigma !! l); cbn; [rewrite app_nil_r|]; reflexivity].
    destruct (Company.location (fields p)) as [loc|];
      [|cbn; destruct (sigma !! l); cbn; [rewrite app_nil_r|]; reflexivity].
    rewrite IH. unfold Laws.appends. cbn [List.filter].
    destruct (Py.truthy_bool (Company.smart_enriched (fields p))); cbn [andb];
      [|reflexivity].
    destruct (source_at p) as [l'|];
      [|rewrite bool_decide_eq_false_2 by discriminate; reflexivity].
    destruct (decide (l' = l)) as [->|Ne].
    + rewrite bool_decide_eq_true_2 by reflexivity.
      rewrite lookup_alter_eq. destruct (sigma !! l) as [xs|]; cbn; [|reflexivity].
      rewrite <- app_assoc. reflexivity.
    + rewrite bool_decide_eq_false_2 by congruence.
      rewrite lookup_alter_ne by exact Ne. reflexivity.
Qed.

Lemma show_top_raised (prospects : list prospect) (sigma : store) :
  fst (show_top prospects sigma) = None <-> Laws.shown prospects = prospects.
Proof.
  revert sigma. induction prospects as [|p ps IH]; intros sigma;
    [cbn; tauto|].
  cbn [show_top Laws.shown]. unfold show_prospect.
  destruct (Company.industry (fields p)) as [i|];
    [|cbn; split; discriminate].
  destruct (Company.location (fields p)) as [loc|];
    [|cbn; split; discriminate].
  rewrite IH. split; [intros ->; reflexivity | intros [= E]; exact E].
Qed.

(** X30.  The summary changes the stored source lists and nothing else:
    the list at an address gets "Smart Analysis" appended once for every
    prospect that holds it, carries the enrichment mark, and is among the
    first five before the first one lacking an industry or a location;
    the call raises exactly when one of the first five lacks one of the
    two.  A second call appends again. *)
Theorem summary_appends_to_sources
    (prospects : list prospect) (sigma : store) (l : nat) :
  let top := Laws.shown (firstn 5 prospects) in
  let after := snd (display_summary prospects sigma) in
  after !! l
  = (fun sources => sources ++ repeat "Smart Analysis" (Laws.appends l top))
    <$> sigma !! l /\
  (snd (fst (display_summary prospects sigma)) = None <->
   top = firstn 5 prospects) /\
  snd (display_summary prospects after) !! l
  = (fun sources =>
       sources ++ repeat "Smart Analysis" (2 * Laws.appends l top))
    <$> sigma !! l.
Proof.
  cbv zeta.
  assert (Once : forall s,
    snd (display_summary prospects s) !! l
    = (fun sources =>
         sources ++ repeat "Smart Analysis"
                      (Laws.appends l (Laws.shown (firstn 5 prospects))))
      <$> s !! l).
  { intros s. destruct prospects as [|p ps].
    - cbn. destruct (s !! l); cbn; [rewrite app_nil_r|]; reflexivity.
    - unfold display_summary.
      pose proof (show_top_store (firstn 5 (p :: ps)) s l) as E.
      destruct (show_top (firstn 5 (p :: ps)) s) as [raised s']. exact E. }
  split; [apply Once|]. split.
  - destruct prospects as [|p ps]; [cbn; tauto|].
    unfold display_summary.
    pose proof (show_top_raised (firstn 5 (p :: ps)) sigma) as E.
    destruct (show_top (firstn 5 (p :: ps)) sigma) as [raised s']. exact E.
  - rewrite Once, Once. destruct (sigma !! l) as [xs|]; cbn; [|reflexivity].
    rewrite <- app_assoc, <- repeat_app. do 3 f_equal. lia.
Qed.
End Summary.

(** Two enriched prospects hold the list at address 0, which gets the tag
    twice in one call; the third prospect is not enriched. *)
Example summary_shared_sources_ex :
  let after := snd (AgentReport.display_summary Listing.prospects
                      Listing.sources) in
  after !! 0 = Some ["Google Search Jobs"; "Smart Analysis"; "Smart Analysis"]
  /\ after !! 1 = Some ["Google Search Jobs"]
  /\ fst (AgentReport.display_summary Listing.prospects Listing.sources)
     = (Some (AgentReport.mk_counts 3 0 0 3 2 0 3), None).
Proof. cbv zeta. repeat split; vm_compute; reflexivity. Qed.
